(** * TagLab, [source/NewDataset.py]: splitting an annotated map into
    training, validation and test regions and sampling tile centres.

    Python floats are modelled by real numbers and Python integers by [Z].
    A Python exception is a value of [result]; so is the case where numpy
    would go on with [nan] or [inf] after a division by zero. *)

From Stdlib Require Import String Bool ZArith Reals Lra Lia List.
From Stdlib Require Import Sorting.Sorted Sorting.Permutation.
Import ListNotations.
Open Scope R_scope.

(** ** Outcomes of a call *)

Inductive PyError : Type :=
| ZeroDivisionError
| TypeError
| IndexError
| ValueError
| AttributeError
| UnboundLocalError.

(** [NotFinite] is not an exception: numpy divides by zero with a warning
    and continues with [nan] or [inf].  Where a definition computes on real
    numbers only, it stops there and says so; where the program goes on to
    compare or to sort such values (the scores of [findAreas], the radius
    map of the importance sampling), the values are floats of numpy,
    [npfloat] below, and the definitions follow them. *)
Inductive result (A : Type) : Type :=
| Ok (a : A)
| Raise (e : PyError)
| NotFinite.

Arguments Ok {A} a.
Arguments Raise {A} e.
Arguments NotFinite {A}.

Definition bind {A B : Type} (c : result A) (k : A -> result B) : result B :=
  match c with
  | Ok a => k a
  | Raise e => Raise e
  | NotFinite => NotFinite
  end.

Notation "x <- c ;; k" := (bind c (fun x => k))
  (at level 61, c at next level, right associativity).
Notation "' p <- c ;; k" := (bind c (fun x => let 'p := x in k))
  (at level 61, p pattern, c at next level, right associativity).

Fixpoint mapM {A B : Type} (f : A -> result B) (l : list A) : result (list B) :=
  match l with
  | [] => Ok []
  | a :: l' => b <- f a ;; bs <- mapM f l' ;; Ok (b :: bs)
  end.

Fixpoint foldM {A St : Type} (f : St -> A -> result St) (l : list A) (s : St)
  : result St :=
  match l with
  | [] => Ok s
  | a :: l' => s' <- f s a ;; foldM f l' s'
  end.

(** ** Numbers *)

Definition Rltb (x y : R) : bool := if Rlt_dec x y then true else false.
Definition Rgtb (x y : R) : bool := Rltb y x.
Definition Rgeb (x y : R) : bool := if Rge_dec x y then true else false.
Definition Req_b (x y : R) : bool := if Req_dec_T x y then true else false.

(** [x / y] on Python numbers. *)
Definition py_div (x y : R) : result R :=
  if Req_b y 0 then Raise ZeroDivisionError else Ok (x / y).

(** [x / y] on numpy floats. *)
Definition np_div (x y : R) : result R :=
  if Req_b y 0 then NotFinite else Ok (x / y).

(** A float of numpy as the program can produce it from numbers: a number,
    an infinity, or nan. *)
Inductive npfloat : Type :=
| Finite (x : R)
| PosInf
| NegInf
| NaN.

(** [x / y] for two floats of numpy that are numbers: the division by
    zero is an infinity of the sign of [x], and nan for 0 / 0. *)
Definition np_fdiv (x y : R) : npfloat :=
  if Req_b y 0 then
    if Rltb 0 x then PosInf else if Rltb x 0 then NegInf else NaN
  else Finite (x / y).

(** [a + b] *)
Definition np_add (a b : npfloat) : npfloat :=
  match a, b with
  | NaN, _ | _, NaN => NaN
  | Finite x, Finite y => Finite (x + y)
  | PosInf, NegInf | NegInf, PosInf => NaN
  | PosInf, _ | _, PosInf => PosInf
  | NegInf, _ | _, NegInf => NegInf
  end.

(** [a * k] and [a / k] for a number [k]; [k] is above zero in the
    division. *)
Definition np_mul (a : npfloat) (k : R) : npfloat :=
  match a with
  | Finite x => Finite (x * k)
  | NaN => NaN
  | PosInf => if Rltb 0 k then PosInf else if Rltb k 0 then NegInf else NaN
  | NegInf => if Rltb 0 k then NegInf else if Rltb k 0 then PosInf else NaN
  end.

Definition np_div_by (a : npfloat) (k : R) : npfloat :=
  match a with
  | Finite x => Finite (x / k)
  | other => other
  end.

(** [a < b] and [a >= b]: a comparison with nan is false. *)
Definition np_ltb (a b : npfloat) : bool :=
  match a, b with
  | NaN, _ | _, NaN => false
  | Finite x, Finite y => Rltb x y
  | NegInf, NegInf => false
  | NegInf, _ => true
  | _, NegInf => false
  | PosInf, _ => false
  | Finite _, PosInf => true
  end.

Definition np_geb (a b : npfloat) : bool :=
  match a, b with
  | NaN, _ | _, NaN => false
  | _, _ => negb (np_ltb a b)
  end.

Definition is_nan (a : npfloat) : bool :=
  match a with
  | NaN => true
  | _ => false
  end.

(** [sum(l)] for a list of floats. *)
Definition np_sum (l : list npfloat) : npfloat := fold_left np_add l (Finite 0).

(** [int(x)] truncates towards zero. *)
Definition py_int (x : R) : Z := if Rgeb x 0 then Zfloor x else Zceil x.

(** [sum(l)] *)
Definition py_sum (l : list R) : R := fold_left Rplus l 0.

(** [np.min] and [np.max] of a one-dimensional array; numpy raises
    [ValueError] on an empty one. *)
Definition np_min (l : list R) : result R :=
  match l with
  | [] => Raise ValueError
  | x :: l' => Ok (fold_left Rmin l' x)
  end.

Definition np_max (l : list R) : result R :=
  match l with
  | [] => Raise ValueError
  | x :: l' => Ok (fold_left Rmax l' x)
  end.

(** [np.mean] and [np.std] of a one-dimensional array that is not empty;
    [np.std] has [ddof=0]: it averages the squared deviations over the
    number of elements. *)
Definition np_mean (l : list R) : R := py_sum l / INR (length l).

Definition np_std (l : list R) : R :=
  sqrt (np_mean (map (fun x => (x - np_mean l) * (x - np_mean l)) l)).

(** The bound of a slice [a[start:stop]] on a sequence of length [n]. *)
Definition slice_index (n i : Z) : Z :=
  if (i <? 0)%Z then Z.max (i + n) 0 else Z.min i n.

(** [l[start:stop]] *)
Definition py_slice {A : Type} (l : list A) (start stop : Z) : list A :=
  let n := Z.of_nat (length l) in
  let lo := slice_index n start in
  let hi := slice_index n stop in
  firstn (Z.to_nat (hi - lo)) (skipn (Z.to_nat lo) l).

(** [range(n)] *)
Definition range (n : Z) : list Z := map Z.of_nat (seq 0 (Z.to_nat n)).

(** ** Boxes, stored as (top, left, width, height) *)

Record box (A : Type) : Type := Box { top : A; left : A; width : A; height : A }.

Arguments Box {A} top left width height.
Arguments top {A} b.
Arguments left {A} b.
Arguments width {A} b.
Arguments height {A} b.

Definition box_R (b : box Z) : box R :=
  Box (IZR (top b)) (IZR (left b)) (IZR (width b)) (IZR (height b)).

Definition isFullyInsideBBox (bbox1 bbox2 : box R) : bool :=
  let top1 := top bbox1 in
  let left1 := left bbox1 in
  let w1 := width bbox1 in
  let h1 := height bbox1 in
  let top2 := top bbox2 in
  let left2 := left bbox2 in
  let w2 := width bbox2 in
  let h2 := height bbox2 in
  if Rgeb top1 top2 && Rgeb left1 left2
     && Rltb (top1 + h1) (top2 + h2) && Rltb (left1 + w1) (left2 + w2)
  then true else false.

Definition bbox_intersection (bbox1 bbox2 : box R) : R :=
  let bb1_0 := left bbox1 in
  let bb1_1 := top bbox1 in
  let bb1_2 := left bbox1 + width bbox1 in
  let bb1_3 := top bbox1 + height bbox1 in
  let bb2_0 := left bbox2 in
  let bb2_1 := top bbox2 in
  let bb2_2 := left bbox2 + width bbox2 in
  let bb2_3 := top bbox2 + height bbox2 in
  let x_left := Rmax bb1_0 bb2_0 in
  let y_top := Rmax bb1_1 bb2_1 in
  let x_right := Rmin bb1_2 bb2_2 in
  let y_bottom := Rmin bb1_3 bb2_3 in
  if Rltb x_right x_left || Rltb y_bottom y_top then 0
  else (x_right - x_left) * (y_bottom - y_top).

(** Modelled from the spec: [expand] is not a function of the source; it
    grows a box by [eps] on each of its four sides. *)
Definition expand (b : box R) (eps : R) : box R :=
  Box (top b - eps) (left b - eps) (width b + 2 * eps) (height b + 2 * eps).

(** ** The random source *)

(** [randint_draw n a b] is what [rnd.randint(a, b)] returns when it is the
    [n]-th draw of the run, [uniform_draw n a b] what [rnd.uniform(a, b)]
    returns.  A function takes the number of draws made so far and gives
    back the new one. *)
Record Random : Type := {
  randint_draw : nat -> Z -> Z -> Z;
  uniform_draw : nat -> R -> R -> R
}.

Definition randint (rnd : Random) (n : nat) (a b : Z) : result (Z * nat) :=
  if (b <? a)%Z then Raise ValueError
  else Ok (randint_draw rnd n a b, S n).

Definition uniform (rnd : Random) (n : nat) (a b : R) : R * nat :=
  (uniform_draw rnd n a b, S n).

(** ** The dataset object *)

(** [self.crop_size], set once in [__init__]. *)
Definition crop_size : R := 513.

(** numpy arrays of two dimensions, as the list of their rows. *)
Definition ndarray (A : Type) : Type := list (list A).

(** An index of numpy along an axis of length [len]: a negative index
    counts from the end. *)
Definition np_index (len : nat) (i : Z) : result nat :=
  if (0 <=? i)%Z && (i <? Z.of_nat len)%Z then Ok (Z.to_nat i)
  else if (- Z.of_nat len <=? i)%Z && (i <? 0)%Z
       then Ok (Z.to_nat (i + Z.of_nat len))
       else Raise IndexError.

(** [a[r, c]] *)
Definition np_get {A : Type} (a : ndarray A) (r c : Z) : result A :=
  ri <- np_index (length a) r ;;
  match nth_error a ri with
  | None => Raise IndexError
  | Some row =>
    ci <- np_index (length row) c ;;
    match nth_error row ci with
    | None => Raise IndexError
    | Some x => Ok x
    end
  end.

Record Blob : Type := {
  class_name : string;
  bbox : box Z;
  area : R;
  centroid : Z * Z;
  mask : ndarray Z
}.

Record NewDataset : Type := {
  map_w : Z;                       (* orthoimage.width() *)
  map_h : Z;                       (* orthoimage.height() *)
  blobs : list Blob;
  val_area : box R;
  test_area : box R;
  labels : option (ndarray Z);
  frequencies : option (list R);
  radius_map : option (ndarray npfloat)
}.

Definition set_frequencies (self : NewDataset) (f : list R) : NewDataset :=
  {| map_w := map_w self; map_h := map_h self; blobs := blobs self;
     val_area := val_area self; test_area := test_area self;
     labels := labels self; frequencies := Some f;
     radius_map := radius_map self |}.

Definition set_radius_map (self : NewDataset) (m : ndarray npfloat) : NewDataset :=
  {| map_w := map_w self; map_h := map_h self; blobs := blobs self;
     val_area := val_area self; test_area := test_area self;
     labels := labels self; frequencies := frequencies self;
     radius_map := Some m |}.

(** ** Landscape metrics *)

Definition checkBlobInside (area_ : box R) (blob : Blob) (threshold : R)
  : result bool :=
  let intersection := bbox_intersection area_ (box_R (bbox blob)) in
  perc_inside <- py_div intersection (IZR (width (bbox blob) * height (bbox blob))) ;;
  if Rgtb perc_inside threshold then Ok true else Ok false.

(** The inner loop of [computeFrequencies]: the summed area of a class. *)
Definition class_area (class_name_ : string) (bl : list Blob) : R :=
  fold_left
    (fun area_ blob =>
       if String.eqb (class_name blob) class_name_ then area_ + area blob
       else area_)
    bl 0.

Definition computeFrequencies (self : NewDataset) (target_classes : list string)
  : result NewDataset :=
  let area_map := (map_w self * map_h self)%Z in
  frequencies_ <- mapM (fun class_name_ =>
                          py_div (class_area class_name_ (blobs self)) (IZR area_map))
                       target_classes ;;
  Ok (set_frequencies self frequencies_).

(** [np.count_nonzero(a == i)] *)
Definition count_equal (i : Z) (a : ndarray Z) : nat :=
  fold_left (fun n row => (n + length (filter (Z.eqb i) row))%nat) a 0%nat.

Definition computeExactCoverage (self : NewDataset) (area_ : box Z)
  (target_classes : list string) : result (list R) :=
  let top_ := top area_ in
  let left_ := left area_ in
  let right_ := (left_ + width area_)%Z in
  let bottom_ := (top_ + height area_)%Z in
  match labels self with
  | None => Raise TypeError
  | Some lbl =>
    let labelsint := map (fun row => py_slice row left_ right_)
                         (py_slice lbl top_ bottom_) in
    let A := IZR (width area_ * height area_) in
    mapM (fun i : Z =>
            let i := (i + 1)%Z in
            py_div (INR (count_equal i labelsint)) A)
         (range (Z.of_nat (length target_classes)))
  end.

(** [self.frequencies[i]] *)
Definition frequency_at (self : NewDataset) (i : nat) : result R :=
  match frequencies self with
  | None => Raise TypeError
  | Some f =>
    match nth_error f i with
    | Some x => Ok x
    | None => Raise IndexError
    end
  end.

(** The loop over the blobs in [calculateMetrics]: the areas of the blobs of
    a class that are inside the given area for 3/4. *)
Fixpoint areas_inside (area_ : box R) (class_name_ : string) (bl : list Blob)
  : result (list R) :=
  match bl with
  | [] => Ok []
  | blob :: rest =>
    if String.eqb (class_name blob) class_name_ then
      inside <- checkBlobInside area_ blob (3 / 4) ;;
      areas <- areas_inside area_ class_name_ rest ;;
      Ok (if inside then area blob :: areas else areas)
    else areas_inside area_ class_name_ rest
  end.

(** The list [areas] that [calculateMetrics] builds for class [i]. *)
Definition counted_areas (self : NewDataset) (area_ : box Z) (i : nat)
  (class_name_ : string) : result (list R) :=
  f <- frequency_at self i ;;
  if Rgtb f 0 then areas_inside (box_R area_) class_name_ (blobs self)
  else Ok [].

(** One turn of the loop over the classes: the number of entities and the
    PSCV of class [i]. *)
Definition class_metrics (self : NewDataset) (area_ : box Z)
  (ic : nat * string) : result (nat * R) :=
  areas <- counted_areas self area_ (fst ic) (snd ic) ;;
  if (0 <? length areas)%nat then
    let mean_areas := np_mean areas in
    let std_areas := np_std areas in
    pscv <- np_div (100 * std_areas) mean_areas ;;
    Ok (length areas, pscv)
  else Ok (length areas, 0).

(** [enumerate(l)] *)
Definition enumerate {A : Type} (l : list A) : list (nat * A) :=
  combine (seq 0 (length l)) l.

Definition calculateMetrics (self : NewDataset) (area_ : box Z)
  (target_classes : list string) : result (list nat * list R * list R) :=
  per_class <- mapM (class_metrics self area_) (enumerate target_classes) ;;
  let number := map fst per_class in
  let PSCV := map snd per_class in
  coverage <- computeExactCoverage self area_ target_classes ;;
  Ok (number, coverage, PSCV).

(** What [calculateMetrics] needs in order to return: the label raster and
    the frequencies are there, the area is not empty, and the blobs that
    are tested (those of a class of positive frequency) have a bounding box
    that is not empty and a positive area. *)
Definition metrics_ready (self : NewDataset) (area_ : box Z)
  (target_classes : list string) : Prop :=
  (exists lbl, labels self = Some lbl)
  /\ (exists fs, frequencies self = Some fs
                 /\ (length target_classes <= length fs)%nat)
  /\ (width area_ * height area_ <> 0)%Z
  /\ (forall i class_name_ f blob,
        nth_error target_classes i = Some class_name_ ->
        frequency_at self i = Ok f -> 0 < f ->
        In blob (blobs self) -> class_name blob = class_name_ ->
        (width (bbox blob) * height (bbox blob) <> 0)%Z /\ 0 < area blob).

(** Following the spec's words: the population standard deviation, the
    square root of the mean squared deviation from the mean (no Bessel
    correction), and the PSCV of a list of areas. *)
Definition population_stddev (l : list R) : R :=
  let N := INR (length l) in
  let mu := fold_right Rplus 0 l / N in
  sqrt (fold_right Rplus 0 (map (fun x => Rsqr (x - mu)) l) / N).

Definition spec_pscv (areas : list R) : R :=
  if (0 <? length areas)%nat
  then 100 * population_stddev areas / (fold_right Rplus 0 areas / INR (length areas))
  else 0.

(** ** The search for the validation and the test area *)

(** [l[i]] for an index that is not negative. *)
Definition item {A : Type} (l : list A) (i : nat) : result A :=
  match nth_error l i with
  | Some x => Ok x
  | None => Raise IndexError
  end.

(** The three distances [s1], [s2], [s3] that [rangeScore], [calculateScore]
    and [calculateNormalizedScore] compute for class [i] under the test
    [landscape_number[i] > 0]. *)
Definition class_distances (area_number : list nat) (area_coverage area_PSCV : list R)
  (landscape_number : list nat) (landscape_coverage landscape_PSCV : list R)
  (i : nat) (ln : nat) : result (R * R * R) :=
  an <- item area_number i ;;
  let s1 := Rabs (INR an / INR ln * 100 - 15) in
  ac <- item area_coverage i ;;
  lc <- item landscape_coverage i ;;
  let s2 := Rabs ((ac - lc) * 100) in
  ap <- item area_PSCV i ;;
  lp <- item landscape_PSCV i ;;
  let s3 := Rabs (ap - lp) in
  Ok (s1, s2, s3).

Definition rangeScore (area_number : list nat) (area_coverage area_PSCV : list R)
  (landscape_number : list nat) (landscape_coverage landscape_PSCV : list R)
  : result (list R * list R * list R) :=
  s <- mapM (fun i =>
               ln <- item landscape_number i ;;
               if (0 <? ln)%nat then
                 class_distances area_number area_coverage area_PSCV
                   landscape_number landscape_coverage landscape_PSCV i ln
               else Ok (0, 0, 0))
            (seq 0 (length area_number)) ;;
  Ok (map (fun t => fst (fst t)) s, map (fun t => snd (fst t)) s, map snd s).

Definition calculateScore (area_number : list nat) (area_coverage area_PSCV : list R)
  (landscape_number : list nat) (landscape_coverage landscape_PSCV : list R)
  : result (list R) :=
  mapM (fun i =>
          ln <- item landscape_number i ;;
          if (0 <? ln)%nat then
            '(s1, s2, s3) <- class_distances area_number area_coverage area_PSCV
                               landscape_number landscape_coverage landscape_PSCV i ln ;;
            Ok (s1 + s2 + s3)
          else Ok 0)
       (seq 0 (length area_number)).

(** The normalization factors that [findAreas] stores in [self]. *)
Record Bounds : Type := {
  sn_min : list R; sn_max : list R;
  sc_min : list R; sc_max : list R;
  sP_min : list R; sP_max : list R
}.

Definition calculateNormalizedScore (b : Bounds)
  (area_number : list nat) (area_coverage area_PSCV : list R)
  (landscape_number : list nat) (landscape_coverage landscape_PSCV : list R)
  : result (list npfloat) :=
  mapM (fun i =>
          ln <- item landscape_number i ;;
          if (0 <? ln)%nat then
            '(s1, s2, s3) <- class_distances area_number area_coverage area_PSCV
                               landscape_number landscape_coverage landscape_PSCV i ln ;;
            sn_lo <- item (sn_min b) i ;;
            sn_hi <- item (sn_max b) i ;;
            let sn := np_fdiv (s1 - sn_lo) (sn_hi - sn_lo) in
            sc_lo <- item (sc_min b) i ;;
            sc_hi <- item (sc_max b) i ;;
            let sc := np_fdiv (s2 - sc_lo) (sc_hi - sc_lo) in
            sP_lo <- item (sP_min b) i ;;
            sP_hi <- item (sP_max b) i ;;
            let sP := np_fdiv (s3 - sP_lo) (sP_hi - sP_lo) in
            Ok (np_div_by (np_add (np_add sn sc) sP) 3)
          else Ok (Finite 0))
       (seq 0 (length area_number)).

(** [np.min(a, axis=0)] and [np.max(a, axis=0)] of the array made of the
    given rows. *)
Definition np_min_axis0 (rows : list (list R)) : result (list R) :=
  match rows with
  | [] => Raise ValueError
  | r :: _ => mapM (fun i => np_min (map (fun row => nth i row 0) rows))
                   (seq 0 (length r))
  end.

Definition np_max_axis0 (rows : list (list R)) : result (list R) :=
  match rows with
  | [] => Raise ValueError
  | r :: _ => mapM (fun i => np_max (map (fun row => nth i row 0) rows))
                   (seq 0 (length r))
  end.

(** The random area of both loops of [findAreas]. *)
Definition draw_area (self : NewDataset) (rnd : Random) (area_w area_h : Z)
  (n : nat) : result (box Z * nat) :=
  let '(aspect_ratio_factor, n) := uniform rnd n (4 / 10) (25 / 10) in
  qw <- py_div (IZR area_w) aspect_ratio_factor ;;
  let w := py_int qw in
  let h := py_int (IZR area_h * aspect_ratio_factor) in
  '(px, n) <- randint rnd n 0 (map_w self - w - 1) ;;
  '(py, n) <- randint rnd n 0 (map_h self - h - 1) ;;
  Ok (Box py px w h, n).

Definition metrics : Type := (list nat * list R * list R)%type.

(** One turn of the first loop: the lists [numbers], [coverages] and
    [PSCVs] are never read and are left out. *)
Definition normalization_trial (self : NewDataset) (rnd : Random)
  (target_classes : list string) (landscape : metrics) (area_w area_h : Z)
  (st : list (list R) * list (list R) * list (list R) * nat) (i : Z)
  : result (list (list R) * list (list R) * list (list R) * nat) :=
  let '(sn, sc, sP, n) := st in
  let '(landscape_number, landscape_coverage, landscape_PSCV) := landscape in
  '(area_bbox, n) <- draw_area self rnd area_w area_h n ;;
  '(area_number, area_coverage, area_PSCV) <-
     calculateMetrics self area_bbox target_classes ;;
  '(s1, s2, s3) <- rangeScore area_number area_coverage area_PSCV
                     landscape_number landscape_coverage landscape_PSCV ;;
  Ok (sn ++ [s1], sc ++ [s2], sP ++ [s3], n).

Definition normalization_bounds (sn sc sP : list (list R)) : result Bounds :=
  sn_min_ <- np_min_axis0 sn ;;
  sn_max_ <- np_max_axis0 sn ;;
  sc_min_ <- np_min_axis0 sc ;;
  sc_max_ <- np_max_axis0 sc ;;
  sP_min_ <- np_min_axis0 sP ;;
  sP_max_ <- np_max_axis0 sP ;;
  Ok {| sn_min := sn_min_; sn_max := sn_max_; sc_min := sc_min_;
        sc_max := sc_max_; sP_min := sP_min_; sP_max := sP_max_ |}.

(** An entry of [area_info]: the area, its scores and its aggregated
    score. *)
Definition candidate : Type := (box Z * list npfloat * npfloat)%type.

Definition candidate_area (c : candidate) : box Z := fst (fst c).
Definition aggregated_score (c : candidate) : npfloat := snd c.

(** [sum(scores) / len(scores)]: the sum of an empty list is the integer
    0, and its division by the integer 0 raises. *)
Definition mean_score (scores : list npfloat) : result npfloat :=
  match scores with
  | [] => Raise ZeroDivisionError
  | _ :: _ => Ok (np_div_by (np_sum scores) (INR (length scores)))
  end.

(** One turn of the second loop. *)
Definition search_trial (self : NewDataset) (rnd : Random)
  (target_classes : list string) (landscape : metrics) (b : Bounds)
  (area_w area_h : Z) (st : list candidate * nat) (i : Z)
  : result (list candidate * nat) :=
  let '(landscape_number, landscape_coverage, landscape_PSCV) := landscape in
  '(area_bbox, n) <- draw_area self rnd area_w area_h (snd st) ;;
  '(area_number, area_coverage, area_PSCV) <-
     calculateMetrics self area_bbox target_classes ;;
  scores <- calculateNormalizedScore b area_number area_coverage area_PSCV
              landscape_number landscape_coverage landscape_PSCV ;;
  aggregated_score_ <- mean_score scores ;;
  Ok (fst st ++ [(area_bbox, scores, aggregated_score_)], n).

(** [findAreas] up to the sort: the metrics of the whole map and the list
    [area_info]. *)
Definition scored_candidates (self : NewDataset) (rnd : Random)
  (target_classes : list string) (n : nat)
  : result (metrics * list candidate * nat) :=
  let area_w := py_int (sqrt (15 / 100) * IZR (map_w self)) in
  let area_h := py_int (sqrt (15 / 100) * IZR (map_h self)) in
  landscape <- calculateMetrics self (Box 0%Z 0%Z (map_w self) (map_h self))
                 target_classes ;;
  '(sn, sc, sP, n) <-
     foldM (normalization_trial self rnd target_classes landscape area_w area_h)
           (range 500) ([], [], [], n) ;;
  b <- normalization_bounds sn sc sP ;;
  '(area_info, n) <-
     foldM (search_trial self rnd target_classes landscape b area_w area_h)
           (range 5000) ([], n) ;;
  Ok (landscape, area_info, n).

(** [area_info.sort(key=lambda x: x[2])]: the sort of Python is stable and
    compares the keys with [<] only.  [stable_sort] is the stable sort by
    insertion. *)
Fixpoint insert_by_score (x : candidate) (l : list candidate) : list candidate :=
  match l with
  | [] => [x]
  | y :: l' =>
    if np_ltb (aggregated_score y) (aggregated_score x)
    then y :: insert_by_score x l'
    else x :: l
  end.

Definition stable_sort (l : list candidate) : list candidate :=
  fold_right insert_by_score [] l.

(** No entry of the list is below the one before it. *)
Fixpoint ascending (l : list candidate) : bool :=
  match l with
  | [] => true
  | x :: rest =>
    match rest with
    | [] => true
    | y :: _ => negb (np_ltb (aggregated_score y) (aggregated_score x))
                && ascending rest
    end
  end.

(** A list in which no entry is below the one before it is one ascending
    run for the sort, and is left as it is, whatever its keys are.  On a
    list without a nan key [<] is a total preorder and the sort returns
    the one stable sorted order.  On a list with a nan key and an entry
    below the one before it, the order that the sort leaves depends on
    how it merges its runs and not on the keys alone: the model stops
    there. *)
Definition sort_by_score (l : list candidate) : result (list candidate) :=
  if ascending l then Ok l
  else if existsb (fun c => is_nan (aggregated_score c)) l then NotFinite
  else Ok (stable_sort l).

(** The last loop of [findAreas]: [None] when it ends without having
    assigned [test_area]. *)
Fixpoint first_disjoint (val_area_ : box Z) (area_info : list candidate)
  : option (box Z) :=
  match area_info with
  | [] => None
  | c :: rest =>
    let intersection := bbox_intersection (box_R val_area_)
                                          (box_R (candidate_area c)) in
    if Rltb intersection 10 then Some (candidate_area c)
    else first_disjoint val_area_ rest
  end.

(** [findAreas] from the sort on. *)
Definition select_areas (self : NewDataset) (target_classes : list string)
  (landscape : metrics) (area_info : list candidate) : result (box Z * box Z) :=
  let '(landscape_number, landscape_coverage, landscape_PSCV) := landscape in
  area_info <- sort_by_score area_info ;;
  val_area_ <- (match area_info with
                | [] => Raise IndexError
                | c :: _ => Ok (candidate_area c)
                end) ;;
  '(area_number, area_coverage, area_PSCV) <-
     calculateMetrics self val_area_ target_classes ;;
  scores <- calculateScore area_number area_coverage area_PSCV
              landscape_number landscape_coverage landscape_PSCV ;;
  match first_disjoint val_area_ area_info with
  | Some test_area_ => Ok (val_area_, test_area_)
  | None => Raise UnboundLocalError
  end.

Definition findAreas (self : NewDataset) (rnd : Random)
  (target_classes : list string) (n : nat) : result (box Z * box Z * nat) :=
  '(landscape, area_info, n) <- scored_candidates self rnd target_classes n ;;
  '(val_area_, test_area_) <- select_areas self target_classes landscape area_info ;;
  Ok (val_area_, test_area_, n).

(** [findAreas] after the sort, on the list as the sort left it, whatever
    its order is: [select_areas] is the sort followed by this. *)
Definition select_sorted (self : NewDataset) (target_classes : list string)
  (landscape : metrics) (area_info : list candidate) : result (box Z * box Z) :=
  let '(landscape_number, landscape_coverage, landscape_PSCV) := landscape in
  val_area_ <- (match area_info with
                | [] => Raise IndexError
                | c :: _ => Ok (candidate_area c)
                end) ;;
  '(area_number, area_coverage, area_PSCV) <-
     calculateMetrics self val_area_ target_classes ;;
  scores <- calculateScore area_number area_coverage area_PSCV
              landscape_number landscape_coverage landscape_PSCV ;;
  match first_disjoint val_area_ area_info with
  | Some test_area_ => Ok (val_area_, test_area_)
  | None => Raise UnboundLocalError
  end.

(** Names for the statements about the search. *)
Definition le_score (a b : candidate) : Prop :=
  np_geb (aggregated_score b) (aggregated_score a) = true.

Definition overlap (a b : box Z) : R := bbox_intersection (box_R a) (box_R b).

(** The scores of a list hold no nan. *)
Definition numbers_only (l : list candidate) : Prop :=
  Forall (fun c => is_nan (aggregated_score c) = false) l.

(** Every entry of [area_info] is an area on which [calculateMetrics]
    returned. *)
Definition measured (self : NewDataset) (target_classes : list string)
  (c : candidate) : Prop :=
  exists m, calculateMetrics self (candidate_area c) target_classes = Ok m.

(** ** The radius map *)

(** The array [radius] of [compute_radius_map] before it is painted: one
    value per class index, index 0 being the background. *)
Definition radius_values (freqs : list R) (radius_min radius_max : R)
  : result (list R) :=
  let radius := py_sum freqs :: freqs in
  f_min <- np_min radius ;;
  f_max <- np_max radius ;;
  let radius := map (fun r => r - f_min) radius in
  radius <- mapM (fun r => np_div r (f_max - f_min)) radius ;;
  Ok (map (fun r => r * (radius_max - radius_min) + radius_min) radius).

(** The same array as numpy computes it, through the division by zero:
    [radius - f_min], [radius / (f_max - f_min)] and
    [radius * (radius_max - radius_min) + radius_min], entry by entry. *)
Definition radius_array (freqs : list R) (radius_min radius_max : R)
  : result (list npfloat) :=
  let radius := py_sum freqs :: freqs in
  f_min <- np_min radius ;;
  f_max <- np_max radius ;;
  let radius := map (fun r => r - f_min) radius in
  let radius := map (fun r => np_fdiv r (f_max - f_min)) radius in
  Ok (map (fun r => np_add (np_mul r (radius_max - radius_min)) (Finite radius_min))
          radius).

(** [radius_map[labels == i] = r] for every [i, r] of [enumerate(radius)],
    on an array of zeros of the shape of [labels]. *)
Definition paint_radius (radius : list npfloat) (lbl : ndarray Z) : ndarray npfloat :=
  map (map (fun l : Z =>
              if (0 <=? l)%Z && (l <? Z.of_nat (length radius))%Z
              then nth (Z.to_nat l) radius (Finite 0)
              else Finite 0))
      lbl.

(** [gaussian] stands for [skimage.filters.gaussian] at [sigma=60.0] and
    [mode='reflect']. *)
Definition compute_radius_map (gaussian : ndarray npfloat -> ndarray npfloat)
  (self : NewDataset) (radius_min radius_max : R) : result NewDataset :=
  match labels self with
  | None => Raise AttributeError
  | Some lbl =>
    match frequencies self with
    | None => Raise TypeError
    | Some freqs =>
      radius <- radius_array freqs radius_min radius_max ;;
      Ok (set_radius_map self (gaussian (paint_radius radius lbl)))
    end
  end.

(** ** Importance sampling *)

(** [self.radius_map[py, px]] *)
Definition radius_at (self : NewDataset) (py px : Z) : result npfloat :=
  match radius_map self with
  | None => Raise TypeError
  | Some m => np_get m py px
  end.

(** The distance computed in the loop over the samples. *)
Definition distance (sample : Z * Z) (px py : Z) : R :=
  sqrt (IZR ((fst sample - px) * (fst sample - px)
             + (snd sample - py) * (snd sample - py))).

(** [d < (r1 + r2) / 2.0], where [r1] and [r2] come from the radius map:
    false as soon as one of them is nan. *)
Definition closer_than_mean (d : R) (r1 r2 : npfloat) : bool :=
  np_ltb (Finite d) (np_div_by (np_add r1 r2) 2).

(** The loop over [current_samples], with its [break]: the value of [flag]
    after it. *)
Fixpoint separation_flag (self : NewDataset) (px py : Z) (r1 : npfloat)
  (current_samples : list (Z * Z)) : result bool :=
  match current_samples with
  | [] => Ok true
  | sample :: rest =>
    r2 <- radius_at self (snd sample) (fst sample) ;;
    let d := distance sample px py in
    if closer_than_mean d r1 r2 then Ok false
    else separation_flag self px py r1 rest
  end.

(** The test of a candidate and its [append]. *)
Definition try_sample (self : NewDataset) (px py : Z)
  (current_samples : list (Z * Z)) : result (list (Z * Z)) :=
  r1 <- radius_at self py px ;;
  flag <- separation_flag self px py r1 current_samples ;;
  if flag then Ok (current_samples ++ [(px, py)]) else Ok current_samples.

(** One turn of the loop of [importanceSamplingBlob]. *)
Definition blob_trial (self : NewDataset) (rnd : Random) (blob : Blob)
  (st : list (Z * Z) * nat) (i : Z) : result (list (Z * Z) * nat) :=
  let offset_x := left (bbox blob) in
  let offset_y := top (bbox blob) in
  let w := width (bbox blob) in
  let h := height (bbox blob) in
  '(px, n) <- randint rnd (snd st) 1 (w - 1) ;;
  '(py, n) <- randint rnd n 1 (h - 1) ;;
  m <- np_get (mask blob) py px ;;
  if (m =? 1)%Z then
    let px := (px + offset_x)%Z in
    let py := (py + offset_y)%Z in
    current_samples <- try_sample self px py (fst st) ;;
    Ok (current_samples, n)
  else Ok (fst st, n).

Definition importanceSamplingBlob (self : NewDataset) (rnd : Random)
  (blob : Blob) (current_samples : list (Z * Z)) (centroid_ : bool) (n : nat)
  : result (list (Z * Z) * nat) :=
  let current_samples :=
    if centroid_ then current_samples ++ [centroid blob] else current_samples in
  foldM (blob_trial self rnd blob) (range 30) (current_samples, n).

(** One turn of the loop of [importanceSamplingSubArea]. *)
Definition subarea_trial (self : NewDataset) (rnd : Random) (area_ : box Z)
  (st : list (Z * Z) * nat) (i : Z) : result (list (Z * Z) * nat) :=
  let top_ := top area_ in
  let left_ := left area_ in
  let w := width area_ in
  let h := height area_ in
  '(px, n) <- randint rnd (snd st) left_ (left_ + w - 1) ;;
  '(py, n) <- randint rnd n top_ (top_ + h - 1) ;;
  current_samples <- try_sample self px py (fst st) ;;
  Ok (current_samples, n).

Definition importanceSamplingSubArea (self : NewDataset) (rnd : Random)
  (area_ : box Z) (current_samples : list (Z * Z)) (n : nat)
  : result (list (Z * Z) * nat) :=
  foldM (subarea_trial self rnd area_) (range 30) (current_samples, n).

(** The list [classes] of [sampleAreaImportanceSampling]. *)
Definition rare_classes : list string :=
  ["Montipora_crust/patula"; "Pocillopora_eydouxi"; "Pocillopora";
   "Porite_massive"; "Montipora_plate/flabellata"]%string.

(** The first pair of loops of [sampleAreaImportanceSampling]: the blobs
    of the listed classes, class by class. *)
Definition sample_rare_blobs (self : NewDataset) (rnd : Random)
  (st : list (Z * Z) * nat) : result (list (Z * Z) * nat) :=
  foldM
    (fun st class_name_ =>
       foldM
         (fun st blob =>
            if String.eqb (class_name blob) class_name_
            then importanceSamplingBlob self rnd blob (fst st) false (snd st)
            else Ok st)
         (blobs self) st)
    rare_classes st.

(** The second pair of loops: the sub-areas of 1024 px every 256 px. *)
Definition sample_sub_areas (self : NewDataset) (rnd : Random) (area_ : box Z)
  (st : list (Z * Z) * nat) : result (list (Z * Z) * nat) :=
  let tile_size := 1024%Z in
  let step := 256%Z in
  let tile_cols := (1 + py_int (IZR (width area_) / IZR step))%Z in
  let tile_rows := (1 + py_int (IZR (height area_) / IZR step))%Z in
  foldM
    (fun st row =>
       foldM
         (fun st col =>
            let top_ := (top area_ + row * step)%Z in
            let left_ := (left area_ + col * step)%Z in
            let left_ :=
              if (left area_ + width area_ - 1 <? left_ + tile_size)%Z
              then (width area_ - tile_size - 1)%Z else left_ in
            let top_ :=
              if (top area_ + height area_ - 1 <? top_ + tile_size)%Z
              then (height area_ - tile_size - 1)%Z else top_ in
            let sub_area := Box top_ left_ tile_size tile_size in
            importanceSamplingSubArea self rnd sub_area (fst st) (snd st))
         (range tile_cols) st)
    (range tile_rows) st.

Definition sampleAreaImportanceSampling (self : NewDataset) (rnd : Random)
  (area_ : box Z) (n : nat) : result (list (Z * Z) * nat) :=
  let samples := [] in
  st <- sample_rare_blobs self rnd (samples, n) ;;
  sample_sub_areas self rnd area_ st.

(** Two samples passed the test of the loop over [current_samples]: the
    radius map was read at both, and their distance was not below the
    mean of the two values; where both values are numbers, the distance is
    at least their mean. *)
Definition separated (self : NewDataset) (p q : Z * Z) : Prop :=
  exists r1 r2,
    radius_at self (snd p) (fst p) = Ok r1
    /\ radius_at self (snd q) (fst q) = Ok r2
    /\ closer_than_mean (distance p (fst q) (snd q)) r1 r2 = false
    /\ forall a b, r1 = Finite a -> r2 = Finite b ->
                   (a + b) / 2 <= distance p (fst q) (snd q).

(** The invariant of a run: every sample keeps its distance from the
    samples accepted before it. *)
Definition pairwise_separated (self : NewDataset) (samples : list (Z * Z)) : Prop :=
  forall i j p q,
    (i < j)%nat -> nth_error samples i = Some p -> nth_error samples j = Some q ->
    separated self p q.

(** The blobs that the first pair of loops visits, in the order of the
    visits. *)
Definition rare_entities (self : NewDataset) : list Blob :=
  flat_map
    (fun class_name_ =>
       filter (fun blob => String.eqb (class_name blob) class_name_) (blobs self))
    rare_classes.

(** What holds of the samples that a call of [importanceSamplingBlob]
    appends to [samples]: each was drawn inside the mask of the blob and
    keeps its distance from every sample that was there before it. *)
Definition accepted_on_blob (self : NewDataset) (blob : Blob)
  (samples accepted : list (Z * Z)) : Prop :=
  forall j p,
    nth_error accepted j = Some p ->
    np_get (mask blob) (snd p - top (bbox blob)) (fst p - left (bbox blob))
    = Ok 1%Z
    /\ forall q, In q (samples ++ firstn j accepted) -> separated self q p.

(** ** Uniform sampling of an area *)

Definition sampleAreaUniformly (area_ : box R) (tile_size step : R)
  : result (list (R * R)) :=
  let area_W := width area_ in
  let area_H := height area_ in
  qW <- py_div area_W step ;;
  let tile_cols := (1 + py_int qW)%Z in
  qH <- py_div area_H step ;;
  let tile_rows := (1 + py_int qH)%Z in
  let deltaW := (area_W - IZR tile_cols * step) / 2 in
  let deltaH := (area_H - IZR tile_rows * step) / 2 in
  let deltaW := py_int deltaW in
  let deltaH := py_int deltaH in
  let area_top := top area_ + IZR deltaH - IZR (py_int ((tile_size - crop_size) / 2)) in
  let area_left := left area_ + IZR deltaW - IZR (py_int ((tile_size - crop_size) / 2)) in
  Ok (flat_map
        (fun row =>
           map (fun col =>
                  let top_ := area_top + IZR row * step in
                  let left_ := area_left + IZR col * step in
                  let cy := top_ + tile_size / 2 in
                  let cx := left_ + tile_size / 2 in
                  (cx, cy))
               (range tile_cols))
        (range tile_rows)).

(** ** Cleaning the training tiles *)

(** The box that [cleanTrainingTiles] writes into its [bbox] list for a
    tile [(x, y)]. *)
Definition padded_box (tile : R * R) : box R :=
  let size := crop_size + 10 in
  let half_size := size / 2 in
  Box (snd tile - half_size) (fst tile - half_size) size size.

Definition cleanTrainingTiles (self : NewDataset) (training_tiles : list (R * R))
  : list (R * R) :=
  fold_left
    (fun cleaned_tiles tile =>
       let bbox_ := padded_box tile in
       let areaV := bbox_intersection bbox_ (val_area self) in
       let areaT := bbox_intersection bbox_ (test_area self) in
       if Rltb areaV 10 && Rltb areaT 10
       then cleaned_tiles ++ [tile]
       else cleaned_tiles)
    training_tiles [].

(** The test of the loop of [cleanTrainingTiles], named for the proofs. *)
Definition tile_is_clear (self : NewDataset) (tile : R * R) : bool :=
  Rltb (bbox_intersection (padded_box tile) (val_area self)) 10
  && Rltb (bbox_intersection (padded_box tile) (test_area self)) 10.

(** ** Further notions for the statements *)

(** A random source that keeps the bounds of [rnd.randint]. *)
Definition fair_source (rnd : Random) : Prop :=
  forall (n : nat) (a b : Z), (a <= b)%Z -> (a <= randint_draw rnd n a b <= b)%Z.

(** The box of the whole map. *)
Definition map_box (self : NewDataset) : box Z :=
  Box 0%Z 0%Z (map_w self) (map_h self).

(** A call that raises: it neither returns nor goes on with [nan]. *)
Definition raises {A : Type} (c : result A) : Prop := exists e, c = Raise e.

(** A call that raises or returns. *)
Definition finite {A : Type} (c : result A) : Prop := c <> NotFinite.

(** The six arrays of normalization factors have one entry per class. *)
Definition bounds_of_length (b : Bounds) (k : nat) : Prop :=
  length (sn_min b) = k /\ length (sn_max b) = k
  /\ length (sc_min b) = k /\ length (sc_max b) = k
  /\ length (sP_min b) = k /\ length (sP_max b) = k.

(** ** Setting up the areas *)

Definition set_areas (self : NewDataset) (v t : box R) : NewDataset :=
  {| map_w := map_w self; map_h := map_h self; blobs := blobs self;
     val_area := v; test_area := t;
     labels := labels self; frequencies := frequencies self;
     radius_map := radius_map self |}.

(** One turn of the loop of the mode "RANDOM": the pair of areas is
    replaced when the two new areas meet by less than 1. *)
Definition random_areas_trial (self : NewDataset) (rnd : Random)
  (area_w area_h : Z) (st : box R * box R * nat) (j : Z)
  : result (box R * box R * nat) :=
  let '(val_area_, test_area_, n) := st in
  '(px1, n) <- randint rnd n 0 (map_w self - area_w - 1) ;;
  '(py1, n) <- randint rnd n 0 (map_h self - area_h - 1) ;;
  '(px2, n) <- randint rnd n 0 (map_w self - area_w - 1) ;;
  '(py2, n) <- randint rnd n 0 (map_h self - area_h - 1) ;;
  let area1 := box_R (Box px1 py1 area_w area_h) in
  let area2 := box_R (Box px2 py2 area_w area_h) in
  let intersection := bbox_intersection area1 area2 in
  if Rltb intersection 1 then Ok (area1, area2, n)
  else Ok (val_area_, test_area_, n).

(** [tile_size] is [self.tile_size]; [target_classes] is [None] when the
    argument is left out. *)
Definition setupAreas (self : NewDataset) (tile_size : R) (rnd : Random)
  (mode : string) (target_classes : option (list string)) (n : nat)
  : result (NewDataset * nat) :=
  let val_area_ := Box 0 0 0 0 in
  let test_area_ := Box 0 0 0 0 in
  let '(val_area_, test_area_) :=
    if String.eqb mode "UNIFORM" then
      let delta := IZR (py_int ((tile_size - crop_size) / 2)) in
      (Box (delta + (IZR (map_h self) - delta * 2) * (7 / 10)) delta
           (IZR (map_w self) - delta * 2) (IZR (map_h self) * (15 / 100)),
       Box (delta + (IZR (map_h self) - delta * 2) * (85 / 100)) delta
           (IZR (map_w self) - delta * 2) (IZR (map_h self) * (15 / 100)))
    else (val_area_, test_area_) in
  '(val_area_, test_area_, n) <-
    (if String.eqb mode "RANDOM" then
       let area_w := py_int (sqrt (15 / 100) * IZR (map_w self)) in
       let area_h := py_int (sqrt (15 / 100) * IZR (map_h self)) in
       foldM (random_areas_trial self rnd area_w area_h) (range 1000)
             (val_area_, test_area_, n)
     else if String.eqb mode "BIOLOGICALLY-INSPIRED" then
       match target_classes with
       | None => Raise TypeError
       | Some classes =>
         '(v, t, n) <- findAreas self rnd classes n ;;
         Ok (box_R v, box_R t, n)
       end
     else Ok (val_area_, test_area_, n)) ;;
  Ok (set_areas self val_area_ test_area_, n).

(** ** Cleaning the validation tiles *)

(** [training_tiles] is [self.training_tiles]. *)
Definition cleaningValidationTiles (training_tiles validation_tiles : list (R * R))
  : list (R * R) :=
  fold_left
    (fun cleaned_tiles vtile =>
       let bbox1 := padded_box vtile in
       let flag :=
         fold_left
           (fun flag tile =>
              let bbox2 := padded_box tile in
              let area_ := bbox_intersection bbox1 bbox2 in
              if Rgtb area_ 10 then false else flag)
           training_tiles true in
       if flag then cleaned_tiles ++ [vtile] else cleaned_tiles)
    validation_tiles [].

(** ** Poisson disk sampling *)

(** The loop over [current_samples] of [sampleBlob]: the value of [dmin]
    after it. *)
Definition nearest_distance (px py : Z) (current_samples : list (Z * Z)) : R :=
  fold_left
    (fun dmin sample =>
       let d := distance sample px py in
       if Rltb d dmin then d else dmin)
    current_samples 100000000.

(** One turn of the loop of [sampleBlob]; the state holds
    [current_samples], [samples] and the number of draws. *)
Definition sample_trial (rnd : Random) (blob : Blob) (r : R)
  (st : list (Z * Z) * list (Z * Z) * nat) (i : Z)
  : result (list (Z * Z) * list (Z * Z) * nat) :=
  let '(current_samples, samples, n) := st in
  let offset_x := left (bbox blob) in
  let offset_y := top (bbox blob) in
  let w := width (bbox blob) in
  let h := height (bbox blob) in
  '(px, n) <- randint rnd n 1 (w - 1) ;;
  '(py, n) <- randint rnd n 1 (h - 1) ;;
  m <- np_get (mask blob) py px ;;
  if (m =? 1)%Z then
    let dmin := nearest_distance px py current_samples in
    if Rgeb dmin r
    then Ok (current_samples ++ [(px, py)],
             samples ++ [((px + offset_x)%Z, (py + offset_y)%Z)], n)
    else Ok (current_samples, samples, n)
  else Ok (current_samples, samples, n).

Definition sampleBlob (rnd : Random) (blob : Blob) (samples : list (Z * Z))
  (r : R) (centroid_ : bool) (n : nat) : result (list (Z * Z) * nat) :=
  let samples := if centroid_ then samples ++ [centroid blob] else samples in
  '(_, samples, n) <- foldM (sample_trial rnd blob r) (range 1000) ([], samples, n) ;;
  Ok (samples, n).

Definition sampleAreaPoissonDisk (rnd : Random) (area_ : box R)
  (blobs_ : list Blob) (radius : R) (n : nat) : result (list (Z * Z) * nat) :=
  foldM
    (fun (st : list (Z * Z) * nat) blob =>
       if Rgtb (bbox_intersection area_ (box_R (bbox blob))) 100
       then sampleBlob rnd blob (fst st) radius false (snd st)
       else Ok st)
    blobs_ ([], n).

(** The samples of a list lie [r] apart or more from one another. *)
Fixpoint pairwise_apart (r : R) (samples : list (Z * Z)) : Prop :=
  match samples with
  | [] => True
  | p :: rest =>
    Forall (fun q => r <= distance q (fst p) (snd p)) rest /\ pairwise_apart r rest
  end.

(** The mask of a blob has the height and the width of its box. *)
Definition mask_fits (blob : Blob) : Prop :=
  length (mask blob) = Z.to_nat (height (bbox blob))
  /\ Forall (fun row => length row = Z.to_nat (width (bbox blob))) (mask blob).

(** ** From the colours of the label image to the labels *)

(** A pixel of [imglbl]: its first three channels. *)
Definition color : Type := (Z * Z * Z)%type.

Definition color_eqb (p c : color) : bool :=
  (fst (fst p) =? fst (fst c))%Z && (snd (fst p) =? snd (fst c))%Z
  && (snd p =? snd c)%Z.

(** [labels[idx] = i + 1], where [idx] are the pixels of [imglbl] that
    have the colour [class_colors]. *)
Definition paint_label (imglbl : ndarray color) (class_colors : color) (i : nat)
  (lbl : ndarray Z) : ndarray Z :=
  map (fun rows : list color * list Z =>
         map (fun px : color * Z =>
                if color_eqb (fst px) class_colors then (Z.of_nat i + 1)%Z
                else snd px)
             (combine (fst rows) (snd rows)))
      (combine imglbl lbl).

Definition set_labels (self : NewDataset) (lbl : ndarray Z) : NewDataset :=
  {| map_w := map_w self; map_h := map_h self; blobs := blobs self;
     val_area := val_area self; test_area := test_area self;
     labels := Some lbl; frequencies := frequencies self;
     radius_map := radius_map self |}.

(** [imglbl] is the array of the label image and [labels_colors] the
    dictionary of the colours.  The call returns the object as it leaves
    it, and [false] when a class without a colour stopped the loop with
    [KeyError]: the labels assigned before are kept as they are then. *)
Definition convert_colors_to_labels (self : NewDataset) (imglbl : ndarray color)
  (target_classes : list string) (labels_colors : string -> option color)
  : NewDataset * bool :=
  let zeros := map (map (fun _ : color => 0%Z)) imglbl in
  let '(lbl, ok) :=
    fold_left
      (fun (st : ndarray Z * bool) (entry : nat * string) =>
         let '(lbl, ok) := st in
         if ok then
           match labels_colors (snd entry) with
           | Some class_colors => (paint_label imglbl class_colors (fst entry) lbl, true)
           | None => (lbl, false)
           end
         else st)
      (enumerate target_classes) (zeros, true) in
  (set_labels self lbl, ok).

(** The element of an array at a row and a column inside it. *)
Definition pixel_at {A : Type} (a : ndarray A) (r c : nat) : option A :=
  match nth_error a r with
  | Some row => nth_error row c
  | None => None
  end.

(** ** Invariants of the loops *)

(** What the loop of [sampleBlob] keeps true of [current_samples] and
    [samples] after [k] turns. *)
Definition sampled (rnd : Random) (blob : Blob) (r : R) (before : list (Z * Z))
  (n k : nat) (st : list (Z * Z) * list (Z * Z) * nat) : Prop :=
  let '(current_samples, samples, m) := st in
  m = (n + 2 * k)%nat
  /\ samples = before ++ map (fun p => ((fst p + left (bbox blob))%Z,
                                         (snd p + top (bbox blob))%Z))
                             current_samples
  /\ (length current_samples <= k)%nat
  /\ pairwise_apart r current_samples
  /\ Forall (fun p => np_get (mask blob) (snd p) (fst p) = Ok 1%Z
                      /\ (1 <= fst p < width (bbox blob))%Z
                      /\ (1 <= snd p < height (bbox blob))%Z)
            current_samples
  /\ (100000000 < r -> current_samples = []).

(** The draws and the samples after [k] runs of 30 turns. *)
Definition within_budget (samples : list (Z * Z)) (n : nat) (k : nat)
  (st : list (Z * Z) * nat) : Prop :=
  snd st = (n + 60 * k)%nat
  /\ (length samples <= length (fst st) <= length samples + 30 * k)%nat.

(** The label of one pixel after the loop over the colours. *)
Definition last_match (entries : list (nat * color)) (p : color) (l0 : Z) : Z :=
  fold_left
    (fun l (e : nat * color) =>
       if color_eqb p (snd e) then (Z.of_nat (fst e) + 1)%Z else l)
    entries l0.

(** ** The uniform grid in the words of the spec *)

(** Following the spec's words: the centre of the tile of a row and a
    column of the grid when the slack [width - cols * step] is split
    evenly between the two sides and the centring offset is
    [(tile_size - crop_size) / 2] as it stands. *)
Definition spec_uniform_centre (area_ : box R) (tile_size step : R) (row col : Z)
  : R * R :=
  let cols := (1 + Zfloor (width area_ / step))%Z in
  let rows := (1 + Zfloor (height area_ / step))%Z in
  let marginW := (width area_ - IZR cols * step) / 2 in
  let marginH := (height area_ - IZR rows * step) / 2 in
  let offset := (tile_size - crop_size) / 2 in
  (left area_ + marginW - offset + IZR col * step + tile_size / 2,
   top area_ + marginH - offset + IZR row * step + tile_size / 2).

(** ** Concrete datasets used by the examples *)

(** A dataset whose validation region is 100 px wide and 20 px high at the
    origin, and whose test region is still the empty default. *)
Definition dataset_val_100x20 : NewDataset :=
  {| map_w := 1000; map_h := 1000; blobs := [];
     val_area := Box 0 0 100 20; test_area := Box 0 0 0 0;
     labels := None; frequencies := None; radius_map := None |}.

(** A 10 x 10 map with no painted label, one blob of class A and two blobs
    of class B. *)
Definition blob_A1 : Blob :=
  {| class_name := "A"; bbox := Box 0%Z 0%Z 2%Z 2%Z; area := 4;
     centroid := (1, 1)%Z; mask := [[1; 1]; [1; 1]]%Z |}.

Definition blob_B1 : Blob :=
  {| class_name := "B"; bbox := Box 4%Z 4%Z 2%Z 1%Z; area := 2;
     centroid := (5, 4)%Z; mask := [[1; 1]]%Z |}.

Definition blob_B2 : Blob :=
  {| class_name := "B"; bbox := Box 6%Z 6%Z 2%Z 2%Z; area := 4;
     centroid := (7, 7)%Z; mask := [[1; 1]; [1; 1]]%Z |}.

Definition dataset_two_classes : NewDataset :=
  {| map_w := 10; map_h := 10; blobs := [blob_A1; blob_B1; blob_B2];
     val_area := Box 0 0 0 0; test_area := Box 0 0 0 0;
     labels := Some (repeat (repeat 0%Z 10) 10);
     frequencies := Some [4 / 100; 6 / 100];
     radius_map := None |}.

(** The same map when the stored frequency of class A is 0 although a blob
    of class A is there, together with a second one whose box is empty. *)
Definition blob_A_empty_box : Blob :=
  {| class_name := "A"; bbox := Box 3%Z 3%Z 0%Z 0%Z; area := 0;
     centroid := (3, 3)%Z; mask := [] |}.

Definition dataset_stale_frequencies : NewDataset :=
  {| map_w := 10; map_h := 10;
     blobs := [blob_A1; blob_A_empty_box; blob_B1; blob_B2];
     val_area := Box 0 0 0 0; test_area := Box 0 0 0 0;
     labels := Some (repeat (repeat 0%Z 10) 10);
     frequencies := Some [0; 6 / 100];
     radius_map := None |}.

(** A random source whose first two integers are the upper bound asked
    for and whose later ones are one below it. *)
Definition rnd_corner : Random :=
  {| randint_draw := fun n a b => if (n <? 2)%nat then b else (b - 1)%Z;
     uniform_draw := fun n a b => a |}.

(** A map of 3 x 3 pixels without blobs, whose radius map is 1 everywhere. *)
Definition dataset_radius_3x3 : NewDataset :=
  {| map_w := 3; map_h := 3; blobs := [];
     val_area := Box 0 0 0 0; test_area := Box 0 0 0 0;
     labels := None; frequencies := None;
     radius_map := Some (repeat (repeat (Finite 1) 3) 3) |}.

(** A random source that always returns the lower bound asked for. *)
Definition rnd_low : Random :=
  {| randint_draw := fun n a b => a; uniform_draw := fun n a b => a |}.

(** A map of 3 x 3 pixels covered by one blob of a listed class, with a
    radius map that is 0 everywhere. *)
Definition blob_full : Blob :=
  {| class_name := "Pocillopora"; bbox := Box 0%Z 0%Z 3%Z 3%Z; area := 9;
     centroid := (1, 1)%Z;
     mask := [[1; 1; 1]; [1; 1; 1]; [1; 1; 1]]%Z |}.

Definition dataset_full_mask : NewDataset :=
  {| map_w := 3; map_h := 3; blobs := [blob_full];
     val_area := Box 0 0 0 0; test_area := Box 0 0 0 0;
     labels := None; frequencies := None;
     radius_map := Some (repeat (repeat (Finite 0) 3) 3) |}.

(** Two maps of 3 x 3 pixels with one target class, for which
    [compute_radius_map] divides 0 by 0: their radius map is nan at every
    pixel.  The first has no blob, the label 0 everywhere and the frequency
    0; the second is covered by one blob of the class, with the label 1
    everywhere and the frequency 1. *)
Definition dataset_nan_3x3 : NewDataset :=
  {| map_w := 3; map_h := 3; blobs := [];
     val_area := Box 0 0 0 0; test_area := Box 0 0 0 0;
     labels := Some (repeat (repeat 0%Z 3) 3); frequencies := Some [0];
     radius_map := Some (repeat (repeat NaN 3) 3) |}.

Definition dataset_nan_mask : NewDataset :=
  {| map_w := 3; map_h := 3; blobs := [blob_full];
     val_area := Box 0 0 0 0; test_area := Box 0 0 0 0;
     labels := Some (repeat (repeat 1%Z 3) 3); frequencies := Some [1];
     radius_map := Some (repeat (repeat NaN 3) 3) |}.

(** A map of 100 x 100 pixels on which nothing is annotated, with "A" as
    its one target class, of frequency 0. *)
Definition dataset_blank_100 : NewDataset :=
  {| map_w := 100; map_h := 100; blobs := [];
     val_area := Box 0 0 0 0; test_area := Box 0 0 0 0;
     labels := Some (repeat (repeat 0%Z 100) 100);
     frequencies := Some [0];
     radius_map := None |}.

(** Random sources whose aspect ratio factor is always 1.  The first one
    places every area in the top left corner; the second one does so up
    to the first candidate of the second loop of [findAreas], and places
    the later candidates in the opposite corner. *)
Definition rnd_unit_low : Random :=
  {| randint_draw := fun n a b => a; uniform_draw := fun n a b => 1 |}.

Definition rnd_two_corners : Random :=
  {| randint_draw := fun n a b => if (n <? 1503)%nat then a else b;
     uniform_draw := fun n a b => 1 |}.

(** The candidate that the second loop of [findAreas] appends on the blank
    map when [m] draws were made before the turn. *)
Definition blank_candidate (rnd : Random) (m : nat) : candidate :=
  (Box (randint_draw rnd (S (S m)) 0 61) (randint_draw rnd (S m) 0 61) 38%Z 38%Z,
   [Finite 0], Finite 0).

(** The two areas of 38 x 38 pixels in opposite corners of the blank map. *)
Definition area_top_left : box Z := Box 0%Z 0%Z 38%Z 38%Z.
Definition area_bottom_right : box Z := Box 61%Z 61%Z 38%Z 38%Z.


(** A map of 100 x 100 pixels with three blobs of the one target class
    "A", of 2, 4 and 6 pixels.  The label raster holds the label 1 on the
    pixels of the three blobs and 0 elsewhere, and the frequency of "A" is
    that of its 12 pixels. *)
Definition blob_2px : Blob :=
  {| class_name := "A"; bbox := Box 25%Z 25%Z 2%Z 1%Z; area := 2;
     centroid := (26, 25)%Z; mask := [[1; 1]]%Z |}.

Definition blob_4px : Blob :=
  {| class_name := "A"; bbox := Box 30%Z 30%Z 2%Z 2%Z; area := 4;
     centroid := (31, 31)%Z; mask := [[1; 1]; [1; 1]]%Z |}.

Definition blob_6px : Blob :=
  {| class_name := "A"; bbox := Box 45%Z 45%Z 3%Z 2%Z; area := 6;
     centroid := (46, 46)%Z; mask := [[1; 1; 1]; [1; 1; 1]]%Z |}.

Definition in_bbox (blob : Blob) (r c : Z) : bool :=
  ((top (bbox blob) <=? r) && (r <? top (bbox blob) + height (bbox blob))
   && (left (bbox blob) <=? c) && (c <? left (bbox blob) + width (bbox blob)))%Z.

Definition labels_three_blobs : ndarray Z :=
  map (fun r =>
         map (fun c => if in_bbox blob_2px r c || in_bbox blob_4px r c
                          || in_bbox blob_6px r c
                       then 1%Z else 0%Z)
             (range 100))
      (range 100).

Definition dataset_three_blobs : NewDataset :=
  {| map_w := 100; map_h := 100; blobs := [blob_2px; blob_4px; blob_6px];
     val_area := Box 0 0 0 0; test_area := Box 0 0 0 0;
     labels := Some labels_three_blobs;
     frequencies := Some [12 / 10000];
     radius_map := None |}.

(** The PSCV of the areas 2, 4 and 6. *)
Definition pscv_2_4_6 : R := 100 * sqrt (8 / 3) / 4.

(** Two more areas of 38 x 38 pixels on the diagonal of the map: the first
    holds the three blobs, the second the blob of 6 pixels only;
    [area_top_left] holds the blobs of 2 and 4 pixels, and
    [area_bottom_right] holds none. *)
Definition area_centre : box Z := Box 20%Z 20%Z 38%Z 38%Z.
Definition area_lower : box Z := Box 39%Z 39%Z 38%Z 38%Z.

(** Random sources whose aspect ratio factor is always 1 and whose areas
    lie on the diagonal of the map.  With the first one, the first loop of
    [findAreas] draws [area_top_left] once and then [area_lower]; the
    second loop draws [area_centre], [area_lower], [area_bottom_right] and
    then [area_lower] again for the rest.  With the second one, the first
    loop draws [area_centre] once and then [area_bottom_right], and so
    does the second loop. *)
Definition rnd_diagonal : Random :=
  {| randint_draw := fun n a b =>
       if (n <? 3)%nat then 0%Z
       else if ((1500 <=? n) && (n <? 1503))%nat then 20%Z
       else if ((1506 <=? n) && (n <? 1509))%nat then 61%Z
       else 39%Z;
     uniform_draw := fun n a b => 1 |}.

Definition rnd_centre_first : Random :=
  {| randint_draw := fun n a b =>
       if ((n <? 3) || ((1500 <=? n) && (n <? 1503)))%nat then 20%Z else 61%Z;
     uniform_draw := fun n a b => 1 |}.

(** The metrics of the whole map of the three blobs. *)
Definition three_blobs_landscape : metrics :=
  ([3%nat], [12 / 10000], [pscv_2_4_6]).

(** The bounds that the first loop of [findAreas] leaves with
    [rnd_diagonal], and the three kinds of candidates of its second loop. *)
Definition diagonal_bounds : Bounds :=
  {| sn_min := [55 / 3]; sn_max := [155 / 3];
     sc_min := [(6 / 1444 - 12 / 10000) * 100];
     sc_max := [(6 / 1444 - 12 / 10000) * 100];
     sP_min := [pscv_2_4_6 - 100 / 3]; sP_max := [pscv_2_4_6] |}.

Definition candidate_plus : candidate := (area_centre, [PosInf], PosInf).
Definition candidate_nan : candidate := (area_lower, [NaN], NaN).
Definition candidate_minus : candidate := (area_bottom_right, [NegInf], NegInf).

(** The bounds that the first loop leaves with [rnd_centre_first], and the
    two kinds of candidates of its second loop. *)
Definition centre_first_bounds : Bounds :=
  {| sn_min := [15]; sn_max := [85];
     sc_min := [12 / 100]; sc_max := [(12 / 1444 - 12 / 10000) * 100];
     sP_min := [0]; sP_max := [pscv_2_4_6] |}.

Definition candidate_centre : candidate :=
  (area_centre, [Finite (2 / 3)], Finite (2 / 3)).
Definition candidate_bottom_right : candidate :=
  (area_bottom_right, [Finite (1 / 3)], Finite (1 / 3)).
(** * Properties *)

(** ** Comparisons *)

Lemma Rltb_true (x y : R) : Rltb x y = true <-> x < y.
Proof. unfold Rltb. destruct (Rlt_dec x y); split; intros; auto; discriminate. Qed.

Lemma Rltb_false (x y : R) : Rltb x y = false <-> y <= x.
Proof.
  unfold Rltb. destruct (Rlt_dec x y); split; intros; auto; try discriminate; lra.
Qed.

Lemma Rgeb_true (x y : R) : Rgeb x y = true <-> y <= x.
Proof.
  unfold Rgeb. destruct (Rge_dec x y); split; intros; auto; try discriminate; lra.
Qed.

Lemma Rgeb_false (x y : R) : Rgeb x y = false <-> x < y.
Proof.
  unfold Rgeb. destruct (Rge_dec x y); split; intros; auto; try discriminate; lra.
Qed.

Lemma Req_b_true (x y : R) : Req_b x y = true <-> x = y.
Proof.
  unfold Req_b. destruct (Req_dec_T x y); split; intros; auto;
    try discriminate; try contradiction.
Qed.

Lemma Req_b_false (x y : R) : Req_b x y = false <-> x <> y.
Proof.
  unfold Req_b. destruct (Req_dec_T x y); split; intros; auto;
    try discriminate; try contradiction.
Qed.

(** ** Geometry *)

Lemma isFullyInsideBBox_true (inner outer : box R) :
  isFullyInsideBBox inner outer = true <->
  top inner >= top outer /\ left inner >= left outer /\
  top inner + height inner < top outer + height outer /\
  left inner + width inner < left outer + width outer.
Proof.
  unfold isFullyInsideBBox; cbv zeta.
  destruct (Rgeb (top inner) (top outer)) eqn:E1;
  destruct (Rgeb (left inner) (left outer)) eqn:E2;
  destruct (Rltb (top inner + height inner) (top outer + height outer)) eqn:E3;
  destruct (Rltb (left inner + width inner) (left outer + width outer)) eqn:E4;
  simpl;
  repeat match goal with
         | H : Rgeb _ _ = true |- _ => apply Rgeb_true in H
         | H : Rgeb _ _ = false |- _ => apply Rgeb_false in H
         | H : Rltb _ _ = true |- _ => apply Rltb_true in H
         | H : Rltb _ _ = false |- _ => apply Rltb_false in H
         end;
  split; intros H; try discriminate; try reflexivity;
  try (repeat split; lra); destruct H as (? & ? & ? & ?); lra.
Qed.

(** Any box that starts no later and ends strictly later on both axes
    contains the inner one. *)
Lemma isFullyInsideBBox_grown (inner outer : box R) :
  top outer <= top inner -> left outer <= left inner ->
  top inner + height inner < top outer + height outer ->
  left inner + width inner < left outer + width outer ->
  isFullyInsideBBox inner outer = true.
Proof. intros; apply isFullyInsideBBox_true; repeat split; lra. Qed.

(** C9.  [isFullyInsideBBox] is the strict containment test of its four
    comparisons; no box is fully inside itself, and every box is fully
    inside its expansion by a positive margin. *)
Theorem isFullyInsideBBox_strict_containment (inner outer A : box R) :
  (isFullyInsideBBox inner outer = true <->
   top inner >= top outer /\ left inner >= left outer /\
   top inner + height inner < top outer + height outer /\
   left inner + width inner < left outer + width outer)
  /\ isFullyInsideBBox A A = false
  /\ (forall eps : R, 0 < eps -> isFullyInsideBBox A (expand A eps) = true).
Proof.
  split; [apply isFullyInsideBBox_true|split].
  - destruct (isFullyInsideBBox A A) eqn:E; [|reflexivity].
    apply isFullyInsideBBox_true in E. lra.
  - intros eps Heps. apply isFullyInsideBBox_grown; simpl; lra.
Qed.

(** ** The cleaning pass *)

(** Evaluation of comparisons, [Rmax] and [Rmin] on numerals. *)
Ltac r_decide :=
  unfold Rgtb;
  repeat match goal with
         | |- context [Rmin ?a ?b] =>
             first [rewrite (Rmin_left a b) by lra | rewrite (Rmin_right a b) by lra]
         | |- context [Rmax ?a ?b] =>
             first [rewrite (Rmax_left a b) by lra | rewrite (Rmax_right a b) by lra]
         | |- context [Rltb ?a ?b] =>
             first [rewrite (proj2 (Rltb_true a b)) by lra
                   | rewrite (proj2 (Rltb_false a b)) by lra]
         | |- context [Rgeb ?a ?b] =>
             first [rewrite (proj2 (Rgeb_true a b)) by lra
                   | rewrite (proj2 (Rgeb_false a b)) by lra]
         | |- context [Req_b ?a ?b] =>
             first [rewrite (proj2 (Req_b_true a b)) by lra
                   | rewrite (proj2 (Req_b_false a b)) by lra]
         end;
  cbn [andb orb negb]; try reflexivity; try lra.

Lemma cleanTrainingTiles_loop (self : NewDataset) (tiles acc : list (R * R)) :
  fold_left
    (fun cleaned_tiles tile =>
       let bbox_ := padded_box tile in
       let areaV := bbox_intersection bbox_ (val_area self) in
       let areaT := bbox_intersection bbox_ (test_area self) in
       if Rltb areaV 10 && Rltb areaT 10
       then cleaned_tiles ++ [tile]
       else cleaned_tiles)
    tiles acc
  = acc ++ filter (tile_is_clear self) tiles.
Proof.
  revert acc; induction tiles as [|t tiles IH]; intros acc; simpl.
  - now rewrite app_nil_r.
  - rewrite IH. unfold tile_is_clear at 2.
    destruct (Rltb _ 10 && Rltb _ 10); [now rewrite <- app_assoc|reflexivity].
Qed.

Lemma cleanTrainingTiles_filter (self : NewDataset) (tiles : list (R * R)) :
  cleanTrainingTiles self tiles = filter (tile_is_clear self) tiles.
Proof. unfold cleanTrainingTiles. now rewrite cleanTrainingTiles_loop. Qed.

Lemma bbox_intersection_nonneg (b1 b2 : box R) : 0 <= bbox_intersection b1 b2.
Proof.
  unfold bbox_intersection; cbv zeta.
  match goal with |- context [if ?c then _ else _] => destruct c eqn:E end;
    [lra|].
  apply orb_false_iff in E. destruct E as [E1 E2].
  apply Rltb_false in E1, E2. apply Rmult_le_pos; lra.
Qed.

(** C8, as the code has it.  The cleaning pass keeps, in their order, the
    tiles whose padded box meets the validation region and the test region
    by less than 10 px² each; a tile is dropped as soon as one of the two
    intersections reaches 10 px², and a tile with no overlap is kept. *)
Theorem cleanTrainingTiles_keeps_below_threshold
  (self : NewDataset) (training_tiles : list (R * R)) :
  cleanTrainingTiles self training_tiles
  = filter (fun tile =>
              Rltb (bbox_intersection (padded_box tile) (val_area self)) 10
              && Rltb (bbox_intersection (padded_box tile) (test_area self)) 10)
           training_tiles
  /\ (forall tile,
        In tile (cleanTrainingTiles self training_tiles) <->
        In tile training_tiles
        /\ bbox_intersection (padded_box tile) (val_area self) < 10
        /\ bbox_intersection (padded_box tile) (test_area self) < 10)
  /\ (forall tile,
        In tile training_tiles ->
        bbox_intersection (padded_box tile) (val_area self) = 0 ->
        bbox_intersection (padded_box tile) (test_area self) = 0 ->
        In tile (cleanTrainingTiles self training_tiles)).
Proof.
  assert (Hin : forall tile,
             In tile (cleanTrainingTiles self training_tiles) <->
             In tile training_tiles
             /\ bbox_intersection (padded_box tile) (val_area self) < 10
             /\ bbox_intersection (padded_box tile) (test_area self) < 10).
  { intros tile. rewrite cleanTrainingTiles_filter, filter_In.
    unfold tile_is_clear. rewrite andb_true_iff, !Rltb_true. tauto. }
  split; [apply cleanTrainingTiles_filter|split; [exact Hin|]].
  intros tile Ht HV HT. apply Hin. rewrite HV, HT. repeat split; auto; lra.
Qed.

(** C8, as the claim states it, fails on a tile whose padded box meets the
    validation region by exactly 10 px²: the overlaps are not more than
    10 px², yet the tile is dropped. *)
Lemma cleanTrainingTiles_drops_at_exactly_10 :
  bbox_intersection (padded_box (361, 100)) (val_area dataset_val_100x20) = 10
  /\ bbox_intersection (padded_box (361, 100)) (test_area dataset_val_100x20) = 0
  /\ In (361, 100) [(361, 100)]
  /\ cleanTrainingTiles dataset_val_100x20 [(361, 100)] = [].
Proof.
  assert (HV : bbox_intersection (padded_box (361, 100))
                 (val_area dataset_val_100x20) = 10).
  { unfold bbox_intersection, padded_box, crop_size; simpl. r_decide. }
  assert (HT : bbox_intersection (padded_box (361, 100))
                 (test_area dataset_val_100x20) = 0).
  { unfold bbox_intersection, padded_box, crop_size; simpl. r_decide. }
  repeat split; auto; [now left|].
  rewrite cleanTrainingTiles_filter. simpl. unfold tile_is_clear.
  rewrite HV, HT. r_decide.
Qed.

(** ** Uniform sampling *)

Lemma py_div_ok (x y : R) : y <> 0 -> py_div x y = Ok (x / y).
Proof. intros H. unfold py_div. now apply Req_b_false in H; rewrite H. Qed.

Lemma py_div_zero (x : R) : py_div x 0 = Raise ZeroDivisionError.
Proof. unfold py_div. now rewrite (proj2 (Req_b_true 0 0) eq_refl). Qed.

Lemma py_int_nonneg (x : R) : 0 <= x -> py_int x = Zfloor x.
Proof. intros H. unfold py_int. now apply Rgeb_true in H; rewrite H. Qed.

Lemma py_int_neg (x : R) : x < 0 -> py_int x = Zceil x.
Proof. intros H. unfold py_int. now apply Rgeb_false in H; rewrite H. Qed.

Lemma py_int_IZR (z : Z) : py_int (IZR z) = z.
Proof.
  unfold py_int. destruct (Rgeb (IZR z) 0).
  - apply ZfloorZ.
  - unfold Zceil. rewrite <- opp_IZR, ZfloorZ. lia.
Qed.

Lemma Zfloor_nonneg (x : R) : 0 <= x -> (0 <= Zfloor x)%Z.
Proof. intros H. now apply Zfloor_lub. Qed.

Lemma length_range (n : Z) : length (range n) = Z.to_nat n.
Proof. unfold range. now rewrite length_map, length_seq. Qed.

Lemma nth_range (n : Z) (i : nat) (d : Z) :
  (i < Z.to_nat n)%nat -> nth i (range n) d = Z.of_nat i.
Proof.
  intros H. unfold range.
  rewrite nth_indep with (d' := Z.of_nat 0) by now rewrite length_map, length_seq.
  rewrite map_nth, seq_nth by assumption. reflexivity.
Qed.

Lemma nth_map_in {A B : Type} (f : A -> B) (l : list A) (i : nat) (db : B) (da : A) :
  (i < length l)%nat -> nth i (map f l) db = f (nth i l da).
Proof.
  intros H. rewrite nth_indep with (d' := f da) by now rewrite length_map.
  apply map_nth.
Qed.

Section FlatMapGrid.
Context {A B : Type} (g : A -> list B) (n : nat).
Hypothesis g_length : forall a, length (g a) = n.

Lemma length_flat_map_grid (l : list A) :
  length (flat_map g l) = (length l * n)%nat.
Proof.
  induction l as [|a l IH]; simpl; [reflexivity|].
  now rewrite length_app, g_length, IH.
Qed.

Lemma nth_flat_map_grid (l : list A) (i j : nat) (da : A) (db : B) :
  (i < length l)%nat -> (j < n)%nat ->
  nth (i * n + j) (flat_map g l) db = nth j (g (nth i l da)) db.
Proof.
  revert i; induction l as [|a l IH]; intros i Hi Hj; simpl in *; [lia|].
  destruct i as [|i]; simpl.
  - rewrite app_nth1 by (rewrite g_length; lia). reflexivity.
  - rewrite app_nth2 by (rewrite g_length; lia).
    rewrite g_length.
    replace (n + i * n + j - n)%nat with (i * n + j)%nat by lia.
    apply IH; lia.
Qed.
End FlatMapGrid.

(** C7, as the code has it.  For a step above zero and a region of
    non-negative extent,
    [sampleAreaUniformly] returns the [rows * cols] centres of a regular
    grid, [cols = 1 + floor (width / step)] and [rows = 1 + floor (height /
    step)], row by row; the grid starts at the region's corner moved by half
    of the (truncated) slack [width - cols * step] and by
    [int ((tile_size - crop_size) / 2)], and a centre lies [tile_size / 2]
    further.  The result is a function of the three arguments only. *)
Theorem sampleAreaUniformly_grid (area_ : box R) (tile_size step : R) :
  0 < step -> 0 <= width area_ -> 0 <= height area_ ->
  let cols := (1 + Zfloor (width area_ / step))%Z in
  let rows := (1 + Zfloor (height area_ / step))%Z in
  let marginW := py_int ((width area_ - IZR cols * step) / 2) in
  let marginH := py_int ((height area_ - IZR rows * step) / 2) in
  let offset := py_int ((tile_size - crop_size) / 2) in
  exists samples : list (R * R),
    sampleAreaUniformly area_ tile_size step = Ok samples
    /\ (1 <= rows)%Z /\ (1 <= cols)%Z
    /\ length samples = (Z.to_nat rows * Z.to_nat cols)%nat
    /\ forall row col : nat,
         (row < Z.to_nat rows)%nat -> (col < Z.to_nat cols)%nat ->
         nth (row * Z.to_nat cols + col) samples (0, 0)
         = (left area_ + IZR marginW - IZR offset
              + IZR (Z.of_nat col) * step + tile_size / 2,
            top area_ + IZR marginH - IZR offset
              + IZR (Z.of_nat row) * step + tile_size / 2).
Proof.
  intros Hstep HW HH cols rows marginW marginH offset.
  assert (HqW : 0 <= width area_ / step).
  { apply Rmult_le_pos; [lra|]. left. now apply Rinv_0_lt_compat. }
  assert (HqH : 0 <= height area_ / step).
  { apply Rmult_le_pos; [lra|]. left. now apply Rinv_0_lt_compat. }
  pose proof (Zfloor_nonneg _ HqW) as HfW.
  pose proof (Zfloor_nonneg _ HqH) as HfH.
  unfold sampleAreaUniformly.
  rewrite !py_div_ok by lra. cbn [bind].
  rewrite (py_int_nonneg _ HqW), (py_int_nonneg _ HqH).
  fold cols rows. fold marginW marginH offset.
  eexists. split; [reflexivity|].
  split; [unfold rows; lia|]. split; [unfold cols; lia|].
  set (g := fun row : Z => map _ (range cols)).
  assert (Hg : forall row, length (g row) = Z.to_nat cols).
  { intros row. unfold g. now rewrite length_map, length_range. }
  split.
  - rewrite (length_flat_map_grid g _ Hg), length_range. reflexivity.
  - intros row col Hrow Hcol.
    rewrite (nth_flat_map_grid g _ Hg _ row col 0%Z);
      [|rewrite length_range; assumption|assumption].
    rewrite nth_range by assumption. unfold g.
    rewrite (nth_map_in _ _ _ _ 0%Z) by (rewrite length_range; assumption).
    now rewrite nth_range by assumption.
Qed.

Lemma sampleAreaUniformly_grid_witness :
  0 < 256 /\ 0 <= 1000 /\ 0 <= 500
  /\ exists samples : list (R * R),
       sampleAreaUniformly (Box 0 0 1000 500) 1024 256 = Ok samples
       /\ length samples = 8%nat
       /\ nth 5 samples (0, 0) = (501, 507).
Proof.
  assert (Hc : Zfloor (1000 / 256) = 3%Z) by (apply Zfloor_eq; lra).
  assert (Hr : Zfloor (500 / 256) = 1%Z) by (apply Zfloor_eq; lra).
  assert (HmW : py_int ((1000 - 4 * 256) / 2) = (-12)%Z).
  { rewrite py_int_neg by lra. apply Zceil_eq; lra. }
  assert (HmH : py_int ((500 - 2 * 256) / 2) = (-6)%Z).
  { rewrite py_int_neg by lra. apply Zceil_eq; lra. }
  assert (Ho : py_int ((1024 - crop_size) / 2) = 255%Z).
  { unfold crop_size. rewrite py_int_nonneg by lra. apply Zfloor_eq; lra. }
  split; [lra|split; [lra|split; [lra|]]].
  destruct (sampleAreaUniformly_grid (Box 0 0 1000 500) 1024 256
              ltac:(lra) ltac:(cbn [width]; lra) ltac:(cbn [height]; lra))
    as (samples & Hs & _ & _ & Hlen & Hnth).
  exists samples. split; [exact Hs|].
  cbn [width height top left] in Hlen, Hnth.
  rewrite Hc, Hr in Hlen. split; [exact Hlen|].
  specialize (Hnth 1%nat 1%nat). rewrite Hc, Hr in Hnth.
  change (1 + 3)%Z with 4%Z in Hnth. change (1 + 1)%Z with 2%Z in Hnth.
  rewrite HmW, HmH, Ho in Hnth.
  change (1 * Z.to_nat 4 + 1)%nat with 5%nat in Hnth.
  change (IZR (Z.of_nat 1)) with 1 in Hnth.
  rewrite Hnth by (cbv; lia). f_equal; lra.
Defined.

(** C7, as the claim states it, fails: on a region of 1000 x 500 with
    tiles of 1024 every 256, the tile of row 1 and column 1 has its centre
    at (501, 507), because the offset is [int(511 / 2) = 255].  With the
    offset [(tile_size - crop_size) / 2 = 255.5] of the claim the centre
    would be (500.5, 506.5). *)
Lemma sampleAreaUniformly_truncated_offset :
  exists samples : list (R * R),
    sampleAreaUniformly (Box 0 0 1000 500) 1024 256 = Ok samples
    /\ nth 5 samples (0, 0) = (501, 507)
    /\ spec_uniform_centre (Box 0 0 1000 500) 1024 256 1 1 = (1001 / 2, 1013 / 2)
    /\ fst (nth 5 samples (0, 0))
       - fst (spec_uniform_centre (Box 0 0 1000 500) 1024 256 1 1) = 1 / 2.
Proof.
  assert (Hc : Zfloor (1000 / 256) = 3%Z) by (apply Zfloor_eq; lra).
  assert (Hr : Zfloor (500 / 256) = 1%Z) by (apply Zfloor_eq; lra).
  assert (HmW : py_int ((1000 - 4 * 256) / 2) = (-12)%Z).
  { rewrite py_int_neg by lra. apply Zceil_eq; lra. }
  assert (HmH : py_int ((500 - 2 * 256) / 2) = (-6)%Z).
  { rewrite py_int_neg by lra. apply Zceil_eq; lra. }
  assert (Ho : py_int ((1024 - crop_size) / 2) = 255%Z).
  { unfold crop_size. rewrite py_int_nonneg by lra. apply Zfloor_eq; lra. }
  assert (Hspec : spec_uniform_centre (Box 0 0 1000 500) 1024 256 1 1
                  = (1001 / 2, 1013 / 2)).
  { unfold spec_uniform_centre, crop_size. cbn [width height top left].
    rewrite Hc, Hr. change (IZR (1 + 3)) with 4. change (IZR (1 + 1)) with 2.
    f_equal; lra. }
  assert (Hrun : sampleAreaUniformly (Box 0 0 1000 500) 1024 256
                 = Ok (flat_map
                         (fun row =>
                            map (fun col =>
                                   (0 + IZR (-12) - IZR 255 + IZR col * 256 + 1024 / 2,
                                    0 + IZR (-6) - IZR 255 + IZR row * 256 + 1024 / 2))
                                [0; 1; 2; 3]%Z)
                         [0; 1]%Z)).
  { unfold sampleAreaUniformly. cbn [width height top left].
    rewrite !py_div_ok by lra. cbn [bind].
    rewrite (py_int_nonneg (1000 / 256)), (py_int_nonneg (500 / 256)) by lra.
    rewrite Hc, Hr. change (IZR (1 + 3)) with 4. change (IZR (1 + 1)) with 2.
    rewrite HmW, HmH, Ho. reflexivity. }
  eexists. split; [exact Hrun|].
  cbn [flat_map map app nth fst]. rewrite Hspec. cbn [fst].
  split; [f_equal; lra|]. split; [reflexivity|lra].
Qed.

(** ** The radius values *)

Lemma fold_left_Rmin_le (l : list R) (x : R) :
  fold_left Rmin l x <= x /\ forall y, In y l -> fold_left Rmin l x <= y.
Proof.
  revert x; induction l as [|a l IH]; intros x; simpl.
  - split; [lra|intros y []].
  - destruct (IH (Rmin x a)) as [H1 H2].
    pose proof (Rmin_l x a). pose proof (Rmin_r x a).
    split; [lra|]. intros y [<-|Hy]; [lra|auto].
Qed.

Lemma fold_left_Rmax_ge (l : list R) (x : R) :
  x <= fold_left Rmax l x /\ forall y, In y l -> y <= fold_left Rmax l x.
Proof.
  revert x; induction l as [|a l IH]; intros x; simpl.
  - split; [lra|intros y []].
  - destruct (IH (Rmax x a)) as [H1 H2].
    pose proof (Rmax_l x a). pose proof (Rmax_r x a).
    split; [lra|]. intros y [<-|Hy]; [lra|auto].
Qed.

Lemma np_min_le (l : list R) (m y : R) : np_min l = Ok m -> In y l -> m <= y.
Proof.
  destruct l as [|x l]; simpl; [discriminate|].
  intros [= <-] Hy. destruct (fold_left_Rmin_le l x) as [H1 H2].
  destruct Hy as [<-|Hy]; [exact H1|now apply H2].
Qed.

Lemma np_max_ge (l : list R) (m y : R) : np_max l = Ok m -> In y l -> y <= m.
Proof.
  destruct l as [|x l]; simpl; [discriminate|].
  intros [= <-] Hy. destruct (fold_left_Rmax_ge l x) as [H1 H2].
  destruct Hy as [<-|Hy]; [exact H1|now apply H2].
Qed.

Lemma np_div_ok (x y : R) : y <> 0 -> np_div x y = Ok (x / y).
Proof. intros H. unfold np_div. now apply Req_b_false in H; rewrite H. Qed.

Lemma np_div_zero (x : R) : np_div x 0 = NotFinite.
Proof. unfold np_div. now rewrite (proj2 (Req_b_true 0 0) eq_refl). Qed.

Lemma mapM_np_div_ok (l : list R) (d : R) :
  d <> 0 -> mapM (fun r => np_div r d) l = Ok (map (fun r => r / d) l).
Proof.
  intros Hd; induction l as [|a l IH]; simpl; [reflexivity|].
  now rewrite np_div_ok, IH.
Qed.

(** The division of [compute_radius_map] is by zero exactly when the
    largest and the smallest raw value coincide, and then nothing finite
    comes out of it. *)
Lemma radius_values_degenerate (freqs : list R) (radius_min radius_max m : R) :
  np_min (py_sum freqs :: freqs) = Ok m ->
  np_max (py_sum freqs :: freqs) = Ok m ->
  radius_values freqs radius_min radius_max = NotFinite.
Proof.
  intros Hmin Hmax. unfold radius_values. rewrite Hmin, Hmax. cbn [bind].
  replace (m - m) with 0 by lra. cbn [map mapM]. now rewrite np_div_zero.
Qed.

(** With a single target class the background value, the sum of the
    frequencies, is that class's frequency: the two raw values are equal. *)
Lemma radius_values_single_class (f radius_min radius_max : R) :
  radius_values [f] radius_min radius_max = NotFinite.
Proof.
  apply radius_values_degenerate with (m := 0 + f); simpl; f_equal.
  - unfold py_sum; simpl. unfold Rmin. destruct (Rle_dec _ _); lra.
  - unfold py_sum; simpl. unfold Rmax. destruct (Rle_dec _ _); lra.
Qed.

(** C4, as the code has it.  When the raw values (the sum of the
    frequencies for the background, then the frequencies) are not all
    equal, each is min-max normalized into [0,1] and rescaled:
    the value of index [i] is
    [(raw i - f_min) / (f_max - f_min) * (radius_max - radius_min) + radius_min],
    which lies between [radius_min] and [radius_max]. *)
Theorem radius_values_min_max_rescaled
  (freqs : list R) (radius_min radius_max f_min f_max : R) :
  np_min (py_sum freqs :: freqs) = Ok f_min ->
  np_max (py_sum freqs :: freqs) = Ok f_max ->
  f_max <> f_min ->
  exists radius : list R,
    radius_values freqs radius_min radius_max = Ok radius
    /\ length radius = S (length freqs)
    /\ forall i : nat,
         (i <= length freqs)%nat ->
         let raw := nth i (py_sum freqs :: freqs) 0 in
         let normalized := (raw - f_min) / (f_max - f_min) in
         0 <= normalized <= 1
         /\ nth i radius 0 = normalized * (radius_max - radius_min) + radius_min
         /\ (radius_min <= radius_max ->
             radius_min <= nth i radius 0 <= radius_max).
Proof.
  intros Hmin Hmax Hne.
  set (raws := py_sum freqs :: freqs) in *.
  unfold radius_values. fold raws. rewrite Hmin, Hmax. cbn [bind].
  rewrite mapM_np_div_ok by lra. cbn [bind].
  eexists; split; [reflexivity|].
  split; [now rewrite !length_map|].
  intros i Hi.
  set (raw := nth i raws 0). set (normalized := (raw - f_min) / (f_max - f_min)).
  assert (Hlen : (i < length raws)%nat) by (unfold raws; simpl; lia).
  assert (Hin : In raw raws) by (apply nth_In; exact Hlen).
  pose proof (np_min_le _ _ _ Hmin Hin) as Hlo.
  pose proof (np_max_ge _ _ _ Hmax Hin) as Hhi.
  assert (Hpos : 0 < f_max - f_min) by lra.
  assert (Hnorm : 0 <= normalized <= 1).
  { unfold normalized. split.
    - apply Rmult_le_pos; [lra|]. left; now apply Rinv_0_lt_compat.
    - apply Rmult_le_reg_r with (r := f_max - f_min); [exact Hpos|].
      unfold Rdiv. rewrite Rmult_assoc, Rinv_l by lra. lra. }
  assert (Hval : nth i (map (fun r => r * (radius_max - radius_min) + radius_min)
                          (map (fun r => r / (f_max - f_min))
                             (map (fun r => r - f_min) raws))) 0
                 = normalized * (radius_max - radius_min) + radius_min).
  { rewrite !map_map.
    rewrite (nth_map_in _ _ _ _ 0) by exact Hlen. reflexivity. }
  split; [exact Hnorm|]. split; [exact Hval|].
  intros Hr. rewrite Hval. nra.
Qed.

Lemma radius_values_min_max_rescaled_witness :
  np_min (py_sum [1 / 4; 3 / 4] :: [1 / 4; 3 / 4]) = Ok (1 / 4)
  /\ np_max (py_sum [1 / 4; 3 / 4] :: [1 / 4; 3 / 4]) = Ok 1
  /\ 1 <> 1 / 4
  /\ exists radius : list R,
       radius_values [1 / 4; 3 / 4] 10 100 = Ok radius
       /\ length radius = 3%nat
       /\ nth 0 radius 0 = 100 /\ nth 1 radius 0 = 10 /\ nth 2 radius 0 = 70.
Proof.
  assert (Hmin : np_min (py_sum [1 / 4; 3 / 4] :: [1 / 4; 3 / 4]) = Ok (1 / 4)).
  { unfold py_sum; simpl; f_equal. r_decide. }
  assert (Hmax : np_max (py_sum [1 / 4; 3 / 4] :: [1 / 4; 3 / 4]) = Ok 1).
  { unfold py_sum; simpl; f_equal. r_decide. }
  assert (Hne : 1 <> 1 / 4) by lra.
  split; [exact Hmin|split; [exact Hmax|split; [exact Hne|]]].
  destruct (radius_values_min_max_rescaled [1 / 4; 3 / 4] 10 100 (1 / 4) 1
              Hmin Hmax Hne) as (radius & Hr & Hlen & Hnth).
  exists radius. split; [exact Hr|]. split; [exact Hlen|].
  pose proof (Hnth 0%nat ltac:(simpl; lia)) as (_ & H0 & _).
  pose proof (Hnth 1%nat ltac:(simpl; lia)) as (_ & H1 & _).
  pose proof (Hnth 2%nat ltac:(simpl; lia)) as (_ & H2 & _).
  unfold py_sum in H0; simpl in H0, H1, H2.
  rewrite H0, H1, H2. repeat split; lra.
Defined.

(** C4, as the claim states it, fails: with one target class of frequency
    1/2 the two raw values are equal, and the code divides by zero instead
    of producing the midpoint radius 55 of [10, 100]. *)
Lemma radius_values_no_midpoint_guard :
  np_min (py_sum [1 / 2] :: [1 / 2]) = np_max (py_sum [1 / 2] :: [1 / 2])
  /\ radius_values [1 / 2] 10 100 = NotFinite
  /\ radius_values [1 / 2] 10 100
     <> Ok [1 / 2 * (100 - 10) + 10; 1 / 2 * (100 - 10) + 10].
Proof.
  assert (H : radius_values [1 / 2] 10 100 = NotFinite)
    by apply radius_values_single_class.
  split; [|split; [exact H|rewrite H; discriminate]].
  unfold py_sum; simpl; f_equal. r_decide.
Qed.

(** The array as numpy computes it holds the numbers of [radius_values]
    where the division is not by zero, and nan in every entry where it
    is: the raw values are then all equal, and every entry is 0 / 0. *)
Lemma radius_array_numbers (freqs : list R) (radius_min radius_max : R)
  (radius : list R) :
  radius_values freqs radius_min radius_max = Ok radius ->
  radius_array freqs radius_min radius_max = Ok (map Finite radius).
Proof.
  unfold radius_values, radius_array. cbn [np_min np_max bind].
  set (f_min := fold_left Rmin freqs (py_sum freqs)).
  set (f_max := fold_left Rmax freqs (py_sum freqs)).
  destruct (Req_dec (f_max - f_min) 0) as [Hz|Hnz].
  - rewrite Hz. cbn [map mapM]. now rewrite np_div_zero.
  - rewrite mapM_np_div_ok by exact Hnz. cbn [bind]. intros H.
    match type of H with Ok ?l = _ => assert (E : radius = l) by congruence end.
    rewrite E. f_equal. rewrite !map_map. apply map_ext. intros r.
    unfold np_fdiv. rewrite (proj2 (Req_b_false _ 0) Hnz). reflexivity.
Qed.

Lemma radius_array_nan (freqs : list R) (radius_min radius_max : R) :
  radius_values freqs radius_min radius_max = NotFinite ->
  radius_array freqs radius_min radius_max
  = Ok (map (fun _ => NaN) (py_sum freqs :: freqs)).
Proof.
  unfold radius_values, radius_array. cbn [np_min np_max bind].
  set (f_min := fold_left Rmin freqs (py_sum freqs)).
  set (f_max := fold_left Rmax freqs (py_sum freqs)).
  destruct (Req_dec (f_max - f_min) 0) as [Hz|Hnz].
  - intros _. f_equal. rewrite !map_map. apply map_ext_in. intros r Hr.
    destruct (fold_left_Rmin_le freqs (py_sum freqs)) as [Hm1 Hm2].
    destruct (fold_left_Rmax_ge freqs (py_sum freqs)) as [HM1 HM2].
    fold f_min in Hm1, Hm2. fold f_max in HM1, HM2.
    assert (Hr0 : r - f_min = 0).
    { destruct Hr as [<-|Hr]; [lra|].
      pose proof (Hm2 r Hr). pose proof (HM2 r Hr). lra. }
    unfold np_fdiv. rewrite Hr0, Hz.
    rewrite (proj2 (Req_b_true 0 0) eq_refl).
    rewrite (proj2 (Rltb_false 0 0)) by lra. reflexivity.
  - rewrite mapM_np_div_ok by exact Hnz. discriminate.
Qed.

(** With one target class the map that [compute_radius_map] paints is nan
    at every pixel of a label raster that holds the labels 0 and 1. *)
Lemma radius_array_single_class (f radius_min radius_max : R) :
  radius_array [f] radius_min radius_max = Ok [NaN; NaN].
Proof.
  now rewrite (radius_array_nan _ _ _ (radius_values_single_class f _ _)).
Qed.

(** ** Sequencing *)

Lemma mapM_length {A B : Type} (f : A -> result B) (l : list A) (bs : list B) :
  mapM f l = Ok bs -> length bs = length l.
Proof.
  revert bs; induction l as [|a l IH]; simpl; intros bs H.
  - now injection H as <-.
  - destruct (f a) as [b| |]; try discriminate; cbn [bind] in H.
    destruct (mapM f l) as [bs'| |]; try discriminate; cbn [bind] in H.
    injection H as <-. simpl. now rewrite (IH bs').
Qed.

Lemma mapM_nth_error {A B : Type} (f : A -> result B) (l : list A) (bs : list B)
  (i : nat) (a : A) :
  mapM f l = Ok bs -> nth_error l i = Some a ->
  exists b, nth_error bs i = Some b /\ f a = Ok b.
Proof.
  revert bs i; induction l as [|x l IH]; simpl; intros bs i H Hi.
  - destruct i; discriminate.
  - destruct (f x) as [b| |] eqn:Ex; try discriminate; cbn [bind] in H.
    destruct (mapM f l) as [bs'| |]; try discriminate; cbn [bind] in H.
    injection H as <-. destruct i as [|i]; simpl in *.
    + injection Hi as <-. now exists b.
    + now apply IH.
Qed.

Lemma mapM_total {A B : Type} (f : A -> result B) (l : list A) :
  (forall a, In a l -> exists b, f a = Ok b) -> exists bs, mapM f l = Ok bs.
Proof.
  induction l as [|x l IH]; simpl; intros H.
  - now exists [].
  - destruct (H x (or_introl eq_refl)) as [b Hb].
    destruct IH as [bs Hbs]; [intros a Ha; apply H; now right|].
    exists (b :: bs). now rewrite Hb, Hbs.
Qed.

Lemma nth_error_combine_seq {A : Type} (l : list A) (k i : nat) (a : A) :
  nth_error l i = Some a ->
  nth_error (combine (seq k (length l)) l) i = Some ((k + i)%nat, a).
Proof.
  revert k i; induction l as [|x l IH]; intros k i H; simpl.
  - destruct i; discriminate.
  - destruct i as [|i]; simpl in *.
    + injection H as <-. now rewrite Nat.add_0_r.
    + rewrite (IH (S k) i H). f_equal. f_equal. lia.
Qed.

Lemma nth_error_enumerate {A : Type} (l : list A) (i : nat) (a : A) :
  nth_error l i = Some a -> nth_error (enumerate l) i = Some (i, a).
Proof. intros H. unfold enumerate. now rewrite (nth_error_combine_seq l 0 i a H). Qed.

Lemma length_enumerate {A : Type} (l : list A) : length (enumerate l) = length l.
Proof. unfold enumerate. rewrite length_combine, length_seq. lia. Qed.

Lemma In_enumerate {A : Type} (l : list A) (i : nat) (a : A) :
  In (i, a) (enumerate l) -> nth_error l i = Some a.
Proof.
  unfold enumerate. intros H.
  assert (G : forall k, In (i, a) (combine (seq k (length l)) l) ->
                        (k <= i)%nat /\ nth_error l (i - k) = Some a).
  { clear H. induction l as [|x l IH]; intros k H; simpl in *; [contradiction|].
    destruct H as [H|H].
    - injection H as <- <-. rewrite Nat.sub_diag. split; [lia|reflexivity].
    - destruct (IH (S k) H) as [Hk Hn]. split; [lia|].
      replace (i - k)%nat with (S (i - S k)) by lia. exact Hn. }
  destruct (G 0%nat H) as [_ Hn]. now rewrite Nat.sub_0_r in Hn.
Qed.

(** ** Mean and standard deviation *)

Lemma fold_left_Rplus (l : list R) (a : R) :
  fold_left Rplus l a = a + fold_right Rplus 0 l.
Proof.
  revert a; induction l as [|x l IH]; intros a; simpl; [lra|].
  rewrite IH. lra.
Qed.

Lemma py_sum_fold_right (l : list R) : py_sum l = fold_right Rplus 0 l.
Proof. unfold py_sum. rewrite fold_left_Rplus. lra. Qed.

Lemma np_std_population (l : list R) : np_std l = population_stddev l.
Proof.
  unfold np_std, population_stddev, np_mean; cbv zeta.
  rewrite !py_sum_fold_right, length_map. reflexivity.
Qed.

Lemma np_std_single (a : R) : np_std [a] = 0.
Proof.
  unfold np_std, np_mean, py_sum; simpl.
  replace ((0 + (a - (0 + a) / 1) * (a - (0 + a) / 1)) / 1) with 0 by (field; lra).
  apply sqrt_0.
Qed.

Lemma py_sum_positive (l : list R) :
  l <> [] -> (forall x, In x l -> 0 < x) -> 0 < py_sum l.
Proof.
  rewrite py_sum_fold_right.
  induction l as [|x l IH]; intros Hne Hpos; [congruence|]. simpl.
  assert (0 < x) by (apply Hpos; now left).
  destruct l as [|y l]; simpl in *; [lra|].
  assert (0 < y + fold_right Rplus 0 l).
  { apply IH; [discriminate|]. intros z Hz. apply Hpos. now right. }
  lra.
Qed.

Lemma np_mean_positive (l : list R) :
  l <> [] -> (forall x, In x l -> 0 < x) -> 0 < np_mean l.
Proof.
  intros Hne Hpos. unfold np_mean. apply Rmult_lt_0_compat.
  - now apply py_sum_positive.
  - apply Rinv_0_lt_compat. apply lt_0_INR. destruct l; [congruence|simpl; lia].
Qed.

Lemma spec_pscv_at_most_one (areas : list R) :
  (length areas <= 1)%nat -> spec_pscv areas = 0.
Proof.
  destruct areas as [|a [|b l]]; simpl; intros H; try lia.
  - reflexivity.
  - unfold spec_pscv. cbn [length Nat.ltb Nat.leb].
    rewrite <- np_std_population, np_std_single. unfold Rdiv. lra.
Qed.

(** ** Landscape metrics *)

Lemma checkBlobInside_total (area_ : box R) (blob : Blob) (threshold : R) :
  (width (bbox blob) * height (bbox blob) <> 0)%Z ->
  exists b, checkBlobInside area_ blob threshold = Ok b.
Proof.
  intros H. unfold checkBlobInside.
  rewrite py_div_ok by (apply not_0_IZR; exact H). cbn [bind].
  destruct (Rgtb _ _); eauto.
Qed.

Lemma areas_inside_total (area_ : box R) (class_name_ : string) (bl : list Blob) :
  (forall blob, In blob bl -> class_name blob = class_name_ ->
                (width (bbox blob) * height (bbox blob) <> 0)%Z /\ 0 < area blob) ->
  exists areas, areas_inside area_ class_name_ bl = Ok areas
                /\ forall a, In a areas -> 0 < a.
Proof.
  induction bl as [|blob bl IH]; intros H; simpl.
  - exists []. split; [reflexivity|intros a []].
  - destruct IH as (areas & Hareas & Hpos);
      [intros b Hb; apply H; now right|].
    destruct (String.eqb (class_name blob) class_name_) eqn:E.
    + apply String.eqb_eq in E.
      destruct (H blob (or_introl eq_refl) E) as [Hbox Harea].
      destruct (checkBlobInside_total area_ blob (3 / 4) Hbox) as [b Hb].
      rewrite Hb, Hareas. cbn [bind]. eexists; split; [reflexivity|].
      destruct b; [|exact Hpos]. intros a [<-|Ha]; auto.
    + now exists areas.
Qed.

Lemma frequency_at_total (self : NewDataset) (fs : list R) (i : nat) :
  frequencies self = Some fs -> (i < length fs)%nat ->
  exists f, frequency_at self i = Ok f.
Proof.
  intros Hfs Hi. unfold frequency_at. rewrite Hfs.
  destruct (nth_error fs i) eqn:E; [eauto|].
  apply nth_error_None in E. lia.
Qed.

Lemma counted_areas_ready (self : NewDataset) (area_ : box Z)
  (target_classes : list string) (i : nat) (class_name_ : string) :
  metrics_ready self area_ target_classes ->
  nth_error target_classes i = Some class_name_ ->
  exists areas, counted_areas self area_ i class_name_ = Ok areas
                /\ forall a, In a areas -> 0 < a.
Proof.
  intros (_ & (fs & Hfs & Hlen) & _ & Hblobs) Hi.
  assert (Hlt : (i < length fs)%nat).
  { apply Nat.lt_le_trans with (m := length target_classes); [|exact Hlen].
    apply nth_error_Some. congruence. }
  destruct (frequency_at_total self fs i Hfs Hlt) as [f Hf].
  unfold counted_areas. rewrite Hf. cbn [bind].
  destruct (Rgtb f 0) eqn:E.
  - apply Rltb_true in E. apply areas_inside_total.
    intros blob Hb Hc. exact (Hblobs i class_name_ f blob Hi Hf E Hb Hc).
  - exists []. split; [reflexivity|intros a []].
Qed.

Lemma counted_areas_zero_frequency (self : NewDataset) (area_ : box Z)
  (i : nat) (class_name_ : string) (f : R) :
  frequency_at self i = Ok f -> f <= 0 ->
  counted_areas self area_ i class_name_ = Ok [].
Proof.
  intros Hf Hle. unfold counted_areas. rewrite Hf. cbn [bind].
  unfold Rgtb. now rewrite (proj2 (Rltb_false 0 f) Hle).
Qed.

Lemma class_metrics_value (self : NewDataset) (area_ : box Z) (i : nat)
  (class_name_ : string) (areas : list R) :
  counted_areas self area_ i class_name_ = Ok areas ->
  (forall a, In a areas -> 0 < a) ->
  class_metrics self area_ (i, class_name_) = Ok (length areas, spec_pscv areas).
Proof.
  intros Hareas Hpos. unfold class_metrics. cbn [fst snd]. rewrite Hareas.
  cbn [bind]. unfold spec_pscv.
  destruct areas as [|a areas]; [reflexivity|].
  change (0 <? length (a :: areas))%nat with true. cbv iota zeta.
  assert (Hmean : 0 < np_mean (a :: areas))
    by (apply np_mean_positive; [discriminate|exact Hpos]).
  rewrite np_div_ok by lra. cbn [bind].
  rewrite np_std_population. unfold np_mean. now rewrite py_sum_fold_right.
Qed.

Lemma computeExactCoverage_total (self : NewDataset) (area_ : box Z)
  (target_classes : list string) :
  (exists lbl, labels self = Some lbl) ->
  (width area_ * height area_ <> 0)%Z ->
  exists coverage, computeExactCoverage self area_ target_classes = Ok coverage.
Proof.
  intros [lbl Hlbl] HA. unfold computeExactCoverage. rewrite Hlbl.
  apply mapM_total. intros i _. rewrite py_div_ok by (apply not_0_IZR; exact HA).
  eauto.
Qed.

(** [calculateMetrics] returns on every input that is ready for it, and
    what it returns for a class is the number of counted areas and their
    PSCV. *)
Lemma calculateMetrics_returns (self : NewDataset) (area_ : box Z)
  (target_classes : list string) :
  metrics_ready self area_ target_classes ->
  exists number coverage PSCV,
    calculateMetrics self area_ target_classes = Ok (number, coverage, PSCV)
    /\ forall i class_name_,
         nth_error target_classes i = Some class_name_ ->
         exists areas,
           counted_areas self area_ i class_name_ = Ok areas
           /\ nth_error number i = Some (length areas)
           /\ nth_error PSCV i = Some (spec_pscv areas).
Proof.
  intros Hready.
  assert (Hclass : forall i c, nth_error target_classes i = Some c ->
            exists areas, counted_areas self area_ i c = Ok areas
                          /\ class_metrics self area_ (i, c)
                             = Ok (length areas, spec_pscv areas)).
  { intros i c Hi.
    destruct (counted_areas_ready self area_ target_classes i c Hready Hi)
      as (areas & Hareas & Hpos).
    exists areas. split; [exact Hareas|].
    now apply class_metrics_value. }
  destruct (mapM_total (class_metrics self area_) (enumerate target_classes))
    as [per_class Hper].
  { intros [i c] Hin. apply In_enumerate in Hin.
    destruct (Hclass i c Hin) as (areas & _ & Hm). eauto. }
  destruct Hready as (Hlbl & _ & HA & _).
  destruct (computeExactCoverage_total self area_ target_classes Hlbl HA)
    as [coverage Hcov].
  exists (map fst per_class), coverage, (map snd per_class).
  split.
  - unfold calculateMetrics. now rewrite Hper, Hcov.
  - intros i c Hi. destruct (Hclass i c Hi) as (areas & Hareas & Hm).
    exists areas. split; [exact Hareas|].
    destruct (mapM_nth_error _ _ _ i (i, c) Hper (nth_error_enumerate _ _ _ Hi))
      as (b & Hb & Hfb).
    rewrite Hm in Hfb. injection Hfb as <-.
    split; [apply (map_nth_error fst _ _ Hb)|apply (map_nth_error snd _ _ Hb)].
Qed.

(** C6.  On an input that is ready for it, [calculateMetrics] returns, for
    every class, the PSCV [100 * stddev (areas) / mean (areas)] of the areas
    it counted, with the population standard deviation, and 0 when it
    counted none; the PSCV is 0 whenever at most one entity was counted. *)
Theorem calculateMetrics_pscv (self : NewDataset) (area_ : box Z)
  (target_classes : list string) :
  metrics_ready self area_ target_classes ->
  exists number coverage PSCV,
    calculateMetrics self area_ target_classes = Ok (number, coverage, PSCV)
    /\ forall i class_name_,
         nth_error target_classes i = Some class_name_ ->
         exists areas,
           counted_areas self area_ i class_name_ = Ok areas
           /\ nth_error number i = Some (length areas)
           /\ nth_error PSCV i
              = Some (if (0 <? length areas)%nat
                      then 100 * population_stddev areas
                           / (fold_right Rplus 0 areas / INR (length areas))
                      else 0)
           /\ ((length areas <= 1)%nat -> nth_error PSCV i = Some 0).
Proof.
  intros Hready.
  destruct (calculateMetrics_returns self area_ target_classes Hready)
    as (number & coverage & PSCV & Hcall & Hclass).
  exists number, coverage, PSCV. split; [exact Hcall|].
  intros i c Hi. destruct (Hclass i c Hi) as (areas & Hareas & Hn & Hp).
  exists areas. repeat split; auto.
  intros Hle. rewrite Hp. f_equal. now apply spec_pscv_at_most_one.
Qed.

(** C10.  A class whose stored frequency is 0 (or below) is given the
    count 0 and the PSCV 0 by [calculateMetrics]: no blob of that class is
    tested, whatever blobs there are.  And without stored frequencies the
    call fails as soon as there is a target class. *)
Theorem calculateMetrics_zero_frequency (self : NewDataset) (area_ : box Z)
  (target_classes : list string) :
  (metrics_ready self area_ target_classes ->
   exists number coverage PSCV,
     calculateMetrics self area_ target_classes = Ok (number, coverage, PSCV)
     /\ forall i class_name_ f,
          nth_error target_classes i = Some class_name_ ->
          frequency_at self i = Ok f -> f <= 0 ->
          counted_areas self area_ i class_name_ = Ok []
          /\ nth_error number i = Some 0%nat
          /\ nth_error PSCV i = Some 0)
  /\ (frequencies self = None -> target_classes <> [] ->
      calculateMetrics self area_ target_classes = Raise TypeError).
Proof.
  split.
  - intros Hready.
    destruct (calculateMetrics_returns self area_ target_classes Hready)
      as (number & coverage & PSCV & Hcall & Hclass).
    exists number, coverage, PSCV. split; [exact Hcall|].
    intros i c f Hi Hf Hle. destruct (Hclass i c Hi) as (areas & Hareas & Hn & Hp).
    pose proof (counted_areas_zero_frequency self area_ i c f Hf Hle) as Hzero.
    rewrite Hzero in Hareas. injection Hareas as <-.
    split; [exact Hzero|split; [exact Hn|exact Hp]].
  - intros Hnone Hne. destruct target_classes as [|c rest]; [congruence|].
    unfold calculateMetrics, enumerate. cbn [length seq combine mapM].
    unfold class_metrics at 1, counted_areas, frequency_at. now rewrite Hnone.
Qed.

(** Evaluation on the concrete datasets. *)
Create HintDb datasets.
#[local] Hint Unfold blob_A1 blob_B1 blob_B2 blob_A_empty_box : datasets.

Ltac eval_names :=
  repeat match goal with
         | |- context [String.eqb ?a ?b] =>
             let v := eval vm_compute in (String.eqb a b) in
             change (String.eqb a b) with v
         end;
  cbv iota.

Ltac eval_inside :=
  unfold checkBlobInside, bbox_intersection, box_R;
  autounfold with datasets;
  cbn [bbox top left width height area class_name];
  repeat match goal with
         | |- context [IZR (?a * ?b)] =>
             let v := eval vm_compute in (a * b)%Z in
             change (a * b)%Z with v
         end;
  r_decide; unfold py_div; r_decide; cbn [bind]; r_decide.

Lemma dataset_two_classes_ready :
  metrics_ready dataset_two_classes (Box 0%Z 0%Z 10%Z 10%Z) ["A"; "B"]%string.
Proof.
  split; [eexists; reflexivity|].
  split; [eexists; split; [reflexivity|simpl; lia]|].
  split; [cbn; lia|].
  intros i c f blob _ _ _ Hin _.
  simpl in Hin. destruct Hin as [<-|[<-|[<-|[]]]]; simpl; split; try lia; lra.
Defined.

Lemma calculateMetrics_pscv_witness :
  metrics_ready dataset_two_classes (Box 0%Z 0%Z 10%Z 10%Z) ["A"; "B"]%string
  /\ exists number coverage PSCV,
       calculateMetrics dataset_two_classes (Box 0%Z 0%Z 10%Z 10%Z) ["A"; "B"]%string
       = Ok (number, coverage, PSCV)
       /\ nth_error number 0 = Some 1%nat /\ nth_error PSCV 0 = Some 0
       /\ nth_error number 1 = Some 2%nat /\ nth_error PSCV 1 = Some (100 / 3).
Proof.
  split; [exact dataset_two_classes_ready|].
  destruct (calculateMetrics_pscv _ _ _ dataset_two_classes_ready)
    as (number & coverage & PSCV & Hcall & Hclass).
  exists number, coverage, PSCV. split; [exact Hcall|].
  destruct (Hclass 0%nat "A"%string eq_refl) as (areasA & HA & HnA & _ & HzA).
  destruct (Hclass 1%nat "B"%string eq_refl) as (areasB & HB & HnB & HpB & _).
  assert (EA : counted_areas dataset_two_classes (Box 0%Z 0%Z 10%Z 10%Z) 0 "A"
               = Ok [4]).
  { unfold counted_areas, frequency_at; cbn [dataset_two_classes frequencies
      nth_error bind blobs]. r_decide. cbn [areas_inside]. eval_names.
    assert (H1 : checkBlobInside (box_R (Box 0%Z 0%Z 10%Z 10%Z)) blob_A1 (3 / 4) = Ok true)
      by eval_inside.
    rewrite H1. reflexivity. }
  assert (EB : counted_areas dataset_two_classes (Box 0%Z 0%Z 10%Z 10%Z) 1 "B"
               = Ok [2; 4]).
  { unfold counted_areas, frequency_at; cbn [dataset_two_classes frequencies
      nth_error bind blobs]. r_decide. cbn [areas_inside]. eval_names.
    assert (H1 : checkBlobInside (box_R (Box 0%Z 0%Z 10%Z 10%Z)) blob_B1 (3 / 4) = Ok true)
      by eval_inside.
    assert (H2 : checkBlobInside (box_R (Box 0%Z 0%Z 10%Z 10%Z)) blob_B2 (3 / 4) = Ok true)
      by eval_inside.
    rewrite H1, H2. reflexivity. }
  rewrite EA in HA. injection HA as <-.
  rewrite EB in HB. injection HB as <-.
  split; [exact HnA|]. split; [apply HzA; simpl; lia|]. split; [exact HnB|].
  rewrite HpB. f_equal. cbn [length Nat.ltb Nat.leb].
  unfold population_stddev. cbn [length map fold_right INR].
  match goal with
  | |- context [sqrt ?x] => replace x with 1 by (unfold Rsqr; field)
  end.
  rewrite sqrt_1. field.
Defined.

Lemma dataset_stale_frequencies_ready :
  metrics_ready dataset_stale_frequencies (Box 0%Z 0%Z 10%Z 10%Z)
    ["A"; "B"]%string.
Proof.
  split; [eexists; reflexivity|].
  split; [eexists; split; [reflexivity|simpl; lia]|].
  split; [cbn; lia|].
  intros i c f blob Hi Hf Hpos Hin Hc.
  destruct i as [|[|i]].
  - injection Hf as <-. lra.
  - injection Hi as <-.
    simpl in Hin. destruct Hin as [<-|[<-|[<-|[<-|[]]]]]; simpl in *;
      try discriminate; split; try lia; lra.
  - destruct i; discriminate.
Defined.

Lemma calculateMetrics_zero_frequency_witness :
  metrics_ready dataset_stale_frequencies (Box 0%Z 0%Z 10%Z 10%Z)
    ["A"; "B"]%string
  /\ In blob_A1 (blobs dataset_stale_frequencies)
  /\ checkBlobInside (box_R (Box 0%Z 0%Z 10%Z 10%Z)) blob_A1 (3 / 4) = Ok true
  /\ exists number coverage PSCV,
       calculateMetrics dataset_stale_frequencies (Box 0%Z 0%Z 10%Z 10%Z)
         ["A"; "B"]%string
       = Ok (number, coverage, PSCV)
       /\ nth_error number 0 = Some 0%nat /\ nth_error PSCV 0 = Some 0.
Proof.
  split; [exact dataset_stale_frequencies_ready|].
  split; [now left|]. split; [eval_inside|].
  destruct (proj1 (calculateMetrics_zero_frequency _ _ _)
              dataset_stale_frequencies_ready)
    as (number & coverage & PSCV & Hcall & Hclass).
  exists number, coverage, PSCV. split; [exact Hcall|].
  destruct (Hclass 0%nat "A"%string 0 eq_refl eq_refl (Rle_refl 0))
    as (_ & Hn & Hp).
  split; [exact Hn|exact Hp].
Defined.

(** ** Loops with a state *)

Lemma foldM_counting {A St : Type} (Inv : nat -> St -> Prop)
  (f : St -> A -> result St) :
  (forall k s a s', Inv k s -> f s a = Ok s' -> Inv (S k) s') ->
  forall (l : list A) (k : nat) (s s' : St),
    Inv k s -> foldM f l s = Ok s' -> Inv (k + length l)%nat s'.
Proof.
  intros Hstep l; induction l as [|a l IH]; intros k s s' Hinv H; simpl in *.
  - injection H as <-. now rewrite Nat.add_0_r.
  - destruct (f s a) as [s1| |] eqn:E; try discriminate. cbn [bind] in H.
    replace (k + S (length l))%nat with (S k + length l)%nat by lia.
    apply (IH (S k) s1 s'); [|exact H]. now apply (Hstep k s a).
Qed.

Lemma foldM_invariant {A St : Type} (Inv : St -> Prop) (f : St -> A -> result St) :
  (forall s a s', Inv s -> f s a = Ok s' -> Inv s') ->
  forall (l : list A) (s s' : St), Inv s -> foldM f l s = Ok s' -> Inv s'.
Proof.
  intros Hstep l s s' Hinv H.
  apply (foldM_counting (fun _ => Inv) f (fun _ s a s' => Hstep s a s') l 0%nat s s');
    assumption.
Qed.

Lemma foldM_cons {A St : Type} (f : St -> A -> result St) (a : A) (l : list A) (s : St) :
  foldM f (a :: l) s = (s' <- f s a ;; foldM f l s').
Proof. reflexivity. Qed.

Lemma bind_Ok {A B : Type} (a : A) (k : A -> result B) : bind (Ok a) k = k a.
Proof. reflexivity. Qed.

Lemma bind_ret {A : Type} (c : result A) : (x <- c ;; Ok x) = c.
Proof. now destruct c. Qed.

(** ** The separation of the samples *)

Lemma distance_sym (p q : Z * Z) :
  distance p (fst q) (snd q) = distance q (fst p) (snd p).
Proof. unfold distance. do 2 f_equal. ring. Qed.

Lemma np_add_comm (a b : npfloat) : np_add a b = np_add b a.
Proof. destruct a, b; cbn [np_add]; try reflexivity. now rewrite Rplus_comm. Qed.

Lemma closer_than_mean_sym (d : R) (r1 r2 : npfloat) :
  closer_than_mean d r1 r2 = closer_than_mean d r2 r1.
Proof. unfold closer_than_mean. now rewrite np_add_comm. Qed.

Lemma closer_than_mean_numbers (d a b : R) :
  closer_than_mean d (Finite a) (Finite b) = Rltb d ((a + b) / 2).
Proof. reflexivity. Qed.

Lemma closer_than_mean_nan (d : R) (r : npfloat) :
  closer_than_mean d NaN r = false /\ closer_than_mean d r NaN = false.
Proof. split; [reflexivity|now destruct r]. Qed.

Lemma separated_intro (self : NewDataset) (p q : Z * Z) (r1 r2 : npfloat) :
  radius_at self (snd p) (fst p) = Ok r1 ->
  radius_at self (snd q) (fst q) = Ok r2 ->
  closer_than_mean (distance p (fst q) (snd q)) r1 r2 = false ->
  separated self p q.
Proof.
  intros H1 H2 Hd. exists r1, r2. repeat split; try assumption.
  intros a b -> ->. rewrite closer_than_mean_numbers in Hd.
  now apply Rltb_false in Hd.
Qed.

Lemma separated_sym (self : NewDataset) (p q : Z * Z) :
  separated self p q -> separated self q p.
Proof.
  intros (r1 & r2 & H1 & H2 & Hd & _). apply (separated_intro self q p r2 r1 H2 H1).
  now rewrite <- distance_sym, closer_than_mean_sym.
Qed.

Lemma separation_flag_true (self : NewDataset) (px py : Z) (r1 : npfloat)
  (samples : list (Z * Z)) :
  separation_flag self px py r1 samples = Ok true ->
  forall sample, In sample samples ->
    exists r2, radius_at self (snd sample) (fst sample) = Ok r2
               /\ closer_than_mean (distance sample px py) r1 r2 = false.
Proof.
  induction samples as [|s samples IH]; simpl; intros H sample Hin; [contradiction|].
  destruct (radius_at self (snd s) (fst s)) as [r2| |] eqn:E; try discriminate.
  cbn [bind] in H.
  destruct (closer_than_mean (distance s px py) r1 r2) eqn:Ed; [discriminate|].
  destruct Hin as [<-|Hin]; [eauto|now apply IH].
Qed.

Lemma try_sample_cases (self : NewDataset) (px py : Z)
  (samples samples' : list (Z * Z)) :
  try_sample self px py samples = Ok samples' ->
  samples' = samples
  \/ (samples' = samples ++ [(px, py)]
      /\ forall sample, In sample samples -> separated self sample (px, py)).
Proof.
  unfold try_sample. intros H.
  destruct (radius_at self py px) as [r1| |] eqn:E1; try discriminate.
  cbn [bind] in H.
  destruct (separation_flag self px py r1 samples) as [[|]| |] eqn:E2;
    try discriminate; cbn [bind] in H; injection H as <-; [right|now left].
  split; [reflexivity|]. intros sample Hin.
  destruct (separation_flag_true self px py r1 samples E2 sample Hin)
    as (r2 & Hr2 & Hd).
  apply (separated_intro self sample (px, py) r2 r1); cbn [fst snd];
    try assumption.
  now rewrite closer_than_mean_sym.
Qed.

Lemma pairwise_separated_snoc (self : NewDataset) (samples : list (Z * Z))
  (q : Z * Z) :
  pairwise_separated self samples ->
  (forall p, In p samples -> separated self p q) ->
  pairwise_separated self (samples ++ [q]).
Proof.
  intros Hpw Hq i j p p' Hij Hi Hj.
  assert (Hjlen : (j < length (samples ++ [q]))%nat)
    by (apply nth_error_Some; congruence).
  rewrite length_app in Hjlen. simpl in Hjlen.
  rewrite nth_error_app1 in Hi by lia.
  destruct (Nat.eq_dec j (length samples)) as [->|Hne].
  - rewrite nth_error_app2, Nat.sub_diag in Hj by lia. injection Hj as <-.
    apply Hq. eapply nth_error_In; eassumption.
  - rewrite nth_error_app1 in Hj by lia. exact (Hpw i j p p' Hij Hi Hj).
Qed.

Lemma try_sample_separated (self : NewDataset) (px py : Z)
  (samples samples' : list (Z * Z)) :
  pairwise_separated self samples ->
  try_sample self px py samples = Ok samples' ->
  pairwise_separated self samples'.
Proof.
  intros Hpw H. destruct (try_sample_cases _ _ _ _ _ H) as [->|[-> Hsep]];
    [exact Hpw|now apply pairwise_separated_snoc].
Qed.

Lemma blob_trial_separated (self : NewDataset) (rnd : Random) (blob : Blob)
  (st st' : list (Z * Z) * nat) (i : Z) :
  pairwise_separated self (fst st) ->
  blob_trial self rnd blob st i = Ok st' ->
  pairwise_separated self (fst st').
Proof.
  intros Hpw H. unfold blob_trial in H.
  destruct (randint rnd (snd st) 1 _) as [[px n1]| |]; try discriminate.
  cbn [bind] in H.
  destruct (randint rnd n1 1 _) as [[py n2]| |]; try discriminate.
  cbn [bind] in H.
  destruct (np_get (mask blob) py px) as [m| |]; try discriminate.
  cbn [bind] in H.
  destruct (m =? 1)%Z; [|now injection H as <-].
  destruct (try_sample self _ _ (fst st)) as [samples'| |] eqn:E; try discriminate.
  cbn [bind] in H. injection H as <-. cbn [fst].
  eapply try_sample_separated; eassumption.
Qed.

Lemma subarea_trial_separated (self : NewDataset) (rnd : Random) (area_ : box Z)
  (st st' : list (Z * Z) * nat) (i : Z) :
  pairwise_separated self (fst st) ->
  subarea_trial self rnd area_ st i = Ok st' ->
  pairwise_separated self (fst st').
Proof.
  intros Hpw H. unfold subarea_trial in H.
  destruct (randint rnd (snd st) _ _) as [[px n1]| |]; try discriminate.
  cbn [bind] in H.
  destruct (randint rnd n1 _ _) as [[py n2]| |]; try discriminate.
  cbn [bind] in H.
  destruct (try_sample self _ _ (fst st)) as [samples'| |] eqn:E; try discriminate.
  cbn [bind] in H. injection H as <-. cbn [fst].
  eapply try_sample_separated; eassumption.
Qed.

Lemma importanceSamplingBlob_separated (self : NewDataset) (rnd : Random)
  (blob : Blob) (samples : list (Z * Z)) (n : nat) (st' : list (Z * Z) * nat) :
  pairwise_separated self samples ->
  importanceSamplingBlob self rnd blob samples false n = Ok st' ->
  pairwise_separated self (fst st').
Proof.
  intros Hpw H. unfold importanceSamplingBlob in H.
  refine (foldM_invariant (fun st => pairwise_separated self (fst st)) _ _ _ _ _ _ H);
    [|exact Hpw].
  intros s a s'. apply blob_trial_separated.
Qed.

Lemma importanceSamplingSubArea_separated (self : NewDataset) (rnd : Random)
  (area_ : box Z) (samples : list (Z * Z)) (n : nat) (st' : list (Z * Z) * nat) :
  pairwise_separated self samples ->
  importanceSamplingSubArea self rnd area_ samples n = Ok st' ->
  pairwise_separated self (fst st').
Proof.
  intros Hpw H. unfold importanceSamplingSubArea in H.
  refine (foldM_invariant (fun st => pairwise_separated self (fst st)) _ _ _ _ _ _ H);
    [|exact Hpw].
  intros s a s'. apply subarea_trial_separated.
Qed.

Lemma sample_rare_blobs_separated (self : NewDataset) (rnd : Random)
  (st st' : list (Z * Z) * nat) :
  pairwise_separated self (fst st) ->
  sample_rare_blobs self rnd st = Ok st' ->
  pairwise_separated self (fst st').
Proof.
  intros Hpw H. unfold sample_rare_blobs in H.
  refine (foldM_invariant (fun st => pairwise_separated self (fst st)) _ _ _ _ _ _ H);
    [|exact Hpw].
  intros s c s' Hs Hc.
  refine (foldM_invariant (fun st => pairwise_separated self (fst st)) _ _ _ _ _ _ Hc);
    [|exact Hs].
  intros s1 blob s2 Hs1 Hb.
  destruct (String.eqb (class_name blob) c).
  - eapply importanceSamplingBlob_separated; eassumption.
  - now injection Hb as <-.
Qed.

Lemma sample_sub_areas_separated (self : NewDataset) (rnd : Random)
  (area_ : box Z) (st st' : list (Z * Z) * nat) :
  pairwise_separated self (fst st) ->
  sample_sub_areas self rnd area_ st = Ok st' ->
  pairwise_separated self (fst st').
Proof.
  intros Hpw H. unfold sample_sub_areas in H. cbv zeta in H.
  refine (foldM_invariant (fun st => pairwise_separated self (fst st)) _ _ _ _ _ _ H);
    [|exact Hpw].
  intros s row s' Hs Hrow.
  refine (foldM_invariant (fun st => pairwise_separated self (fst st)) _ _ _ _ _ _ Hrow);
    [|exact Hs].
  intros s1 col s2 Hs1 Hcol.
  eapply importanceSamplingSubArea_separated; eassumption.
Qed.

(** C5, as the code has it.  Any two samples that one run of
    [sampleAreaImportanceSampling] returns, from the blobs or from the
    sub-areas, passed the test [d < (r1 + r2) / 2.0] of the loop over the
    samples: the radius map was read at both points and the test was
    false.  Where the radius map holds numbers at the two points, their
    distance is at least the mean of the two values; where it holds nan
    the test is false whatever the distance is. *)
Theorem sampleAreaImportanceSampling_separation (self : NewDataset)
  (rnd : Random) (area_ : box Z) (n n' : nat) (samples : list (Z * Z)) :
  sampleAreaImportanceSampling self rnd area_ n = Ok (samples, n') ->
  forall i j p q,
    i <> j -> nth_error samples i = Some p -> nth_error samples j = Some q ->
    exists rp rq,
      radius_at self (snd p) (fst p) = Ok rp
      /\ radius_at self (snd q) (fst q) = Ok rq
      /\ closer_than_mean (distance p (fst q) (snd q)) rp rq = false
      /\ forall a b, rp = Finite a -> rq = Finite b ->
                     (a + b) / 2 <= distance p (fst q) (snd q).
Proof.
  intros H. unfold sampleAreaImportanceSampling in H.
  destruct (sample_rare_blobs self rnd ([], n)) as [st| |] eqn:E1; try discriminate.
  cbn [bind] in H.
  assert (Hpw : pairwise_separated self samples).
  { change samples with (fst (samples, n')).
    apply (sample_sub_areas_separated self rnd area_ st); [|exact H].
    apply (sample_rare_blobs_separated self rnd ([], n)); [|exact E1].
    intros i j p q _ Hi. destruct i; discriminate. }
  intros i j p q Hij Hi Hj.
  destruct (Nat.lt_total i j) as [Hlt|[Heq|Hgt]]; [|contradiction|].
  - exact (Hpw i j p q Hlt Hi Hj).
  - apply separated_sym. exact (Hpw j i q p Hgt Hj Hi).
Qed.

(** A run on the 3 x 3 map: the sub-area phase accepts two samples. *)
Ltac eval_randint :=
  repeat match goal with
         | |- context [randint ?r ?n ?a ?b] =>
             let v := eval vm_compute in (randint r n a b) in
             change (randint r n a b) with v; cbn [bind]
         end.

Ltac eval_Z :=
  repeat match goal with
         | |- context [IZR ?z] =>
             lazymatch z with
             | Zpos _ => fail
             | Zneg _ => fail
             | Z0 => fail
             | _ => let v := eval vm_compute in z in change z with v
             end
         end.

Lemma radius_3x3_at_2 : radius_at dataset_radius_3x3 (-2) (-2) = Ok (Finite 1).
Proof. reflexivity. Qed.

Lemma radius_3x3_at_3 : radius_at dataset_radius_3x3 (-3) (-3) = Ok (Finite 1).
Proof. reflexivity. Qed.

Lemma corner_first_trial (i : Z) :
  subarea_trial dataset_radius_3x3 rnd_corner (Box (-1025) (-1025) 1024 1024)%Z
    ([], 0%nat) i = Ok ([(-2, -2)%Z], 2%nat).
Proof.
  unfold subarea_trial. cbn [top left width height fst snd]. eval_randint.
  unfold try_sample. rewrite radius_3x3_at_2. cbn [bind separation_flag app].
  reflexivity.
Qed.

Lemma one_le_sqrt_2 : 1 <= sqrt 2.
Proof. rewrite <- sqrt_1 at 1. apply sqrt_le_1_alt. lra. Qed.

Lemma corner_second_trial (i : Z) :
  subarea_trial dataset_radius_3x3 rnd_corner (Box (-1025) (-1025) 1024 1024)%Z
    ([(-2, -2)%Z], 2%nat) i = Ok ([(-2, -2); (-3, -3)]%Z, 4%nat).
Proof.
  unfold subarea_trial. cbn [top left width height fst snd]. eval_randint.
  unfold try_sample. rewrite radius_3x3_at_3. cbn [bind separation_flag fst snd].
  rewrite radius_3x3_at_2. cbn [bind]. unfold distance. cbn [fst snd]. eval_Z.
  rewrite closer_than_mean_numbers.
  rewrite (proj2 (Rltb_false (sqrt 2) ((1 + 1) / 2)))
    by (pose proof one_le_sqrt_2; lra).
  reflexivity.
Qed.

Lemma corner_later_trial (n : nat) (i : Z) :
  subarea_trial dataset_radius_3x3 rnd_corner (Box (-1025) (-1025) 1024 1024)%Z
    ([(-2, -2); (-3, -3)]%Z, S (S n)) i
  = Ok ([(-2, -2); (-3, -3)]%Z, S (S (S (S n)))).
Proof.
  unfold subarea_trial. cbn [top left width height fst snd]. eval_randint.
  unfold try_sample. rewrite radius_3x3_at_3. cbn [bind separation_flag fst snd].
  rewrite radius_3x3_at_2, radius_3x3_at_3. cbn [bind].
  unfold distance. cbn [fst snd]. eval_Z.
  rewrite !closer_than_mean_numbers.
  rewrite (proj2 (Rltb_false (sqrt 2) ((1 + 1) / 2)))
    by (pose proof one_le_sqrt_2; lra).
  rewrite sqrt_0. r_decide.
Qed.

Lemma foldM_stationary {A : Type}
  (f : list (Z * Z) * nat -> A -> result (list (Z * Z) * nat))
  (s : list (Z * Z)) :
  (forall n a, f (s, S (S n)) a = Ok (s, S (S (S (S n))))) ->
  forall l n, foldM f l (s, S (S n)) = Ok (s, (2 * length l + S (S n))%nat).
Proof.
  intros Hf l; induction l as [|a l IH]; intros n; [reflexivity|].
  cbn [foldM]. rewrite Hf. cbn [bind]. rewrite IH. do 2 f_equal. simpl. lia.
Qed.

Lemma no_rare_blob (st : list (Z * Z) * nat) :
  sample_rare_blobs dataset_radius_3x3 rnd_corner st = Ok st.
Proof. reflexivity. Qed.

Lemma corner_sub_area (st : list (Z * Z) * nat) :
  sample_sub_areas dataset_radius_3x3 rnd_corner (Box 0 0 0 0)%Z st
  = importanceSamplingSubArea dataset_radius_3x3 rnd_corner
      (Box (-1025) (-1025) 1024 1024)%Z (fst st) (snd st).
Proof.
  unfold sample_sub_areas. cbn [top left width height].
  replace (0 / 256) with 0 by lra. rewrite py_int_IZR.
  change (range (1 + 0)) with [0%Z].
  rewrite foldM_cons, foldM_cons.
  change (if (0 + 0 - 1 <? 0 + 0 * 256 + 1024)%Z then (0 - 1024 - 1)%Z
          else (0 + 0 * 256)%Z) with (-1025)%Z.
  change (foldM _ [] ?s) with (Ok s).
  now rewrite !bind_ret.
Qed.

Lemma corner_trials :
  importanceSamplingSubArea dataset_radius_3x3 rnd_corner
    (Box (-1025) (-1025) 1024 1024)%Z [] 0
  = Ok ([(-2, -2); (-3, -3)]%Z, 60%nat).
Proof.
  unfold importanceSamplingSubArea.
  change (range 30) with (0 :: 1 :: map Z.of_nat (seq 2 28))%Z.
  rewrite foldM_cons, corner_first_trial, bind_Ok.
  rewrite foldM_cons, corner_second_trial, bind_Ok.
  rewrite (foldM_stationary _ _ corner_later_trial). reflexivity.
Qed.

Lemma corner_run :
  sampleAreaImportanceSampling dataset_radius_3x3 rnd_corner (Box 0 0 0 0)%Z 0
  = Ok ([(-2, -2); (-3, -3)]%Z, 60%nat).
Proof.
  unfold sampleAreaImportanceSampling. rewrite no_rare_blob, bind_Ok.
  rewrite corner_sub_area. exact corner_trials.
Qed.

Lemma sampleAreaImportanceSampling_separation_witness :
  sampleAreaImportanceSampling dataset_radius_3x3 rnd_corner (Box 0 0 0 0)%Z 0
  = Ok ([(-2, -2); (-3, -3)]%Z, 60%nat)
  /\ radius_at dataset_radius_3x3 (-2) (-2) = Ok (Finite 1)
  /\ radius_at dataset_radius_3x3 (-3) (-3) = Ok (Finite 1)
  /\ (1 + 1) / 2 <= distance (-2, -2)%Z (-3) (-3).
Proof.
  split; [exact corner_run|].
  split; [exact radius_3x3_at_2|]. split; [exact radius_3x3_at_3|].
  destruct (sampleAreaImportanceSampling_separation _ _ _ _ _ _ corner_run
              0%nat 1%nat (-2, -2)%Z (-3, -3)%Z)
    as (rp & rq & Hp & Hq & _ & Hd); [discriminate|reflexivity|reflexivity|].
  cbn [fst snd] in Hp, Hq, Hd.
  rewrite radius_3x3_at_2 in Hp. rewrite radius_3x3_at_3 in Hq.
  injection Hp as <-. injection Hq as <-.
  exact (Hd 1 1 eq_refl eq_refl).
Defined.

(** On a radius map that is nan where it is read, the test of the loop
    is false for every sample, and every candidate is appended. *)
Lemma separation_flag_nan (self : NewDataset) (px py : Z) (samples : list (Z * Z)) :
  (forall s, In s samples -> exists r, radius_at self (snd s) (fst s) = Ok r) ->
  separation_flag self px py NaN samples = Ok true.
Proof.
  induction samples as [|s samples IH]; intros H; [reflexivity|].
  cbn [separation_flag]. destruct (H s (or_introl eq_refl)) as [r2 Hr2].
  rewrite Hr2, bind_Ok. rewrite (proj1 (closer_than_mean_nan _ r2)).
  apply IH. intros s' Hs'. apply H. now right.
Qed.

Lemma try_sample_nan (self : NewDataset) (px py : Z) (samples : list (Z * Z)) :
  radius_at self py px = Ok NaN ->
  (forall s, In s samples -> exists r, radius_at self (snd s) (fst s) = Ok r) ->
  try_sample self px py samples = Ok (samples ++ [(px, py)]).
Proof.
  intros Hr Hall. unfold try_sample.
  now rewrite Hr, bind_Ok, separation_flag_nan, bind_Ok.
Qed.

Lemma nan_3x3_frequencies :
  computeFrequencies dataset_nan_3x3 ["A"%string] = Ok dataset_nan_3x3.
Proof.
  unfold computeFrequencies. cbn [dataset_nan_3x3 map_w map_h blobs mapM].
  unfold class_area. cbn [fold_left].
  change (3 * 3)%Z with 9%Z. rewrite py_div_ok by lra.
  rewrite !bind_Ok. unfold set_frequencies.
  cbn [map_w map_h blobs val_area test_area labels radius_map].
  replace (0 / 9) with 0 by lra. reflexivity.
Qed.

Lemma nan_3x3_at_2 : radius_at dataset_nan_3x3 (-2) (-2) = Ok NaN.
Proof. reflexivity. Qed.

Lemma nan_3x3_at_3 : radius_at dataset_nan_3x3 (-3) (-3) = Ok NaN.
Proof. reflexivity. Qed.

Lemma nan_corner_first_trial (i : Z) :
  subarea_trial dataset_nan_3x3 rnd_corner (Box (-1025) (-1025) 1024 1024)%Z
    ([], 0%nat) i = Ok ([(-2, -2)%Z], 2%nat).
Proof.
  unfold subarea_trial. cbn [top left width height fst snd]. eval_randint.
  rewrite (try_sample_nan _ _ _ _ nan_3x3_at_2) by (intros s []).
  reflexivity.
Qed.

Lemma nan_corner_later_trial (k n : nat) (i : Z) :
  subarea_trial dataset_nan_3x3 rnd_corner (Box (-1025) (-1025) 1024 1024)%Z
    ((-2, -2)%Z :: repeat (-3, -3)%Z k, S (S n)) i
  = Ok ((-2, -2)%Z :: repeat (-3, -3)%Z (S k), S (S (S (S n)))).
Proof.
  unfold subarea_trial. cbn [top left width height fst snd]. eval_randint.
  rewrite (try_sample_nan _ _ _ _ nan_3x3_at_3).
  - rewrite bind_Ok. cbn [app]. now rewrite <- repeat_cons.
  - intros s [<-|Hs]; [exists NaN; exact nan_3x3_at_2|].
    apply repeat_spec in Hs. subst s. exists NaN. exact nan_3x3_at_3.
Qed.

Lemma nan_corner_later_trials (l : list Z) (k n : nat) :
  foldM (subarea_trial dataset_nan_3x3 rnd_corner
           (Box (-1025) (-1025) 1024 1024)%Z)
        l ((-2, -2)%Z :: repeat (-3, -3)%Z k, S (S n))
  = Ok ((-2, -2)%Z :: repeat (-3, -3)%Z (length l + k),
        (2 * length l + S (S n))%nat).
Proof.
  revert k n; induction l as [|a l IH]; intros k n; [reflexivity|].
  rewrite foldM_cons, nan_corner_later_trial, bind_Ok, IH.
  replace (length l + S k)%nat with (length (a :: l) + k)%nat by (simpl; lia).
  replace (2 * length l + S (S (S (S n))))%nat
    with (2 * length (a :: l) + S (S n))%nat by (simpl; lia).
  reflexivity.
Qed.

Lemma corner_sub_area_of (self : NewDataset) (st : list (Z * Z) * nat) :
  sample_sub_areas self rnd_corner (Box 0 0 0 0)%Z st
  = importanceSamplingSubArea self rnd_corner
      (Box (-1025) (-1025) 1024 1024)%Z (fst st) (snd st).
Proof.
  unfold sample_sub_areas. cbn [top left width height].
  replace (0 / 256) with 0 by lra. rewrite py_int_IZR.
  change (range (1 + 0)) with [0%Z].
  rewrite foldM_cons, foldM_cons.
  change (if (0 + 0 - 1 <? 0 + 0 * 256 + 1024)%Z then (0 - 1024 - 1)%Z
          else (0 + 0 * 256)%Z) with (-1025)%Z.
  change (foldM _ [] ?s) with (Ok s).
  now rewrite !bind_ret.
Qed.

Lemma nan_corner_run :
  sampleAreaImportanceSampling dataset_nan_3x3 rnd_corner (Box 0 0 0 0)%Z 0
  = Ok ((-2, -2)%Z :: repeat (-3, -3)%Z 29, 60%nat).
Proof.
  unfold sampleAreaImportanceSampling.
  change (sample_rare_blobs dataset_nan_3x3 rnd_corner ([], 0%nat))
    with (@Ok (list (Z * Z) * nat) ([], 0%nat)).
  rewrite bind_Ok, corner_sub_area_of. cbn [fst snd].
  unfold importanceSamplingSubArea.
  change (range 30) with (0%Z :: map Z.of_nat (seq 1 29)).
  rewrite foldM_cons, nan_corner_first_trial, bind_Ok.
  change ([(-2, -2)%Z]) with ((-2, -2)%Z :: repeat (-3, -3)%Z 0).
  rewrite nan_corner_later_trials. reflexivity.
Qed.

(** C5, as the claim states it, fails on the radius map that
    [compute_radius_map] paints for one target class, which is nan at
    every pixel.  The run accepts all its 30 candidates: the first at
    (-2, -2) and 29 more that all lie at (-3, -3).  The distance of two of
    them is 0 or the square root of 2, and neither is at least the mean of
    the two radius values, a nan: the comparison is false. *)
Lemma sampleAreaImportanceSampling_accepts_on_nan :
  computeFrequencies dataset_nan_3x3 ["A"%string] = Ok dataset_nan_3x3
  /\ frequencies dataset_nan_3x3 = Some [0]
  /\ labels dataset_nan_3x3 = Some (repeat (repeat 0%Z 3) 3)
  /\ radius_array [0] 10 100 = Ok [NaN; NaN]
  /\ paint_radius [NaN; NaN] (repeat (repeat 0%Z 3) 3) = repeat (repeat NaN 3) 3
  /\ radius_map dataset_nan_3x3 = Some (repeat (repeat NaN 3) 3)
  /\ sampleAreaImportanceSampling dataset_nan_3x3 rnd_corner (Box 0 0 0 0)%Z 0
     = Ok ((-2, -2)%Z :: repeat (-3, -3)%Z 29, 60%nat)
  /\ radius_at dataset_nan_3x3 (-2) (-2) = Ok NaN
  /\ radius_at dataset_nan_3x3 (-3) (-3) = Ok NaN
  /\ np_geb (Finite (distance (-2, -2)%Z (-3) (-3))) (np_div_by (np_add NaN NaN) 2)
     = false
  /\ distance (-3, -3)%Z (-3) (-3) = 0
  /\ np_geb (Finite (distance (-3, -3)%Z (-3) (-3))) (np_div_by (np_add NaN NaN) 2)
     = false.
Proof.
  split; [exact nan_3x3_frequencies|].
  split; [reflexivity|]. split; [reflexivity|].
  split; [apply radius_array_single_class|]. split; [reflexivity|].
  split; [reflexivity|]. split; [exact nan_corner_run|]. split; [exact nan_3x3_at_2|].
  split; [exact nan_3x3_at_3|]. split; [reflexivity|].
  split; [|reflexivity].
  unfold distance. cbn [fst snd]. eval_Z. apply sqrt_0.
Qed.

(** ** The trials on a blob *)

Lemma foldM_app {A St : Type} (f : St -> A -> result St) (l1 l2 : list A) (s : St) :
  foldM f (l1 ++ l2) s = (s' <- foldM f l1 s ;; foldM f l2 s').
Proof.
  revert s; induction l1 as [|a l1 IH]; intros s; simpl; [reflexivity|].
  destruct (f s a); cbn [bind]; auto.
Qed.

Lemma foldM_filter {A St : Type} (f : St -> A -> result St) (test : A -> bool)
  (l : list A) (s : St) :
  foldM (fun s a => if test a then f s a else Ok s) l s = foldM f (filter test l) s.
Proof.
  revert s; induction l as [|a l IH]; intros s; simpl; [reflexivity|].
  destruct (test a); simpl.
  - destruct (f s a); cbn [bind]; auto.
  - apply IH.
Qed.

Lemma foldM_flat_map {A C St : Type} (f : St -> A -> result St) (h : C -> list A)
  (cs : list C) (s : St) :
  foldM (fun s c => foldM f (h c) s) cs s = foldM f (flat_map h cs) s.
Proof.
  revert s; induction cs as [|c cs IH]; intros s; simpl; [reflexivity|].
  rewrite foldM_app. destruct (foldM f (h c) s); cbn [bind]; auto.
Qed.

Lemma foldM_ext {A St : Type} (f g : St -> A -> result St) (l : list A) (s : St) :
  (forall s a, f s a = g s a) -> foldM f l s = foldM g l s.
Proof.
  intros H; revert s; induction l as [|a l IH]; intros s; simpl; [reflexivity|].
  rewrite H. destruct (g s a); cbn [bind]; auto.
Qed.

Lemma sample_rare_blobs_entities (self : NewDataset) (rnd : Random)
  (st : list (Z * Z) * nat) :
  sample_rare_blobs self rnd st
  = foldM (fun st blob =>
             importanceSamplingBlob self rnd blob (fst st) false (snd st))
          (rare_entities self) st.
Proof.
  unfold sample_rare_blobs, rare_entities.
  rewrite <- foldM_flat_map. apply foldM_ext.
  intros s c. apply foldM_filter.
Qed.

Lemma randint_counter (rnd : Random) (n n' : nat) (a b v : Z) :
  randint rnd n a b = Ok (v, n') -> n' = S n.
Proof.
  unfold randint. destruct (b <? a)%Z; [discriminate|]. now intros [= _ <-].
Qed.

Lemma accepted_on_blob_snoc (self : NewDataset) (blob : Blob)
  (samples accepted : list (Z * Z)) (p : Z * Z) :
  accepted_on_blob self blob samples accepted ->
  np_get (mask blob) (snd p - top (bbox blob)) (fst p - left (bbox blob)) = Ok 1%Z ->
  (forall q, In q (samples ++ accepted) -> separated self q p) ->
  accepted_on_blob self blob samples (accepted ++ [p]).
Proof.
  intros Hacc Hmask Hsep j p' Hj.
  assert (Hlen : (j < length (accepted ++ [p]))%nat)
    by (apply nth_error_Some; congruence).
  rewrite length_app in Hlen. simpl in Hlen.
  destruct (Nat.eq_dec j (length accepted)) as [->|Hne].
  - rewrite nth_error_app2, Nat.sub_diag in Hj by lia. injection Hj as <-.
    rewrite firstn_app, Nat.sub_diag, firstn_all. simpl. rewrite app_nil_r.
    split; assumption.
  - rewrite nth_error_app1 in Hj by lia.
    rewrite firstn_app. replace (j - length accepted)%nat with 0%nat by lia.
    simpl. rewrite app_nil_r. now apply Hacc.
Qed.

Lemma blob_trial_step (self : NewDataset) (rnd : Random) (blob : Blob)
  (samples accepted : list (Z * Z)) (n : nat) (st' : list (Z * Z) * nat) (i : Z) :
  accepted_on_blob self blob samples accepted ->
  blob_trial self rnd blob (samples ++ accepted, n) i = Ok st' ->
  exists accepted',
    fst st' = samples ++ accepted' /\ snd st' = S (S n)
    /\ (length accepted' <= S (length accepted))%nat
    /\ accepted_on_blob self blob samples accepted'.
Proof.
  intros Hacc H. unfold blob_trial in H. cbn [fst snd] in H.
  destruct (randint rnd n 1 _) as [[px n1]| |] eqn:E1; try discriminate.
  apply randint_counter in E1. subst n1. cbn [bind] in H.
  destruct (randint rnd (S n) 1 _) as [[py n2]| |] eqn:E2; try discriminate.
  apply randint_counter in E2. subst n2. cbn [bind] in H.
  destruct (np_get (mask blob) py px) as [m| |] eqn:Em; try discriminate.
  cbn [bind] in H.
  destruct (m =? 1)%Z eqn:E.
  - apply Z.eqb_eq in E. subst m.
    destruct (try_sample self _ _ (samples ++ accepted)) as [samples'| |] eqn:Et;
      try discriminate.
    cbn [bind] in H. injection H as <-. cbn [fst snd].
    destruct (try_sample_cases _ _ _ _ _ Et) as [->|[-> Hsep]].
    + exists accepted.
      split; [reflexivity|split; [reflexivity|split; [lia|exact Hacc]]].
    + exists (accepted ++ [((px + left (bbox blob))%Z, (py + top (bbox blob))%Z)]).
      split; [now rewrite app_assoc|]. split; [reflexivity|].
      split; [rewrite length_app; simpl; lia|].
      apply accepted_on_blob_snoc; [exact Hacc| |exact Hsep].
      cbn [fst snd].
      replace (py + top (bbox blob) - top (bbox blob))%Z with py by lia.
      replace (px + left (bbox blob) - left (bbox blob))%Z with px by lia.
      exact Em.
  - injection H as <-. exists accepted.
    split; [reflexivity|split; [reflexivity|split; [lia|exact Hacc]]].
Qed.


(** A run on the blob that covers the 3 x 3 map, with a radius map whose
    value at the pixel (1, 1) never makes the test of the loop true: every
    one of the 30 candidates is inside the mask and is accepted. *)
Section FullMask.
Variable self : NewDataset.
Variable r : npfloat.
Hypothesis radius_1_1 : radius_at self 1 1 = Ok r.
Hypothesis never_closer : closer_than_mean 0 r r = false.

Lemma full_mask_flag (k : nat) :
  separation_flag self 1 1 r (repeat (1, 1)%Z k) = Ok true.
Proof.
  induction k as [|k IH]; [reflexivity|].
  cbn [repeat separation_flag fst snd]. rewrite radius_1_1, bind_Ok.
  unfold distance. cbn [fst snd]. eval_Z. rewrite sqrt_0.
  rewrite never_closer. exact IH.
Qed.

Lemma full_mask_try (k : nat) :
  try_sample self 1 1 (repeat (1, 1)%Z k) = Ok (repeat (1, 1)%Z (S k)).
Proof.
  unfold try_sample. rewrite radius_1_1, bind_Ok, full_mask_flag, bind_Ok.
  now rewrite <- repeat_cons.
Qed.

Lemma full_mask_trial (k n : nat) (i : Z) :
  blob_trial self rnd_low blob_full (repeat (1, 1)%Z k, n) i
  = Ok (repeat (1, 1)%Z (S k), S (S n)).
Proof.
  unfold blob_trial. cbn [fst snd]. eval_randint.
  change (np_get (mask blob_full) 1 1) with (Ok 1%Z). rewrite bind_Ok.
  change (1 =? 1)%Z with true. cbv iota.
  change (1 + left (bbox blob_full))%Z with 1%Z.
  change (1 + top (bbox blob_full))%Z with 1%Z.
  now rewrite full_mask_try, bind_Ok.
Qed.

Lemma full_mask_trials (l : list Z) (k n : nat) :
  foldM (blob_trial self rnd_low blob_full) l (repeat (1, 1)%Z k, n)
  = Ok (repeat (1, 1)%Z (length l + k), (2 * length l + n)%nat).
Proof.
  revert k n; induction l as [|a l IH]; intros k n; [reflexivity|].
  rewrite foldM_cons, full_mask_trial, bind_Ok, IH.
  replace (length l + S k)%nat with (length (a :: l) + k)%nat by (simpl; lia).
  replace (2 * length l + S (S n))%nat with (2 * length (a :: l) + n)%nat
    by (simpl; lia).
  reflexivity.
Qed.

Lemma full_mask_any_run :
  importanceSamplingBlob self rnd_low blob_full [] false 0
  = Ok (repeat (1, 1)%Z 30, 60%nat).
Proof.
  unfold importanceSamplingBlob.
  change (@nil (Z * Z)) with (repeat (1, 1)%Z 0).
  rewrite full_mask_trials. reflexivity.
Qed.
End FullMask.

Lemma full_mask_radius : radius_at dataset_full_mask 1 1 = Ok (Finite 0).
Proof. reflexivity. Qed.

Lemma full_mask_run :
  importanceSamplingBlob dataset_full_mask rnd_low blob_full [] false 0
  = Ok (repeat (1, 1)%Z 30, 60%nat).
Proof.
  apply (full_mask_any_run dataset_full_mask (Finite 0) full_mask_radius).
  rewrite closer_than_mean_numbers. apply Rltb_false. lra.
Qed.

Lemma nan_mask_frequencies :
  computeFrequencies dataset_nan_mask ["Pocillopora"%string] = Ok dataset_nan_mask.
Proof.
  unfold computeFrequencies. cbn [dataset_nan_mask map_w map_h blobs mapM].
  unfold class_area. cbn [fold_left].
  unfold blob_full. cbn [area class_name]. eval_names.
  change (3 * 3)%Z with 9%Z. rewrite py_div_ok by lra.
  rewrite !bind_Ok. unfold set_frequencies.
  cbn [map_w map_h blobs val_area test_area labels radius_map].
  replace ((0 + 9) / 9) with 1 by lra. reflexivity.
Qed.

Lemma nan_mask_radius : radius_at dataset_nan_mask 1 1 = Ok NaN.
Proof. reflexivity. Qed.

Lemma nan_mask_run :
  importanceSamplingBlob dataset_nan_mask rnd_low blob_full [] false 0
  = Ok (repeat (1, 1)%Z 30, 60%nat).
Proof.
  exact (full_mask_any_run dataset_nan_mask NaN nan_mask_radius eq_refl).
Qed.



(** ** Divisions by zero *)

Lemma np_fdiv_number (x y : R) : y <> 0 -> np_fdiv x y = Finite (x / y).
Proof. intros H. unfold np_fdiv. now rewrite (proj2 (Req_b_false y 0) H). Qed.

Lemma np_fdiv_nan (x y : R) : x = 0 -> y = 0 -> np_fdiv x y = NaN.
Proof.
  intros -> ->. unfold np_fdiv.
  rewrite (proj2 (Req_b_true 0 0) eq_refl).
  now rewrite (proj2 (Rltb_false 0 0)) by lra.
Qed.

Lemma np_add_nan_r (a : npfloat) : np_add a NaN = NaN.
Proof. now destruct a. Qed.

Lemma np_fdiv_above (x : R) : 0 < x -> np_fdiv x 0 = PosInf.
Proof.
  intros H. unfold np_fdiv. rewrite (proj2 (Req_b_true 0 0) eq_refl).
  now rewrite (proj2 (Rltb_true 0 x) H).
Qed.

Lemma np_fdiv_below (x : R) : x < 0 -> np_fdiv x 0 = NegInf.
Proof.
  intros H. unfold np_fdiv. rewrite (proj2 (Req_b_true 0 0) eq_refl).
  rewrite (proj2 (Rltb_false 0 x)) by lra.
  now rewrite (proj2 (Rltb_true x 0) H).
Qed.

(** ** The sort of the candidates *)

Lemma np_ltb_asym (a b : npfloat) : np_ltb a b = true -> np_ltb b a = false.
Proof.
  destruct a as [x| | |], b as [y| | |]; cbn [np_ltb]; try discriminate;
    try reflexivity.
  intros H. apply Rltb_true in H. apply Rltb_false. lra.
Qed.

Lemma np_ltb_irrefl (a : npfloat) : np_ltb a a = false.
Proof. destruct a as [x| | |]; cbn [np_ltb]; try reflexivity. apply Rltb_false. lra. Qed.

Lemma np_geb_number (a b : npfloat) :
  is_nan a = false -> is_nan b = false -> np_geb a b = negb (np_ltb a b).
Proof. destruct a, b; cbn [is_nan np_geb]; intros; try discriminate; reflexivity. Qed.

Lemma np_geb_true (a b : npfloat) :
  np_geb a b = true -> is_nan a = false /\ is_nan b = false /\ np_ltb a b = false.
Proof.
  destruct a, b; cbn [np_geb is_nan]; intros H; try discriminate;
    (split; [reflexivity|split; [reflexivity|]]);
    now apply negb_true_iff in H.
Qed.

Lemma np_geb_trans (a b c : npfloat) :
  np_geb b a = true -> np_geb c b = true -> np_geb c a = true.
Proof.
  destruct a as [x| | |], b as [y| | |], c as [z| | |];
    cbn [np_geb np_ltb negb]; try discriminate; try reflexivity.
  rewrite !negb_true_iff, !Rltb_false. lra.
Qed.

Lemma insert_by_score_perm (x : candidate) (l : list candidate) :
  Permutation (insert_by_score x l) (x :: l).
Proof.
  induction l as [|y l IH]; simpl; [reflexivity|].
  destruct (np_ltb (aggregated_score y) (aggregated_score x)); [|reflexivity].
  rewrite IH. apply perm_swap.
Qed.

Lemma stable_sort_perm (l : list candidate) : Permutation (stable_sort l) l.
Proof.
  induction l as [|x l IH]; simpl; [reflexivity|].
  rewrite insert_by_score_perm. now constructor.
Qed.

Lemma insert_by_score_HdRel (x y : candidate) (l : list candidate) :
  HdRel le_score y l -> le_score y x -> HdRel le_score y (insert_by_score x l).
Proof.
  intros Hl Hyx. destruct l as [|z l]; simpl; [now constructor|].
  destruct (np_ltb (aggregated_score z) (aggregated_score x)).
  - constructor. now inversion Hl.
  - now constructor.
Qed.

Lemma le_score_of_ltb (x y : candidate) :
  np_ltb (aggregated_score y) (aggregated_score x) = true -> le_score y x.
Proof.
  intros H. unfold le_score. pose proof (np_ltb_asym _ _ H) as Hasym.
  destruct (aggregated_score x), (aggregated_score y);
    cbn [np_ltb] in H; try discriminate; cbn [np_geb];
    now rewrite ?Hasym.
Qed.

Lemma insert_by_score_sorted (x : candidate) (l : list candidate) :
  is_nan (aggregated_score x) = false ->
  Forall (fun c => is_nan (aggregated_score c) = false) l ->
  Sorted le_score l -> Sorted le_score (insert_by_score x l).
Proof.
  intros Hx. induction l as [|y l IH]; intros Hnan Hs; simpl.
  - repeat constructor.
  - inversion Hs as [|? ? Hl Hhd]; subst.
    inversion Hnan as [|? ? Hy Hnan']; subst.
    destruct (np_ltb (aggregated_score y) (aggregated_score x)) eqn:E.
    + constructor; [now apply IH|].
      apply insert_by_score_HdRel; [exact Hhd|]. now apply le_score_of_ltb.
    + constructor; [exact Hs|]. constructor. unfold le_score.
      now rewrite np_geb_number, E.
Qed.

Lemma stable_sort_sorted (l : list candidate) :
  numbers_only l -> StronglySorted le_score (stable_sort l).
Proof.
  intros Hnan. apply Sorted_StronglySorted.
  - intros a b c Hab Hbc. unfold le_score in *. eapply np_geb_trans; eassumption.
  - induction l as [|x l IH]; simpl; [constructor|].
    inversion Hnan as [|? ? Hx Hl]; subst.
    apply insert_by_score_sorted; [exact Hx| |now apply IH].
    apply Forall_forall. intros c Hc.
    apply (Permutation_in c (stable_sort_perm l)) in Hc.
    unfold numbers_only in Hl. rewrite Forall_forall in Hl. now apply Hl.
Qed.

Lemma stable_sort_head (l : list candidate) (best : candidate)
  (rest : list candidate) :
  numbers_only l -> stable_sort l = best :: rest ->
  forall c, In c l -> le_score best c.
Proof.
  intros Hnan Hsort c Hc.
  pose proof (stable_sort_sorted l Hnan) as Hs. rewrite Hsort in Hs.
  assert (Hbest : In best l).
  { apply (Permutation_in best (stable_sort_perm l)). rewrite Hsort. now left. }
  apply (Permutation_in c (Permutation_sym (stable_sort_perm l))) in Hc.
  rewrite Hsort in Hc. inversion Hs as [|? ? _ Hall]; subst.
  destruct Hc as [<-|Hc].
  - unfold le_score. unfold numbers_only in Hnan. rewrite Forall_forall in Hnan.
    rewrite np_geb_number by now apply Hnan. now rewrite np_ltb_irrefl.
  - rewrite Forall_forall in Hall. now apply Hall.
Qed.

(** A list in which no entry is below the one before it is left as it is
    by the stable sort, whatever its scores are. *)
Lemma stable_sort_ascending (l : list candidate) :
  ascending l = true -> stable_sort l = l.
Proof.
  induction l as [|x l IH]; intros Hs; [reflexivity|].
  cbn [stable_sort fold_right]. fold (stable_sort l).
  destruct l as [|y l]; [reflexivity|].
  cbn [ascending] in Hs. apply andb_true_iff in Hs as [Hxy Hl].
  rewrite (IH Hl). cbn [insert_by_score].
  apply negb_true_iff in Hxy. now rewrite Hxy.
Qed.

Lemma existsb_is_nan (l : list candidate) :
  existsb (fun c => is_nan (aggregated_score c)) l = false <-> numbers_only l.
Proof.
  unfold numbers_only. induction l as [|x l IH]; cbn [existsb].
  - split; [constructor|reflexivity].
  - rewrite orb_false_iff, IH. split.
    + intros [Hx Hl]. now constructor.
    + intros H. inversion H; subst. now split.
Qed.

(** The sort returns exactly when the list is ascending or holds no nan,
    and what it returns is the stable sorted order. *)
Lemma sort_by_score_inv (l sorted : list candidate) :
  sort_by_score l = Ok sorted ->
  sorted = stable_sort l /\ (ascending l = true \/ numbers_only l).
Proof.
  unfold sort_by_score. destruct (ascending l) eqn:Ea.
  - intros [= <-]. split; [now rewrite stable_sort_ascending|now left].
  - destruct (existsb _ l) eqn:En; [discriminate|].
    intros [= <-]. split; [reflexivity|]. right. now apply existsb_is_nan.
Qed.

Lemma sort_by_score_numbers (l : list candidate) :
  numbers_only l -> sort_by_score l = Ok (stable_sort l).
Proof.
  intros Hnan. unfold sort_by_score. destruct (ascending l) eqn:Ea.
  - now rewrite stable_sort_ascending.
  - now rewrite (proj2 (existsb_is_nan l) Hnan).
Qed.

Lemma sort_by_score_ascending (l : list candidate) :
  ascending l = true -> sort_by_score l = Ok l.
Proof. intros H. unfold sort_by_score. now rewrite H. Qed.

(** ** The choice of the test area *)

Lemma first_disjoint_some (v : box Z) (l : list candidate) (i : nat) (c : candidate) :
  nth_error l i = Some c ->
  overlap v (candidate_area c) < 10 ->
  (forall j c', (j < i)%nat -> nth_error l j = Some c' ->
                10 <= overlap v (candidate_area c')) ->
  first_disjoint v l = Some (candidate_area c).
Proof.
  revert i; induction l as [|x l IH]; intros i Hi Hc Hbefore.
  - destruct i; discriminate.
  - simpl. destruct i as [|i]; simpl in Hi.
    + injection Hi as <-. unfold overlap in Hc.
      now rewrite (proj2 (Rltb_true _ _) Hc).
    + assert (Hx : 10 <= overlap v (candidate_area x))
        by (apply (Hbefore 0%nat x); [lia|reflexivity]).
      unfold overlap in Hx. rewrite (proj2 (Rltb_false _ _) Hx).
      apply (IH i Hi Hc). intros j c' Hj Hj'.
      apply (Hbefore (S j) c'); [lia|exact Hj'].
Qed.

Lemma first_disjoint_none (v : box Z) (l : list candidate) :
  (forall c, In c l -> 10 <= overlap v (candidate_area c)) ->
  first_disjoint v l = None.
Proof.
  induction l as [|x l IH]; intros H; simpl; [reflexivity|].
  assert (Hx : 10 <= overlap v (candidate_area x)) by (apply H; now left).
  unfold overlap in Hx. rewrite (proj2 (Rltb_false _ _) Hx).
  apply IH. intros c Hc. apply H. now right.
Qed.

Lemma first_disjoint_inv (v : box Z) (l : list candidate) (t : box Z) :
  first_disjoint v l = Some t ->
  exists i c, nth_error l i = Some c /\ t = candidate_area c
              /\ overlap v t < 10
              /\ forall j c', (j < i)%nat -> nth_error l j = Some c' ->
                              10 <= overlap v (candidate_area c').
Proof.
  induction l as [|x l IH]; simpl; [discriminate|].
  destruct (Rltb _ 10) eqn:E.
  - intros [= <-]. apply Rltb_true in E. exists 0%nat, x.
    repeat split; auto. intros j c' Hj. lia.
  - intros H. apply Rltb_false in E.
    destruct (IH H) as (i & c & Hi & Ht & Hlt & Hbefore).
    exists (S i), c. repeat split; auto.
    intros [|j] c' Hj Hj'; simpl in Hj'.
    + now injection Hj' as <-.
    + apply (Hbefore j c'); [lia|exact Hj'].
Qed.

(** ** From the candidates to the two areas *)

Lemma length_computeExactCoverage (self : NewDataset) (area_ : box Z)
  (target_classes : list string) (coverage : list R) :
  computeExactCoverage self area_ target_classes = Ok coverage ->
  length coverage = length target_classes.
Proof.
  unfold computeExactCoverage. destruct (labels self); [|discriminate].
  intros H. apply mapM_length in H. rewrite H, length_range. lia.
Qed.

Lemma calculateMetrics_lengths (self : NewDataset) (area_ : box Z)
  (target_classes : list string) (number : list nat) (coverage PSCV : list R) :
  calculateMetrics self area_ target_classes = Ok (number, coverage, PSCV) ->
  length number = length target_classes
  /\ length coverage = length target_classes
  /\ length PSCV = length target_classes.
Proof.
  unfold calculateMetrics. intros H.
  destruct (mapM _ (enumerate target_classes)) as [per_class| |] eqn:E1;
    try discriminate. cbn [bind] in H.
  destruct (computeExactCoverage self area_ target_classes) as [cov| |] eqn:E2;
    try discriminate. cbn [bind] in H. injection H as <- <- <-.
  apply mapM_length in E1. rewrite length_enumerate in E1.
  apply length_computeExactCoverage in E2.
  rewrite !length_map. auto.
Qed.

Lemma item_total {A : Type} (l : list A) (i : nat) :
  (i < length l)%nat -> exists x, item l i = Ok x.
Proof.
  intros H. unfold item. destruct (nth_error l i) eqn:E; [eauto|].
  apply nth_error_None in E. lia.
Qed.

Lemma calculateScore_total (area_number : list nat) (area_coverage area_PSCV : list R)
  (landscape_number : list nat) (landscape_coverage landscape_PSCV : list R) :
  length area_coverage = length area_number ->
  length area_PSCV = length area_number ->
  length landscape_number = length area_number ->
  length landscape_coverage = length area_number ->
  length landscape_PSCV = length area_number ->
  exists scores,
    calculateScore area_number area_coverage area_PSCV
      landscape_number landscape_coverage landscape_PSCV = Ok scores.
Proof.
  intros H1 H2 H3 H4 H5. unfold calculateScore. apply mapM_total.
  intros i Hi. apply in_seq in Hi. simpl in Hi.
  destruct (item_total landscape_number i) as [ln Hln]; [lia|].
  rewrite Hln. cbn [bind]. destruct (0 <? ln)%nat; [|eauto].
  unfold class_distances.
  destruct (item_total area_number i) as [an Han]; [lia|].
  destruct (item_total area_coverage i) as [ac Hac]; [lia|].
  destruct (item_total landscape_coverage i) as [lc Hlc]; [lia|].
  destruct (item_total area_PSCV i) as [ap Hap]; [lia|].
  destruct (item_total landscape_PSCV i) as [lp Hlp]; [lia|].
  rewrite Han, Hac, Hlc, Hap, Hlp. cbn [bind]. eauto.
Qed.

Lemma search_trial_step (self : NewDataset) (rnd : Random)
  (target_classes : list string) (landscape : metrics) (b : Bounds)
  (area_w area_h : Z) (st st' : list candidate * nat) (i : Z) :
  search_trial self rnd target_classes landscape b area_w area_h st i = Ok st' ->
  exists c, fst st' = fst st ++ [c] /\ measured self target_classes c.
Proof.
  unfold search_trial. destruct landscape as [[ln lc] lp]. intros H.
  destruct (draw_area self rnd area_w area_h (snd st)) as [[a n1]| |];
    try discriminate. cbn [bind] in H.
  destruct (calculateMetrics self a target_classes) as [[[an ac] ap]| |] eqn:E;
    try discriminate. cbn [bind] in H.
  destruct (calculateNormalizedScore b an ac ap ln lc lp) as [scores| |];
    try discriminate. cbn [bind] in H.
  destruct (mean_score scores) as [agg| |]; try discriminate. cbn [bind] in H.
  injection H as <-. cbn [fst]. eexists. split; [reflexivity|].
  unfold measured, candidate_area. cbn [fst]. eauto.
Qed.

Lemma scored_candidates_inv (self : NewDataset) (rnd : Random)
  (target_classes : list string) (n n' : nat) (landscape : metrics)
  (area_info : list candidate) :
  scored_candidates self rnd target_classes n = Ok (landscape, area_info, n') ->
  calculateMetrics self (Box 0%Z 0%Z (map_w self) (map_h self)) target_classes
  = Ok landscape
  /\ length area_info = 5000%nat
  /\ forall c, In c area_info -> measured self target_classes c.
Proof.
  unfold scored_candidates. cbv zeta. intros H.
  destruct (calculateMetrics self _ target_classes) as [ls| |] eqn:E0;
    try discriminate. cbn [bind] in H.
  destruct (foldM (normalization_trial _ _ _ _ _ _) _ _) as [[[[sn sc] sP] n1]| |];
    try discriminate. cbn [bind] in H.
  destruct (normalization_bounds sn sc sP) as [b| |]; try discriminate.
  cbn [bind] in H.
  destruct (foldM (search_trial _ _ _ _ _ _ _) _ _) as [[info n2]| |] eqn:E2;
    try discriminate. cbn [bind] in H. injection H as <- <- <-.
  split; [reflexivity|].
  pose (Inv := fun (k : nat) (st : list candidate * nat) =>
                 length (fst st) = k
                 /\ forall c, In c (fst st) -> measured self target_classes c).
  assert (Hend : Inv (0 + length (range 5000))%nat (info, n2)).
  { apply (foldM_counting Inv _) with (s := ([], n1)) (l := range 5000) (3 := E2).
    - intros k s a s' [Hlen Hall] Hstep.
      destruct (search_trial_step _ _ _ _ _ _ _ _ _ _ Hstep) as (c & Hs & Hc).
      split; rewrite Hs.
      + rewrite length_app, Hlen. simpl. lia.
      + intros c' Hin. apply in_app_or in Hin.
        destruct Hin as [Hin|[<-|[]]]; auto.
    - split; [reflexivity|intros c []]. }
  rewrite length_range in Hend. destruct Hend as [Hlen Hall]. cbn [fst] in *.
  split; [exact Hlen|exact Hall].
Qed.

Lemma select_areas_value (self : NewDataset) (target_classes : list string)
  (landscape : metrics) (area_info : list candidate)
  (best : candidate) (rest : list candidate) :
  calculateMetrics self (Box 0%Z 0%Z (map_w self) (map_h self)) target_classes
  = Ok landscape ->
  (forall c, In c area_info -> measured self target_classes c) ->
  sort_by_score area_info = Ok (best :: rest) ->
  select_areas self target_classes landscape area_info
  = match first_disjoint (candidate_area best) (best :: rest) with
    | Some test_area_ => Ok (candidate_area best, test_area_)
    | None => Raise UnboundLocalError
    end.
Proof.
  intros Hland Hall Hsort. unfold select_areas.
  destruct landscape as [[ln lc] lp]. rewrite Hsort. cbn [bind].
  assert (Hbest : In best area_info).
  { destruct (sort_by_score_inv _ _ Hsort) as [Hs _].
    apply (Permutation_in best (stable_sort_perm area_info)).
    rewrite <- Hs. now left. }
  destruct (Hall best Hbest) as [[[an ac] ap] Hm]. rewrite Hm. cbn [bind].
  destruct (calculateMetrics_lengths _ _ _ _ _ _ Hm) as (Ha1 & Ha2 & Ha3).
  destruct (calculateMetrics_lengths _ _ _ _ _ _ Hland) as (Hl1 & Hl2 & Hl3).
  destruct (calculateScore_total an ac ap ln lc lp) as [scores Hscores];
    try congruence.
  rewrite Hscores. cbn [bind]. reflexivity.
Qed.

Lemma select_areas_sorted (self : NewDataset) (target_classes : list string)
  (landscape : metrics) (area_info : list candidate) :
  select_areas self target_classes landscape area_info
  = (sorted <- sort_by_score area_info ;;
     select_sorted self target_classes landscape sorted).
Proof.
  unfold select_areas, select_sorted. now destruct landscape as [[ln lc] lp].
Qed.

Lemma select_sorted_value (self : NewDataset) (target_classes : list string)
  (landscape : metrics) (best : candidate) (rest : list candidate) :
  calculateMetrics self (Box 0%Z 0%Z (map_w self) (map_h self)) target_classes
  = Ok landscape ->
  measured self target_classes best ->
  select_sorted self target_classes landscape (best :: rest)
  = match first_disjoint (candidate_area best) (best :: rest) with
    | Some test_area_ => Ok (candidate_area best, test_area_)
    | None => Raise UnboundLocalError
    end.
Proof.
  intros Hland [[[an ac] ap] Hm]. unfold select_sorted.
  destruct landscape as [[ln lc] lp]. rewrite bind_Ok, Hm, bind_Ok.
  destruct (calculateMetrics_lengths _ _ _ _ _ _ Hm) as (Ha1 & Ha2 & Ha3).
  destruct (calculateMetrics_lengths _ _ _ _ _ _ Hland) as (Hl1 & Hl2 & Hl3).
  destruct (calculateScore_total an ac ap ln lc lp) as [scores Hscores];
    try congruence.
  now rewrite Hscores, bind_Ok.
Qed.

Lemma sort_by_score_nonempty (area_info sorted : list candidate) :
  length area_info = 5000%nat -> sort_by_score area_info = Ok sorted ->
  exists best rest, sorted = best :: rest.
Proof.
  intros Hlen Hsort. destruct (sort_by_score_inv _ _ Hsort) as [-> _].
  destruct (stable_sort area_info) as [|best rest] eqn:E; [|eauto].
  pose proof (Permutation_length (stable_sort_perm area_info)) as Hp.
  rewrite E, Hlen in Hp. discriminate.
Qed.

Lemma findAreas_value (self : NewDataset) (rnd : Random)
  (target_classes : list string) (n n' : nat) (landscape : metrics)
  (area_info : list candidate) (best : candidate) (rest : list candidate) :
  scored_candidates self rnd target_classes n = Ok (landscape, area_info, n') ->
  sort_by_score area_info = Ok (best :: rest) ->
  findAreas self rnd target_classes n
  = match first_disjoint (candidate_area best) (best :: rest) with
    | Some test_area_ => Ok (candidate_area best, test_area_, n')
    | None => Raise UnboundLocalError
    end.
Proof.
  intros Hcand Hsort. unfold findAreas. rewrite Hcand. cbn [bind].
  destruct (scored_candidates_inv _ _ _ _ _ _ _ Hcand) as (Hland & _ & Hall).
  rewrite (select_areas_value _ _ _ _ best rest Hland Hall Hsort).
  destruct (first_disjoint _ _); reflexivity.
Qed.

(** When every candidate overlaps the best one by 10 px² or more, the loop
    of [findAreas] ends without a [test_area], and the [return] fails on
    the unbound name. *)
Lemma findAreas_unbound (self : NewDataset) (rnd : Random)
  (target_classes : list string) (n n' : nat) (landscape : metrics)
  (area_info : list candidate) (best : candidate) (rest : list candidate) :
  scored_candidates self rnd target_classes n = Ok (landscape, area_info, n') ->
  sort_by_score area_info = Ok (best :: rest) ->
  (forall c, In c area_info ->
             10 <= overlap (candidate_area best) (candidate_area c)) ->
  findAreas self rnd target_classes n = Raise UnboundLocalError.
Proof.
  intros Hcand Hsort Hall.
  rewrite (findAreas_value _ _ _ _ _ _ _ best rest Hcand Hsort).
  rewrite first_disjoint_none; [reflexivity|].
  intros c Hc. apply Hall.
  destruct (sort_by_score_inv _ _ Hsort) as [Hs _].
  apply (Permutation_in c (stable_sort_perm area_info)). now rewrite <- Hs.
Qed.


(** ** The search on a blank map *)

Lemma sqrt_15_100_bounds : 38 / 100 <= sqrt (15 / 100) < 39 / 100.
Proof.
  split.
  - rewrite <- (sqrt_square (38 / 100)) by lra. apply sqrt_le_1_alt. lra.
  - rewrite <- (sqrt_square (39 / 100)) by lra. apply sqrt_lt_1_alt. lra.
Qed.

Lemma area_side_100 : py_int (sqrt (15 / 100) * 100) = 38%Z.
Proof.
  pose proof sqrt_15_100_bounds as [Hlo Hhi].
  rewrite py_int_nonneg by lra. apply Zfloor_eq. lra.
Qed.

Lemma blank_metrics (area_ : box Z) :
  (width area_ * height area_ <> 0)%Z ->
  exists coverage,
    calculateMetrics dataset_blank_100 area_ ["A"%string]
    = Ok ([0%nat], coverage, [0]).
Proof.
  intros HA.
  destruct (computeExactCoverage_total dataset_blank_100 area_ ["A"%string])
    as [coverage Hcov]; [eexists; reflexivity|exact HA|].
  exists coverage. unfold calculateMetrics.
  cbn [enumerate length seq combine mapM].
  unfold class_metrics, counted_areas, frequency_at.
  cbn [dataset_blank_100 frequencies nth_error fst snd bind].
  r_decide. cbn [bind length Nat.ltb Nat.leb map fst snd]. rewrite Hcov. reflexivity.
Qed.

Lemma np_min_axis0_total (rows : list (list R)) :
  rows <> [] -> exists v, np_min_axis0 rows = Ok v.
Proof.
  destruct rows as [|r rows]; [congruence|]. intros _. unfold np_min_axis0.
  apply mapM_total. intros i _. cbn [map np_min]. eauto.
Qed.

Lemma np_max_axis0_total (rows : list (list R)) :
  rows <> [] -> exists v, np_max_axis0 rows = Ok v.
Proof.
  destruct rows as [|r rows]; [congruence|]. intros _. unfold np_max_axis0.
  apply mapM_total. intros i _. cbn [map np_max]. eauto.
Qed.

Lemma normalization_bounds_total (sn sc sP : list (list R)) :
  sn <> [] -> sc <> [] -> sP <> [] ->
  exists b, normalization_bounds sn sc sP = Ok b.
Proof.
  intros Hn Hc HP. unfold normalization_bounds.
  destruct (np_min_axis0_total sn Hn) as [v1 ->].
  destruct (np_max_axis0_total sn Hn) as [v2 ->].
  destruct (np_min_axis0_total sc Hc) as [v3 ->].
  destruct (np_max_axis0_total sc Hc) as [v4 ->].
  destruct (np_min_axis0_total sP HP) as [v5 ->].
  destruct (np_max_axis0_total sP HP) as [v6 ->].
  cbn [bind]. eauto.
Qed.

Lemma nth_error_map_seq {A : Type} (f : nat -> A) (m k : nat) :
  (k < m)%nat -> nth_error (map f (seq 0 m)) k = Some (f k).
Proof.
  intros H. apply map_nth_error.
  rewrite nth_error_nth' with (d := 0%nat) by now rewrite length_seq.
  now rewrite seq_nth.
Qed.

Lemma equal_scores_ascending (l : list candidate) (x : npfloat) :
  (forall c, In c l -> aggregated_score c = x) -> ascending l = true.
Proof.
  induction l as [|a l IH]; intros H; [reflexivity|].
  cbn [ascending]. destruct l as [|b l]; [reflexivity|].
  rewrite (H a (or_introl eq_refl)), (H b (or_intror (or_introl eq_refl))).
  rewrite np_ltb_irrefl. cbn [negb andb].
  apply IH. intros c Hc. apply H. now right.
Qed.

Section BlankMap.
Variable rnd : Random.
Hypothesis unit_factor : forall n a b, uniform_draw rnd n a b = 1.

Lemma blank_draw (n : nat) :
  draw_area dataset_blank_100 rnd 38 38 n
  = Ok (Box (randint_draw rnd (S (S n)) 0 61) (randint_draw rnd (S n) 0 61) 38%Z 38%Z,
        S (S (S n))).
Proof.
  unfold draw_area, uniform. rewrite unit_factor.
  rewrite py_div_ok by lra. cbn [bind].
  replace (38 / 1) with 38 by lra. replace (38 * 1) with 38 by lra.
  rewrite py_int_IZR. reflexivity.
Qed.

Lemma blank_normalization_trial (cov0 : list R) (sn sc sP : list (list R))
  (n : nat) (i : Z) :
  normalization_trial dataset_blank_100 rnd ["A"%string] ([0%nat], cov0, [0])
    38 38 (sn, sc, sP, n) i
  = Ok (sn ++ [[0]], sc ++ [[0]], sP ++ [[0]], S (S (S n))).
Proof.
  unfold normalization_trial. rewrite blank_draw. cbn [bind].
  destruct (blank_metrics (Box (randint_draw rnd (S (S n)) 0 61)
                               (randint_draw rnd (S n) 0 61) 38%Z 38%Z))
    as [cov Hcov]; [cbn; lia|].
  rewrite Hcov. reflexivity.
Qed.

Lemma blank_normalization (cov0 : list R) (l : list Z)
  (sn sc sP : list (list R)) (n : nat) :
  foldM (normalization_trial dataset_blank_100 rnd ["A"%string]
           ([0%nat], cov0, [0]) 38 38)
        l (sn, sc, sP, n)
  = Ok (sn ++ repeat [0] (length l), sc ++ repeat [0] (length l),
        sP ++ repeat [0] (length l), (3 * length l + n)%nat).
Proof.
  revert sn sc sP n; induction l as [|a l IH]; intros sn sc sP n.
  - cbn [foldM length repeat]. now rewrite !app_nil_r.
  - rewrite foldM_cons, blank_normalization_trial, bind_Ok, IH.
    cbn [length repeat]. rewrite <- !app_assoc. cbn [app].
    do 2 f_equal. lia.
Qed.

Lemma blank_search_trial (cov0 : list R) (b : Bounds)
  (info : list candidate) (n : nat) (i : Z) :
  search_trial dataset_blank_100 rnd ["A"%string] ([0%nat], cov0, [0]) b
    38 38 (info, n) i
  = Ok (info ++ [blank_candidate rnd n], S (S (S n))).
Proof.
  unfold search_trial. cbn [fst snd]. rewrite blank_draw, bind_Ok.
  destruct (blank_metrics (Box (randint_draw rnd (S (S n)) 0 61)
                               (randint_draw rnd (S n) 0 61) 38%Z 38%Z))
    as [cov Hcov]; [cbn; lia|].
  rewrite Hcov, bind_Ok.
  change (calculateNormalizedScore b [0%nat] cov [0] [0%nat] cov0 [0])
    with (Ok [Finite 0]).
  rewrite bind_Ok. unfold mean_score, np_sum.
  cbn [fold_left length INR np_add np_div_by]. rewrite bind_Ok.
  replace ((0 + 0) / 1) with 0 by lra. reflexivity.
Qed.

Lemma blank_search (cov0 : list R) (b : Bounds) (l : list Z)
  (info : list candidate) (n : nat) :
  foldM (search_trial dataset_blank_100 rnd ["A"%string] ([0%nat], cov0, [0]) b
           38 38)
        l (info, n)
  = Ok (info ++ map (fun k => blank_candidate rnd (3 * k + n)) (seq 0 (length l)),
        (3 * length l + n)%nat).
Proof.
  revert info n; induction l as [|a l IH]; intros info n.
  - cbn [foldM length seq map]. now rewrite app_nil_r.
  - rewrite foldM_cons, blank_search_trial, bind_Ok, IH.
    cbn [length seq map]. rewrite <- app_assoc. cbn [app].
    rewrite <- seq_shift, map_map.
    replace (3 * S (length l) + n)%nat with (3 * length l + S (S (S n)))%nat by lia.
    replace (3 * 0 + n)%nat with n by lia.
    rewrite (map_ext (fun x => blank_candidate rnd (3 * S x + n))
                     (fun k => blank_candidate rnd (3 * k + S (S (S n)))));
      [reflexivity|].
    intros k. f_equal. lia.
Qed.

Lemma blank_scored_candidates (n : nat) :
  exists cov0,
    scored_candidates dataset_blank_100 rnd ["A"%string] n
    = Ok (([0%nat], cov0, [0]),
          map (fun k => blank_candidate rnd (3 * k + (3 * 500 + n))) (seq 0 5000),
          (3 * 5000 + (3 * 500 + n))%nat).
Proof.
  destruct (blank_metrics (Box 0 0 100 100)%Z) as [cov0 Hcov0]; [cbn; lia|].
  exists cov0. unfold scored_candidates. cbv zeta.
  cbn [dataset_blank_100 map_w map_h].
  rewrite area_side_100, Hcov0, bind_Ok.
  rewrite blank_normalization, bind_Ok. cbv beta iota.
  rewrite length_range. change (Z.to_nat 500) with 500%nat.
  destruct (normalization_bounds_total ([] ++ repeat [0] 500)
              ([] ++ repeat [0] 500) ([] ++ repeat [0] 500))
    as [b Hb]; try discriminate.
  rewrite Hb, bind_Ok, blank_search, bind_Ok. cbv beta iota.
  rewrite length_range. change (Z.to_nat 5000) with 5000%nat.
  reflexivity.
Qed.
End BlankMap.

Lemma overlap_same_38 : overlap area_top_left area_top_left = 1444.
Proof. unfold overlap, bbox_intersection, box_R, area_top_left, area_bottom_right.
  cbn [top left width height]. r_decide. Qed.

Lemma overlap_corners_38 : overlap area_top_left area_bottom_right = 0.
Proof. unfold overlap, bbox_intersection, box_R, area_top_left, area_bottom_right.
  cbn [top left width height]. r_decide. Qed.

Lemma low_candidate (m : nat) :
  blank_candidate rnd_unit_low m = (area_top_left, [Finite 0], Finite 0).
Proof. reflexivity. Qed.

Lemma corners_candidate_first :
  blank_candidate rnd_two_corners (3 * 0 + (3 * 500 + 0)) = (area_top_left, [Finite 0], Finite 0).
Proof. reflexivity. Qed.

Lemma corners_candidate_later (k : nat) :
  blank_candidate rnd_two_corners (3 * S k + (3 * 500 + 0))
  = (area_bottom_right, [Finite 0], Finite 0).
Proof.
  unfold blank_candidate, rnd_two_corners. cbn [randint_draw].
  assert (H1 : (S (S (3 * S k + (3 * 500 + 0))) <? 1503)%nat = false)
    by (apply Nat.ltb_ge; lia).
  assert (H2 : (S (3 * S k + (3 * 500 + 0)) <? 1503)%nat = false)
    by (apply Nat.ltb_ge; lia).
  now rewrite H1, H2.
Qed.

Lemma low_info (m : nat) :
  map (fun k => blank_candidate rnd_unit_low (3 * k + (3 * 500 + 0))) (seq 0 (S m))
  = (area_top_left, [Finite 0], Finite 0)
    :: map (fun _ : nat => (area_top_left, [Finite 0], Finite 0)) (seq 0 m).
Proof.
  cbn [seq map]. rewrite low_candidate. f_equal.
  rewrite <- seq_shift, map_map. apply map_ext. intros k. apply low_candidate.
Qed.

Lemma corners_info (m : nat) :
  map (fun k => blank_candidate rnd_two_corners (3 * k + (3 * 500 + 0))) (seq 0 (S m))
  = (area_top_left, [Finite 0], Finite 0)
    :: map (fun _ : nat => (area_bottom_right, [Finite 0], Finite 0)) (seq 0 m).
Proof.
  cbn [seq map]. rewrite corners_candidate_first. f_equal.
  rewrite <- seq_shift, map_map. apply map_ext. intros k.
  apply corners_candidate_later.
Qed.

Lemma equal_scores_sorted (c0 c1 : box Z) (scores : list npfloat) (x : npfloat)
  (l : list nat) :
  sort_by_score ((c0, scores, x) :: map (fun _ : nat => (c1, scores, x)) l)
  = Ok ((c0, scores, x) :: map (fun _ : nat => (c1, scores, x)) l).
Proof.
  apply sort_by_score_ascending, equal_scores_ascending with (x := x).
  intros c [<-|Hc]; [reflexivity|].
  apply in_map_iff in Hc. now destruct Hc as (k & <- & _).
Qed.

(** C1, on the code.  On the blank map, with a random source that puts
    every area in the same corner, each of the 5000 candidates overlaps
    the best one by 1444 px²: the loop assigns no [test_area] and
    [findAreas] fails with [UnboundLocalError], which is no report of a
    search without a disjoint area. *)
Theorem findAreas_unbound_example :
  findAreas dataset_blank_100 rnd_unit_low ["A"%string] 0
  = Raise UnboundLocalError.
Proof.
  destruct (blank_scored_candidates rnd_unit_low (fun _ _ _ => eq_refl) 0%nat)
    as [cov0 Hcand].
  change 5000%nat with (S 4999) in Hcand at 1. rewrite low_info in Hcand.
  apply (findAreas_unbound _ _ _ _ _ _ _ _ _ Hcand (equal_scores_sorted _ _ _ _ _)).
  assert (Hself : 10 <= overlap area_top_left area_top_left)
    by (rewrite overlap_same_38; lra).
  intros c [<-|Hc]; [exact Hself|].
  apply in_map_iff in Hc. destruct Hc as (k & <- & _). exact Hself.
Qed.

(** ** The search on a map with three blobs *)

#[local] Hint Unfold blob_2px blob_4px blob_6px : datasets.
#[local] Hint Unfold area_top_left area_bottom_right area_centre area_lower
  : datasets.

Lemma pscv_2_4_6_large : 100 / 3 < pscv_2_4_6.
Proof.
  unfold pscv_2_4_6.
  assert (H : 4 / 3 < sqrt (8 / 3)).
  { rewrite <- (sqrt_square (4 / 3)) by lra. apply sqrt_lt_1_alt. lra. }
  lra.
Qed.

Lemma three_blobs_coverage (area_ : box Z) (k : nat) :
  count_equal 1
    (map (fun row => py_slice row (left area_) (left area_ + width area_))
         (py_slice labels_three_blobs (top area_) (top area_ + height area_)))
  = k ->
  (width area_ * height area_ <> 0)%Z ->
  computeExactCoverage dataset_three_blobs area_ ["A"%string]
  = Ok [INR k / IZR (width area_ * height area_)].
Proof.
  intros Hk HA. unfold computeExactCoverage.
  cbn [labels dataset_three_blobs length].
  change (range (Z.of_nat 1)) with [0%Z]. cbn [mapM].
  change (0 + 1)%Z with 1%Z. rewrite Hk.
  rewrite py_div_ok by (apply not_0_IZR; exact HA). reflexivity.
Qed.

Lemma three_blobs_frequency :
  frequency_at dataset_three_blobs 0 = Ok (12 / 10000).
Proof. reflexivity. Qed.

(** The stored frequency is the one that [computeFrequencies] sets. *)
Lemma three_blobs_frequencies :
  computeFrequencies dataset_three_blobs ["A"%string] = Ok dataset_three_blobs.
Proof.
  unfold computeFrequencies. cbn [dataset_three_blobs map_w map_h blobs mapM].
  unfold class_area. cbn [fold_left].
  unfold blob_2px, blob_4px, blob_6px. cbn [area class_name].
  eval_names.
  change (100 * 100)%Z with 10000%Z. rewrite py_div_ok by lra.
  rewrite !bind_Ok. unfold set_frequencies.
  cbn [map_w map_h blobs val_area test_area labels radius_map].
  replace ((0 + 2 + 4 + 6) / 10000) with (12 / 10000) by lra. reflexivity.
Qed.

(** The blobs that [calculateMetrics] counts in an area. *)
Lemma three_blobs_counted (area_ : box Z) (in2 in4 in6 : bool) :
  checkBlobInside (box_R area_) blob_2px (3 / 4) = Ok in2 ->
  checkBlobInside (box_R area_) blob_4px (3 / 4) = Ok in4 ->
  checkBlobInside (box_R area_) blob_6px (3 / 4) = Ok in6 ->
  counted_areas dataset_three_blobs area_ 0 "A"
  = Ok ((if in2 then [2] else [])
        ++ (if in4 then [4] else []) ++ (if in6 then [6] else [])).
Proof.
  intros H2 H4 H6. unfold counted_areas.
  rewrite three_blobs_frequency, bind_Ok. r_decide.
  cbn [dataset_three_blobs blobs areas_inside]. eval_names.
  rewrite H2, H4, H6. now destruct in2, in4, in6.
Qed.

Lemma np_std_2_4 : 100 * np_std [2; 4] / np_mean [2; 4] = 100 / 3.
Proof.
  unfold np_std, np_mean, py_sum. cbn [length map fold_left INR].
  match goal with
  | |- context [sqrt ?x] => replace x with 1 by field
  end.
  rewrite sqrt_1. field.
Qed.

Lemma np_std_2_4_6 : 100 * np_std [2; 4; 6] / np_mean [2; 4; 6] = pscv_2_4_6.
Proof.
  unfold np_std, np_mean, py_sum, pscv_2_4_6. cbn [length map fold_left INR].
  match goal with
  | |- context [sqrt ?x] => replace x with (8 / 3) by field
  end.
  field.
Qed.

Lemma np_mean_2_4 : np_mean [2; 4] <> 0.
Proof. unfold np_mean, py_sum. cbn [length fold_left INR]. lra. Qed.

Lemma np_mean_2_4_6 : np_mean [2; 4; 6] <> 0.
Proof. unfold np_mean, py_sum. cbn [length fold_left INR]. lra. Qed.

Lemma np_mean_6 : np_mean [6] <> 0.
Proof. unfold np_mean, py_sum. cbn [length fold_left INR]. lra. Qed.

(** The metrics of the whole map and of the four areas. *)
Lemma three_blobs_metrics (area_ : box Z) (areas : list R) (k : nat) (pscv : R) :
  counted_areas dataset_three_blobs area_ 0 "A" = Ok areas ->
  (if (0 <? length areas)%nat
   then np_div (100 * np_std areas) (np_mean areas) else Ok 0) = Ok pscv ->
  computeExactCoverage dataset_three_blobs area_ ["A"%string]
  = Ok [INR k / IZR (width area_ * height area_)] ->
  calculateMetrics dataset_three_blobs area_ ["A"%string]
  = Ok ([length areas], [INR k / IZR (width area_ * height area_)], [pscv]).
Proof.
  intros Hc Hp Hcov. unfold calculateMetrics.
  cbn [enumerate length seq combine mapM]. unfold class_metrics.
  cbn [fst snd]. rewrite Hc, bind_Ok.
  destruct (0 <? length areas)%nat.
  - cbv zeta. rewrite Hp, !bind_Ok. cbn [map fst snd]. now rewrite Hcov.
  - injection Hp as <-. rewrite !bind_Ok. cbn [map fst snd]. now rewrite Hcov.
Qed.

Ltac eval_blobs :=
  apply three_blobs_counted; autounfold with datasets; eval_inside.

Lemma metrics_whole_map :
  calculateMetrics dataset_three_blobs (Box 0 0 100 100)%Z ["A"%string]
  = Ok ([3%nat], [12 / 10000], [pscv_2_4_6]).
Proof.
  rewrite (three_blobs_metrics _ [2; 4; 6] 12 pscv_2_4_6).
  - cbn [length width height]. change (100 * 100)%Z with 10000%Z.
    replace (INR 12) with 12 by (simpl; lra). reflexivity.
  - change [2; 4; 6] with ((if true then [2] else [])
      ++ (if true then [4] else []) ++ (if true then [6] else [])).
    eval_blobs.
  - cbn [length Nat.ltb Nat.leb]. rewrite np_div_ok by exact np_mean_2_4_6.
    now rewrite np_std_2_4_6.
  - apply three_blobs_coverage; [vm_compute; reflexivity|cbn; lia].
Qed.

Lemma metrics_top_left :
  calculateMetrics dataset_three_blobs area_top_left ["A"%string]
  = Ok ([2%nat], [6 / 1444], [100 / 3]).
Proof.
  rewrite (three_blobs_metrics _ [2; 4] 6 (100 / 3)).
  - cbn [length width height area_top_left]. change (38 * 38)%Z with 1444%Z.
    replace (INR 6) with 6 by (simpl; lra). reflexivity.
  - change [2; 4] with ((if true then [2] else [])
      ++ (if true then [4] else []) ++ (if false then [6] else [])).
    eval_blobs.
  - cbn [length Nat.ltb Nat.leb]. rewrite np_div_ok by exact np_mean_2_4.
    now rewrite np_std_2_4.
  - apply three_blobs_coverage; [vm_compute; reflexivity|cbn; lia].
Qed.

Lemma metrics_lower :
  calculateMetrics dataset_three_blobs area_lower ["A"%string]
  = Ok ([1%nat], [6 / 1444], [0]).
Proof.
  rewrite (three_blobs_metrics _ [6] 6 0).
  - cbn [length width height area_lower]. change (38 * 38)%Z with 1444%Z.
    replace (INR 6) with 6 by (simpl; lra). reflexivity.
  - change [6] with ((if false then [2] else [])
      ++ (if false then [4] else []) ++ (if true then [6] else [])).
    eval_blobs.
  - cbn [length Nat.ltb Nat.leb]. rewrite np_div_ok by exact np_mean_6.
    rewrite np_std_single. f_equal. unfold Rdiv. lra.
  - apply three_blobs_coverage; [vm_compute; reflexivity|cbn; lia].
Qed.

Lemma metrics_centre :
  calculateMetrics dataset_three_blobs area_centre ["A"%string]
  = Ok ([3%nat], [12 / 1444], [pscv_2_4_6]).
Proof.
  rewrite (three_blobs_metrics _ [2; 4; 6] 12 pscv_2_4_6).
  - cbn [length width height area_centre]. change (38 * 38)%Z with 1444%Z.
    replace (INR 12) with 12 by (simpl; lra). reflexivity.
  - change [2; 4; 6] with ((if true then [2] else [])
      ++ (if true then [4] else []) ++ (if true then [6] else [])).
    eval_blobs.
  - cbn [length Nat.ltb Nat.leb]. rewrite np_div_ok by exact np_mean_2_4_6.
    now rewrite np_std_2_4_6.
  - apply three_blobs_coverage; [vm_compute; reflexivity|cbn; lia].
Qed.

Lemma metrics_bottom_right :
  calculateMetrics dataset_three_blobs area_bottom_right ["A"%string]
  = Ok ([0%nat], [0 / 1444], [0]).
Proof.
  rewrite (three_blobs_metrics _ [] 0 0).
  - cbn [length width height area_bottom_right]. change (38 * 38)%Z with 1444%Z.
    reflexivity.
  - change (@nil R) with ((if false then [2] else [])
      ++ (if false then [4] else []) ++ (if false then [6] else [])).
    eval_blobs.
  - reflexivity.
  - apply three_blobs_coverage; [vm_compute; reflexivity|cbn; lia].
Qed.

(** The distances and the normalized score of an area, with one target
    class that has entities on the map. *)
Lemma rangeScore_one_class (an ln : nat) (ac ap lc lp : R) :
  rangeScore [an] [ac] [ap] [S ln] [lc] [lp]
  = Ok ([Rabs (INR an / INR (S ln) * 100 - 15)], [Rabs ((ac - lc) * 100)],
        [Rabs (ap - lp)]).
Proof. reflexivity. Qed.

Lemma calculateNormalizedScore_one_class (an ln : nat) (ac ap lc lp : R)
  (n_lo n_hi c_lo c_hi P_lo P_hi : R) :
  calculateNormalizedScore
    {| sn_min := [n_lo]; sn_max := [n_hi]; sc_min := [c_lo]; sc_max := [c_hi];
       sP_min := [P_lo]; sP_max := [P_hi] |}
    [an] [ac] [ap] [S ln] [lc] [lp]
  = Ok [np_div_by
          (np_add (np_add (np_fdiv (Rabs (INR an / INR (S ln) * 100 - 15) - n_lo)
                                   (n_hi - n_lo))
                          (np_fdiv (Rabs ((ac - lc) * 100) - c_lo) (c_hi - c_lo)))
                  (np_fdiv (Rabs (ap - lp) - P_lo) (P_hi - P_lo)))
          3].
Proof. reflexivity. Qed.

(** One turn of each loop, from what the turn draws and measures. *)
Lemma normalization_trial_at (self : NewDataset) (rnd : Random)
  (target_classes : list string) (ln : list nat) (lc lp : list R)
  (area_w area_h : Z) (sn sc sP : list (list R)) (n n1 : nat) (i : Z)
  (area_ : box Z) (an : list nat) (ac ap s1 s2 s3 : list R) :
  draw_area self rnd area_w area_h n = Ok (area_, n1) ->
  calculateMetrics self area_ target_classes = Ok (an, ac, ap) ->
  rangeScore an ac ap ln lc lp = Ok (s1, s2, s3) ->
  normalization_trial self rnd target_classes (ln, lc, lp) area_w area_h
    (sn, sc, sP, n) i
  = Ok (sn ++ [s1], sc ++ [s2], sP ++ [s3], n1).
Proof.
  intros Hd Hm Hr. unfold normalization_trial.
  now rewrite Hd, bind_Ok, Hm, bind_Ok, Hr, bind_Ok.
Qed.

Lemma search_trial_at (self : NewDataset) (rnd : Random)
  (target_classes : list string) (ln : list nat) (lc lp : list R) (b : Bounds)
  (area_w area_h : Z) (info : list candidate) (n n1 : nat) (i : Z)
  (area_ : box Z) (an : list nat) (ac ap : list R) (scores : list npfloat)
  (x : npfloat) :
  draw_area self rnd area_w area_h n = Ok (area_, n1) ->
  calculateMetrics self area_ target_classes = Ok (an, ac, ap) ->
  calculateNormalizedScore b an ac ap ln lc lp = Ok scores ->
  mean_score scores = Ok x ->
  search_trial self rnd target_classes (ln, lc, lp) b area_w area_h (info, n) i
  = Ok (info ++ [(area_, scores, x)], n1).
Proof.
  intros Hd Hm Hs Hx. unfold search_trial. cbn [fst snd].
  now rewrite Hd, bind_Ok, Hm, bind_Ok, Hs, bind_Ok, Hx, bind_Ok.
Qed.

(** A loop whose turns all do the same to the state, each with three
    draws. *)
Lemma foldM_steady {A St : Type} (f : St * nat -> A -> result (St * nat))
  (g : St -> St) (lo hi : nat) :
  (forall s n a, (lo <= n)%nat -> (3 + n <= hi)%nat ->
                 f (s, n) a = Ok (g s, (3 + n)%nat)) ->
  forall l s n, (lo <= n)%nat -> (3 * length l + n <= hi)%nat ->
    foldM f l (s, n) = Ok (Nat.iter (length l) g s, (3 * length l + n)%nat).
Proof.
  intros Hf. induction l as [|a l IH]; intros s n Hlo Hhi; [reflexivity|].
  cbn [length] in Hhi.
  rewrite foldM_cons, Hf, bind_Ok by lia. rewrite IH by lia.
  f_equal. f_equal.
  - cbn [length]. now rewrite Nat.iter_succ_r.
  - cbn [length]. lia.
Qed.

Lemma iter_snoc {X : Type} (e : X) (m : nat) (l : list X) :
  Nat.iter m (fun l => l ++ [e]) l = l ++ repeat e m.
Proof.
  revert l; induction m as [|m IH]; intros l; [now rewrite app_nil_r|].
  rewrite Nat.iter_succ_r, IH, <- app_assoc. reflexivity.
Qed.

Lemma iter_snoc3 {X Y Z : Type} (x : X) (y : Y) (z : Z) (m : nat)
  (l1 : list X) (l2 : list Y) (l3 : list Z) :
  Nat.iter m (fun s : list X * list Y * list Z =>
                (fst (fst s) ++ [x], snd (fst s) ++ [y], snd s ++ [z]))
           (l1, l2, l3)
  = (l1 ++ repeat x m, l2 ++ repeat y m, l3 ++ repeat z m).
Proof.
  revert l1 l2 l3; induction m as [|m IH]; intros l1 l2 l3.
  - cbn [Nat.iter repeat]. now rewrite !app_nil_r.
  - rewrite Nat.iter_succ_r. cbn [fst snd]. rewrite IH, <- !app_assoc.
    reflexivity.
Qed.

(** The bounds of a column that holds one value and then another one. *)
Lemma fold_left_Rmin_repeat (a b : R) (m : nat) :
  fold_left Rmin (repeat b (S m)) a = Rmin a b.
Proof.
  cbn [repeat fold_left]. induction m as [|m IH]; [reflexivity|].
  cbn [repeat fold_left]. rewrite <- IH at 2. f_equal.
  unfold Rmin. repeat destruct (Rle_dec _ _); lra.
Qed.

Lemma fold_left_Rmax_repeat (a b : R) (m : nat) :
  fold_left Rmax (repeat b (S m)) a = Rmax a b.
Proof.
  cbn [repeat fold_left]. induction m as [|m IH]; [reflexivity|].
  cbn [repeat fold_left]. rewrite <- IH at 2. f_equal.
  unfold Rmax. repeat destruct (Rle_dec _ _); lra.
Qed.

Lemma map_repeat_const {X Y : Type} (f : X -> Y) (x : X) (m : nat) :
  map f (repeat x m) = repeat (f x) m.
Proof. induction m as [|m IH]; [reflexivity|]. cbn [repeat map]. now rewrite IH. Qed.

Lemma np_min_axis0_two (a b : R) (m : nat) :
  np_min_axis0 ([a] :: repeat [b] (S m)) = Ok [Rmin a b].
Proof.
  unfold np_min_axis0. cbn [length seq mapM]. unfold np_min.
  cbn [map nth]. rewrite map_repeat_const. cbn [nth].
  now rewrite fold_left_Rmin_repeat.
Qed.

Lemma np_max_axis0_two (a b : R) (m : nat) :
  np_max_axis0 ([a] :: repeat [b] (S m)) = Ok [Rmax a b].
Proof.
  unfold np_max_axis0. cbn [length seq mapM]. unfold np_max.
  cbn [map nth]. rewrite map_repeat_const. cbn [nth].
  now rewrite fold_left_Rmax_repeat.
Qed.

Lemma normalization_bounds_two (a1 b1 a2 b2 a3 b3 : R) (m : nat) :
  normalization_bounds ([a1] :: repeat [b1] (S m)) ([a2] :: repeat [b2] (S m))
    ([a3] :: repeat [b3] (S m))
  = Ok {| sn_min := [Rmin a1 b1]; sn_max := [Rmax a1 b1];
          sc_min := [Rmin a2 b2]; sc_max := [Rmax a2 b2];
          sP_min := [Rmin a3 b3]; sP_max := [Rmax a3 b3] |}.
Proof.
  unfold normalization_bounds.
  now rewrite !np_min_axis0_two, !np_max_axis0_two, !bind_Ok.
Qed.

Ltac r_abs :=
  repeat match goal with
         | |- context [Rabs ?x] =>
             first [rewrite (Rabs_pos_eq x) by (simpl; lra)
                   | rewrite (Rabs_left x) by (simpl; lra)]
         end.

(** The distances of the four areas from the whole map. *)
Lemma rangeScore_top_left :
  rangeScore [2%nat] [6 / 1444] [100 / 3] [3%nat] [12 / 10000] [pscv_2_4_6]
  = Ok ([155 / 3], [(6 / 1444 - 12 / 10000) * 100], [pscv_2_4_6 - 100 / 3]).
Proof.
  pose proof pscv_2_4_6_large. rewrite rangeScore_one_class. r_abs.
  repeat (apply f_equal2 || apply f_equal); try reflexivity; simpl; lra.
Qed.

Lemma rangeScore_lower :
  rangeScore [1%nat] [6 / 1444] [0] [3%nat] [12 / 10000] [pscv_2_4_6]
  = Ok ([55 / 3], [(6 / 1444 - 12 / 10000) * 100], [pscv_2_4_6]).
Proof.
  pose proof pscv_2_4_6_large. rewrite rangeScore_one_class. r_abs.
  repeat (apply f_equal2 || apply f_equal); try reflexivity; simpl; lra.
Qed.

Lemma rangeScore_centre :
  rangeScore [3%nat] [12 / 1444] [pscv_2_4_6] [3%nat] [12 / 10000] [pscv_2_4_6]
  = Ok ([85], [(12 / 1444 - 12 / 10000) * 100], [0]).
Proof.
  pose proof pscv_2_4_6_large. rewrite rangeScore_one_class. r_abs.
  repeat (apply f_equal2 || apply f_equal); try reflexivity; simpl; lra.
Qed.

Lemma rangeScore_bottom_right :
  rangeScore [0%nat] [0 / 1444] [0] [3%nat] [12 / 10000] [pscv_2_4_6]
  = Ok ([15], [12 / 100], [pscv_2_4_6]).
Proof.
  pose proof pscv_2_4_6_large. rewrite rangeScore_one_class. r_abs.
  repeat (apply f_equal2 || apply f_equal); try reflexivity; simpl; lra.
Qed.

Lemma three_blobs_draw (rnd : Random) (n : nat) :
  (forall k a b, uniform_draw rnd k a b = 1) ->
  draw_area dataset_three_blobs rnd 38 38 n
  = Ok (Box (randint_draw rnd (S (S n)) 0 61) (randint_draw rnd (S n) 0 61) 38%Z 38%Z,
        (3 + n)%nat).
Proof.
  intros unit_factor. unfold draw_area, uniform. rewrite unit_factor.
  rewrite py_div_ok by lra. cbn [bind].
  replace (38 / 1) with 38 by lra. replace (38 * 1) with 38 by lra.
  rewrite py_int_IZR. reflexivity.
Qed.

(** The scores against the bounds of a first loop in which the coverage
    distance took one value only. *)
Lemma score_on_equal_coverage (x1 d1 x2 d2 x3 d3 : R) :
  d1 <> 0 -> d2 = 0 -> d3 <> 0 ->
  np_div_by (np_add (np_add (np_fdiv x1 d1) (np_fdiv x2 d2)) (np_fdiv x3 d3)) 3
  = if Rltb 0 x2 then PosInf else if Rltb x2 0 then NegInf else NaN.
Proof.
  intros H1 -> H3. rewrite (np_fdiv_number x1 d1 H1), (np_fdiv_number x3 d3 H3).
  unfold np_fdiv. rewrite (proj2 (Req_b_true 0 0) eq_refl).
  destruct (Rltb 0 x2); [reflexivity|]. now destruct (Rltb x2 0).
Qed.

(** *** A run whose first loop sees one coverage distance *)

Lemma diagonal_bounds_value (m : nat) :
  normalization_bounds
    ([155 / 3] :: repeat [55 / 3] (S m))
    ([(6 / 1444 - 12 / 10000) * 100]
       :: repeat [(6 / 1444 - 12 / 10000) * 100] (S m))
    ([pscv_2_4_6 - 100 / 3] :: repeat [pscv_2_4_6] (S m))
  = Ok diagonal_bounds.
Proof.
  pose proof pscv_2_4_6_large. rewrite normalization_bounds_two.
  unfold diagonal_bounds. r_decide.
Qed.

Lemma score_centre_diagonal :
  calculateNormalizedScore diagonal_bounds [3%nat] [12 / 1444] [pscv_2_4_6]
    [3%nat] [12 / 10000] [pscv_2_4_6]
  = Ok [PosInf].
Proof.
  pose proof pscv_2_4_6_large. unfold diagonal_bounds.
  rewrite calculateNormalizedScore_one_class. r_abs.
  rewrite score_on_equal_coverage by lra. r_decide.
Qed.

Lemma score_lower_diagonal :
  calculateNormalizedScore diagonal_bounds [1%nat] [6 / 1444] [0]
    [3%nat] [12 / 10000] [pscv_2_4_6]
  = Ok [NaN].
Proof.
  pose proof pscv_2_4_6_large. unfold diagonal_bounds.
  rewrite calculateNormalizedScore_one_class. r_abs.
  rewrite score_on_equal_coverage by lra. r_decide.
Qed.

Lemma score_bottom_right_diagonal :
  calculateNormalizedScore diagonal_bounds [0%nat] [0 / 1444] [0]
    [3%nat] [12 / 10000] [pscv_2_4_6]
  = Ok [NegInf].
Proof.
  pose proof pscv_2_4_6_large. unfold diagonal_bounds.
  rewrite calculateNormalizedScore_one_class. r_abs.
  rewrite score_on_equal_coverage by lra. r_decide.
Qed.

Lemma rnd_diagonal_unit (k : nat) (a b : R) : uniform_draw rnd_diagonal k a b = 1.
Proof. reflexivity. Qed.

Lemma rnd_diagonal_lower (n : nat) (a b : Z) :
  (3 <= n < 1500)%nat \/ (1503 <= n < 1506)%nat \/ (1509 <= n)%nat ->
  randint_draw rnd_diagonal n a b = 39%Z.
Proof.
  intros H. unfold rnd_diagonal. cbn [randint_draw].
  destruct (Nat.ltb_spec n 3); [lia|].
  destruct (Nat.leb_spec 1500 n), (Nat.ltb_spec n 1503); cbn [andb]; try lia;
    destruct (Nat.leb_spec 1506 n), (Nat.ltb_spec n 1509); cbn [andb];
    try lia; reflexivity.
Qed.

Lemma diagonal_draw_lower (n : nat) :
  (3 <= n)%nat /\ (3 + n <= 1500)%nat \/ n = 1503%nat \/ (1509 <= n)%nat ->
  draw_area dataset_three_blobs rnd_diagonal 38 38 n
  = Ok (area_lower, (3 + n)%nat).
Proof.
  intros H. rewrite three_blobs_draw by exact rnd_diagonal_unit.
  rewrite !rnd_diagonal_lower by lia. reflexivity.
Qed.

Lemma diagonal_draw_first :
  draw_area dataset_three_blobs rnd_diagonal 38 38 0
  = Ok (area_top_left, 3%nat).
Proof. exact (three_blobs_draw rnd_diagonal 0 rnd_diagonal_unit). Qed.

Lemma diagonal_draw_centre :
  draw_area dataset_three_blobs rnd_diagonal 38 38 1500
  = Ok (area_centre, 1503%nat).
Proof. exact (three_blobs_draw rnd_diagonal 1500 rnd_diagonal_unit). Qed.

Lemma diagonal_draw_bottom_right :
  draw_area dataset_three_blobs rnd_diagonal 38 38 1506
  = Ok (area_bottom_right, 1509%nat).
Proof. exact (three_blobs_draw rnd_diagonal 1506 rnd_diagonal_unit). Qed.

Lemma diagonal_normalization_first (i : Z) :
  normalization_trial dataset_three_blobs rnd_diagonal ["A"%string]
    three_blobs_landscape 38 38 ([], [], [], 0%nat) i
  = Ok ([[155 / 3]], [[(6 / 1444 - 12 / 10000) * 100]],
        [[pscv_2_4_6 - 100 / 3]], 3%nat).
Proof.
  unfold three_blobs_landscape.
  rewrite (normalization_trial_at _ _ _ _ _ _ _ _ _ _ _ _ 3%nat _ area_top_left
             _ _ _ _ _ _ diagonal_draw_first
             metrics_top_left rangeScore_top_left).
  reflexivity.
Qed.

Lemma diagonal_normalization_later (s : list (list R) * list (list R) * list (list R))
  (n : nat) (i : Z) :
  (3 <= n)%nat -> (3 + n <= 1500)%nat ->
  normalization_trial dataset_three_blobs rnd_diagonal ["A"%string]
    three_blobs_landscape 38 38 (s, n) i
  = Ok ((fun s : list (list R) * list (list R) * list (list R) =>
           (fst (fst s) ++ [[55 / 3]],
            snd (fst s) ++ [[(6 / 1444 - 12 / 10000) * 100]],
            snd s ++ [[pscv_2_4_6]])) s, (3 + n)%nat).
Proof.
  intros Hlo Hhi. destruct s as [[sn sc] sP]. unfold three_blobs_landscape.
  apply (normalization_trial_at _ _ _ _ _ _ _ _ _ _ _ _ _ _ area_lower
           _ _ _ _ _ _ (diagonal_draw_lower n (or_introl (conj Hlo Hhi)))
           metrics_lower rangeScore_lower).
Qed.

Lemma diagonal_normalization (m : nat) :
  (3 * m + 3 <= 1500)%nat ->
  foldM (normalization_trial dataset_three_blobs rnd_diagonal ["A"%string]
           three_blobs_landscape 38 38)
        (map Z.of_nat (seq 0 (S m))) ([], [], [], 0%nat)
  = Ok ([155 / 3] :: repeat [55 / 3] m,
        [(6 / 1444 - 12 / 10000) * 100]
          :: repeat [(6 / 1444 - 12 / 10000) * 100] m,
        [pscv_2_4_6 - 100 / 3] :: repeat [pscv_2_4_6] m,
        (3 * m + 3)%nat).
Proof.
  intros Hm. cbn [seq map].
  rewrite foldM_cons, diagonal_normalization_first, bind_Ok.
  rewrite (foldM_steady _ _ 3 1500 diagonal_normalization_later)
    by (rewrite ?length_map, ?length_seq; lia).
  rewrite length_map, length_seq, iter_snoc3. reflexivity.
Qed.

(** The three kinds of candidates of the second loop. *)

Lemma diagonal_search_lower (info : list candidate) (n : nat) (i : Z) :
  n = 1503%nat \/ (1509 <= n)%nat ->
  search_trial dataset_three_blobs rnd_diagonal ["A"%string] three_blobs_landscape
    diagonal_bounds 38 38 (info, n) i
  = Ok (info ++ [candidate_nan], (3 + n)%nat).
Proof.
  intros H. unfold three_blobs_landscape.
  apply (search_trial_at _ _ _ _ _ _ _ _ _ _ _ _ _ area_lower _ _ _ [NaN] NaN
           (diagonal_draw_lower n (or_intror H))
           metrics_lower score_lower_diagonal eq_refl).
Qed.

Lemma diagonal_search_centre (info : list candidate) (i : Z) :
  search_trial dataset_three_blobs rnd_diagonal ["A"%string] three_blobs_landscape
    diagonal_bounds 38 38 (info, 1500%nat) i
  = Ok (info ++ [candidate_plus], 1503%nat).
Proof.
  unfold three_blobs_landscape.
  apply (search_trial_at _ _ _ _ _ _ _ _ _ _ _ _ _ area_centre _ _ _ [PosInf] PosInf
           diagonal_draw_centre
           metrics_centre score_centre_diagonal eq_refl).
Qed.

Lemma diagonal_search_bottom_right (info : list candidate) (i : Z) :
  search_trial dataset_three_blobs rnd_diagonal ["A"%string] three_blobs_landscape
    diagonal_bounds 38 38 (info, 1506%nat) i
  = Ok (info ++ [candidate_minus], 1509%nat).
Proof.
  unfold three_blobs_landscape.
  apply (search_trial_at _ _ _ _ _ _ _ _ _ _ _ _ _ area_bottom_right _ _ _
           [NegInf] NegInf
           diagonal_draw_bottom_right
           metrics_bottom_right score_bottom_right_diagonal eq_refl).
Qed.

Lemma diagonal_search (m : nat) :
  foldM (search_trial dataset_three_blobs rnd_diagonal ["A"%string]
           three_blobs_landscape diagonal_bounds 38 38)
        (map Z.of_nat (seq 0 (S (S (S m))))) ([], 1500%nat)
  = Ok (candidate_plus :: candidate_nan :: candidate_minus :: repeat candidate_nan m,
        (3 * m + 1509)%nat).
Proof.
  cbn [seq map].
  rewrite foldM_cons, diagonal_search_centre, bind_Ok.
  rewrite foldM_cons, diagonal_search_lower, bind_Ok by now left.
  rewrite foldM_cons, diagonal_search_bottom_right, bind_Ok.
  rewrite (foldM_steady _ (fun info => info ++ [candidate_nan]) 1509
             (3 * m + 1509)
             (fun s n a Hlo _ => diagonal_search_lower s n a (or_intror Hlo)))
    by (rewrite ?length_map, ?length_seq; lia).
  rewrite length_map, length_seq, iter_snoc. reflexivity.
Qed.

Lemma to_nat_500 : Z.to_nat 500 = S 499.
Proof. reflexivity. Qed.

Lemma to_nat_5000 : Z.to_nat 5000 = S (S (S 4997)).
Proof. reflexivity. Qed.

Lemma diagonal_scored_candidates :
  scored_candidates dataset_three_blobs rnd_diagonal ["A"%string] 0
  = Ok (three_blobs_landscape,
        candidate_plus :: candidate_nan :: candidate_minus
          :: repeat candidate_nan 4997,
        (3 * 4997 + 1509)%nat).
Proof.
  unfold scored_candidates. cbv zeta. cbn [dataset_three_blobs map_w map_h].
  rewrite area_side_100, metrics_whole_map, bind_Ok.
  fold three_blobs_landscape. unfold range. rewrite to_nat_500, to_nat_5000.
  rewrite diagonal_normalization by (apply Nat.eq_le_incl; reflexivity).
  rewrite bind_Ok. cbv beta iota.
  rewrite diagonal_bounds_value, bind_Ok.
  replace (3 * 499 + 3)%nat with 1500%nat by reflexivity.
  rewrite diagonal_search, bind_Ok. reflexivity.
Qed.

Ltac eval_overlap :=
  unfold overlap, bbox_intersection, box_R; autounfold with datasets;
  cbn [top left width height]; r_decide.

Lemma overlap_centre_same : overlap area_centre area_centre = 1444.
Proof. eval_overlap. Qed.

Lemma overlap_centre_lower : overlap area_centre area_lower = 361.
Proof. eval_overlap. Qed.

Lemma overlap_centre_bottom_right : overlap area_centre area_bottom_right = 0.
Proof. eval_overlap. Qed.

Lemma overlap_bottom_right_same :
  overlap area_bottom_right area_bottom_right = 1444.
Proof. eval_overlap. Qed.

Lemma overlap_bottom_right_centre : overlap area_bottom_right area_centre = 0.
Proof. eval_overlap. Qed.

Lemma diagonal_ascending (m : nat) :
  ascending (candidate_plus :: candidate_nan :: candidate_minus
               :: repeat candidate_nan m) = true.
Proof.
  change (ascending (candidate_minus :: repeat candidate_nan m) = true).
  destruct m as [|m]; [reflexivity|].
  change (ascending (repeat candidate_nan (S m)) = true).
  apply equal_scores_ascending with (x := NaN).
  intros c Hc. apply repeat_spec in Hc. now subst c.
Qed.

Lemma diagonal_findAreas :
  findAreas dataset_three_blobs rnd_diagonal ["A"%string] 0
  = Ok (area_centre, area_bottom_right, (3 * 4997 + 1509)%nat).
Proof.
  rewrite (findAreas_value _ _ _ _ _ _ _ _ _ diagonal_scored_candidates
             (sort_by_score_ascending _ (diagonal_ascending 4997))).
  rewrite (first_disjoint_some _ _ 2%nat candidate_minus).
  - reflexivity.
  - reflexivity.
  - change (overlap area_centre area_bottom_right < 10).
    rewrite overlap_centre_bottom_right. lra.
  - intros j c' Hj Hc'. destruct j as [|[|j]]; [| |lia].
    + injection Hc' as <-. change (10 <= overlap area_centre area_centre).
      rewrite overlap_centre_same. lra.
    + injection Hc' as <-. change (10 <= overlap area_centre area_lower).
      rewrite overlap_centre_lower. lra.
Qed.


(** *** A run whose scores are numbers *)

Lemma centre_first_bounds_value (m : nat) :
  normalization_bounds
    ([85] :: repeat [15] (S m))
    ([(12 / 1444 - 12 / 10000) * 100] :: repeat [12 / 100] (S m))
    ([0] :: repeat [pscv_2_4_6] (S m))
  = Ok centre_first_bounds.
Proof.
  pose proof pscv_2_4_6_large. rewrite normalization_bounds_two.
  unfold centre_first_bounds. r_decide.
Qed.

Lemma score_centre_numbers :
  calculateNormalizedScore centre_first_bounds [3%nat] [12 / 1444] [pscv_2_4_6]
    [3%nat] [12 / 10000] [pscv_2_4_6]
  = Ok [Finite (2 / 3)].
Proof.
  pose proof pscv_2_4_6_large. unfold centre_first_bounds.
  rewrite calculateNormalizedScore_one_class. r_abs.
  rewrite !np_fdiv_number by lra. cbn [np_add np_div_by].
  do 3 f_equal. simpl. field. lra.
Qed.

Lemma score_bottom_right_numbers :
  calculateNormalizedScore centre_first_bounds [0%nat] [0 / 1444] [0]
    [3%nat] [12 / 10000] [pscv_2_4_6]
  = Ok [Finite (1 / 3)].
Proof.
  pose proof pscv_2_4_6_large. unfold centre_first_bounds.
  rewrite calculateNormalizedScore_one_class. r_abs.
  rewrite !np_fdiv_number by lra. cbn [np_add np_div_by].
  do 3 f_equal. simpl. field. lra.
Qed.

Lemma mean_score_number (x : R) : mean_score [Finite x] = Ok (Finite x).
Proof.
  unfold mean_score, np_sum. cbn [fold_left np_add np_div_by length INR].
  do 2 f_equal. field.
Qed.

Lemma rnd_centre_first_unit (k : nat) (a b : R) :
  uniform_draw rnd_centre_first k a b = 1.
Proof. reflexivity. Qed.

Lemma rnd_centre_first_later (n : nat) (a b : Z) :
  (3 <= n < 1500)%nat \/ (1503 <= n)%nat ->
  randint_draw rnd_centre_first n a b = 61%Z.
Proof.
  intros H. unfold rnd_centre_first. cbn [randint_draw].
  destruct (Nat.ltb_spec n 3); [lia|].
  destruct (Nat.leb_spec 1500 n), (Nat.ltb_spec n 1503); cbn [andb orb];
    try lia; reflexivity.
Qed.

Lemma centre_first_draw_later (n : nat) :
  (3 <= n)%nat /\ (3 + n <= 1500)%nat \/ (1503 <= n)%nat ->
  draw_area dataset_three_blobs rnd_centre_first 38 38 n
  = Ok (area_bottom_right, (3 + n)%nat).
Proof.
  intros H. rewrite three_blobs_draw by exact rnd_centre_first_unit.
  rewrite !rnd_centre_first_later by lia. reflexivity.
Qed.

Lemma centre_first_draw_0 :
  draw_area dataset_three_blobs rnd_centre_first 38 38 0
  = Ok (area_centre, 3%nat).
Proof. exact (three_blobs_draw rnd_centre_first 0 rnd_centre_first_unit). Qed.

Lemma centre_first_draw_1500 :
  draw_area dataset_three_blobs rnd_centre_first 38 38 1500
  = Ok (area_centre, 1503%nat).
Proof. exact (three_blobs_draw rnd_centre_first 1500 rnd_centre_first_unit). Qed.

Lemma centre_first_normalization_first (i : Z) :
  normalization_trial dataset_three_blobs rnd_centre_first ["A"%string]
    three_blobs_landscape 38 38 ([], [], [], 0%nat) i
  = Ok ([[85]], [[(12 / 1444 - 12 / 10000) * 100]], [[0]], 3%nat).
Proof.
  unfold three_blobs_landscape.
  rewrite (normalization_trial_at _ _ _ _ _ _ _ _ _ _ _ _ 3%nat _ area_centre
             _ _ _ _ _ _ centre_first_draw_0 metrics_centre rangeScore_centre).
  reflexivity.
Qed.

Lemma centre_first_normalization_later
  (s : list (list R) * list (list R) * list (list R)) (n : nat) (i : Z) :
  (3 <= n)%nat -> (3 + n <= 1500)%nat ->
  normalization_trial dataset_three_blobs rnd_centre_first ["A"%string]
    three_blobs_landscape 38 38 (s, n) i
  = Ok ((fun s : list (list R) * list (list R) * list (list R) =>
           (fst (fst s) ++ [[15]], snd (fst s) ++ [[12 / 100]],
            snd s ++ [[pscv_2_4_6]])) s, (3 + n)%nat).
Proof.
  intros Hlo Hhi. destruct s as [[sn sc] sP]. unfold three_blobs_landscape.
  apply (normalization_trial_at _ _ _ _ _ _ _ _ _ _ _ _ _ _ area_bottom_right
           _ _ _ _ _ _ (centre_first_draw_later n (or_introl (conj Hlo Hhi)))
           metrics_bottom_right rangeScore_bottom_right).
Qed.

Lemma centre_first_normalization (m : nat) :
  (3 * m + 3 <= 1500)%nat ->
  foldM (normalization_trial dataset_three_blobs rnd_centre_first ["A"%string]
           three_blobs_landscape 38 38)
        (map Z.of_nat (seq 0 (S m))) ([], [], [], 0%nat)
  = Ok ([85] :: repeat [15] m,
        [(12 / 1444 - 12 / 10000) * 100] :: repeat [12 / 100] m,
        [0] :: repeat [pscv_2_4_6] m,
        (3 * m + 3)%nat).
Proof.
  intros Hm. cbn [seq map].
  rewrite foldM_cons, centre_first_normalization_first, bind_Ok.
  rewrite (foldM_steady _ _ 3 1500 centre_first_normalization_later)
    by (rewrite ?length_map, ?length_seq; lia).
  rewrite length_map, length_seq, iter_snoc3. reflexivity.
Qed.

Lemma centre_first_search_first (info : list candidate) (i : Z) :
  search_trial dataset_three_blobs rnd_centre_first ["A"%string] three_blobs_landscape
    centre_first_bounds 38 38 (info, 1500%nat) i
  = Ok (info ++ [candidate_centre], 1503%nat).
Proof.
  unfold three_blobs_landscape.
  apply (search_trial_at _ _ _ _ _ _ _ _ _ _ _ _ _ area_centre _ _ _
           [Finite (2 / 3)] (Finite (2 / 3))
           centre_first_draw_1500 metrics_centre score_centre_numbers
           (mean_score_number _)).
Qed.

Lemma centre_first_search_later (info : list candidate) (n : nat) (i : Z) :
  (1503 <= n)%nat ->
  search_trial dataset_three_blobs rnd_centre_first ["A"%string] three_blobs_landscape
    centre_first_bounds 38 38 (info, n) i
  = Ok (info ++ [candidate_bottom_right], (3 + n)%nat).
Proof.
  intros H. unfold three_blobs_landscape.
  apply (search_trial_at _ _ _ _ _ _ _ _ _ _ _ _ _ area_bottom_right _ _ _
           [Finite (1 / 3)] (Finite (1 / 3))
           (centre_first_draw_later n (or_intror H))
           metrics_bottom_right score_bottom_right_numbers
           (mean_score_number _)).
Qed.

Lemma centre_first_search (m : nat) :
  foldM (search_trial dataset_three_blobs rnd_centre_first ["A"%string]
           three_blobs_landscape centre_first_bounds 38 38)
        (map Z.of_nat (seq 0 (S m))) ([], 1500%nat)
  = Ok (candidate_centre :: repeat candidate_bottom_right m,
        (3 * m + 1503)%nat).
Proof.
  cbn [seq map].
  rewrite foldM_cons, centre_first_search_first, bind_Ok.
  rewrite (foldM_steady _ (fun info => info ++ [candidate_bottom_right]) 1503
             (3 * m + 1503)
             (fun s n a Hlo _ => centre_first_search_later s n a Hlo))
    by (rewrite ?length_map, ?length_seq; lia).
  rewrite length_map, length_seq, iter_snoc. reflexivity.
Qed.

Lemma to_nat_5000_succ : Z.to_nat 5000 = S 4999.
Proof. reflexivity. Qed.

Lemma centre_first_scored_candidates :
  scored_candidates dataset_three_blobs rnd_centre_first ["A"%string] 0
  = Ok (three_blobs_landscape,
        candidate_centre :: repeat candidate_bottom_right 4999,
        (3 * 4999 + 1503)%nat).
Proof.
  unfold scored_candidates. cbv zeta. cbn [dataset_three_blobs map_w map_h].
  rewrite area_side_100, metrics_whole_map, bind_Ok.
  fold three_blobs_landscape. unfold range. rewrite to_nat_500, to_nat_5000_succ.
  rewrite centre_first_normalization by (apply Nat.eq_le_incl; reflexivity).
  rewrite bind_Ok. cbv beta iota.
  rewrite centre_first_bounds_value, bind_Ok.
  replace (3 * 499 + 3)%nat with 1500%nat by reflexivity.
  rewrite centre_first_search, bind_Ok. reflexivity.
Qed.

(** The stable sort moves the first candidate behind the others, whose
    score is lower. *)
Lemma stable_sort_repeat (c : candidate) (m : nat) :
  stable_sort (repeat c m) = repeat c m.
Proof.
  unfold stable_sort. induction m as [|m IH]; [reflexivity|].
  cbn [repeat fold_right]. rewrite IH.
  destruct m as [|m]; [reflexivity|].
  cbn [repeat insert_by_score]. now rewrite np_ltb_irrefl.
Qed.

Lemma insert_behind_lower (x c : candidate) (m : nat) :
  np_ltb (aggregated_score c) (aggregated_score x) = true ->
  insert_by_score x (repeat c m) = repeat c m ++ [x].
Proof.
  intros H. induction m as [|m IH]; [reflexivity|].
  cbn [repeat insert_by_score app]. now rewrite H, IH.
Qed.

Lemma centre_first_lower :
  np_ltb (aggregated_score candidate_bottom_right)
         (aggregated_score candidate_centre) = true.
Proof.
  unfold candidate_bottom_right, candidate_centre, aggregated_score.
  cbn [snd np_ltb]. apply Rltb_true. lra.
Qed.

Lemma centre_first_numbers (m : nat) :
  numbers_only (candidate_centre :: repeat candidate_bottom_right m).
Proof.
  constructor; [reflexivity|]. apply Forall_forall.
  intros c Hc. apply repeat_spec in Hc. now subst c.
Qed.

Lemma centre_first_sorted (m : nat) :
  sort_by_score (candidate_centre :: repeat candidate_bottom_right m)
  = Ok (repeat candidate_bottom_right m ++ [candidate_centre]).
Proof.
  rewrite sort_by_score_numbers by apply centre_first_numbers.
  unfold stable_sort. cbn [fold_right].
  change (fold_right insert_by_score [] (repeat candidate_bottom_right m))
    with (stable_sort (repeat candidate_bottom_right m)).
  rewrite stable_sort_repeat.
  now rewrite (insert_behind_lower _ _ _ centre_first_lower).
Qed.


(** * Further properties of the code *)

(** ** Intersections of boxes *)

Ltac r_cases :=
  unfold Rmax, Rmin;
  repeat match goal with
         | |- context [Rle_dec ?a ?b] => destruct (Rle_dec a b)
         end.

Lemma Rmax_lt_Rmin (a b c d : R) :
  Rmax a b < Rmin c d <-> a < c /\ a < d /\ b < c /\ b < d.
Proof. r_cases; lra. Qed.

Lemma Rmin_sub_Rmax_bounds (l1 w1 l2 w2 : R) :
  0 <= w1 -> 0 <= w2 ->
  Rmin (l1 + w1) (l2 + w2) - Rmax l1 l2 <= w1
  /\ Rmin (l1 + w1) (l2 + w2) - Rmax l1 l2 <= w2.
Proof. intros H1 H2. r_cases; lra. Qed.

Lemma bbox_intersection_comm (bbox1 bbox2 : box R) :
  bbox_intersection bbox1 bbox2 = bbox_intersection bbox2 bbox1.
Proof.
  unfold bbox_intersection; cbv zeta.
  rewrite (Rmax_comm (left bbox1)), (Rmax_comm (top bbox1)).
  rewrite (Rmin_comm (left bbox1 + width bbox1)),
          (Rmin_comm (top bbox1 + height bbox1)).
  reflexivity.
Qed.

(** The intersection does not depend on the order of the two boxes. *)
Theorem bbox_intersection_sym (bbox1 bbox2 : box R) :
  bbox_intersection bbox1 bbox2 = bbox_intersection bbox2 bbox1.
Proof. exact (bbox_intersection_comm bbox1 bbox2). Qed.

(** The intersection of a box with itself is its area; a box with a
    negative side meets nothing, not even itself. *)
Theorem bbox_intersection_self (b : box R) :
  (0 <= width b -> 0 <= height b -> bbox_intersection b b = width b * height b)
  /\ (width b < 0 \/ height b < 0 -> bbox_intersection b b = 0).
Proof.
  unfold bbox_intersection; cbv zeta.
  rewrite !Rmax_left, !Rmin_left by lra. split.
  - intros Hw Hh.
    rewrite (proj2 (Rltb_false (left b + width b) (left b))) by lra.
    rewrite (proj2 (Rltb_false (top b + height b) (top b))) by lra.
    cbn [orb]. ring.
  - intros [Hw|Hh].
    + now rewrite (proj2 (Rltb_true (left b + width b) (left b))) by lra.
    + rewrite (proj2 (Rltb_true (top b + height b) (top b))) by lra.
      now rewrite orb_true_r.
Qed.

(** The intersection is positive exactly when the two boxes overlap on
    both axes; boxes that only touch, or that are apart, meet by 0. *)
Theorem bbox_intersection_positive (bbox1 bbox2 : box R) :
  0 < bbox_intersection bbox1 bbox2 <->
  (0 < width bbox1 /\ 0 < width bbox2
   /\ left bbox1 < left bbox2 + width bbox2
   /\ left bbox2 < left bbox1 + width bbox1)
  /\ (0 < height bbox1 /\ 0 < height bbox2
      /\ top bbox1 < top bbox2 + height bbox2
      /\ top bbox2 < top bbox1 + height bbox1).
Proof.
  unfold bbox_intersection; cbv zeta.
  set (xl := Rmax (left bbox1) (left bbox2)).
  set (xr := Rmin (left bbox1 + width bbox1) (left bbox2 + width bbox2)).
  set (yt := Rmax (top bbox1) (top bbox2)).
  set (yb := Rmin (top bbox1 + height bbox1) (top bbox2 + height bbox2)).
  assert (Hx : xl < xr <-> 0 < width bbox1 /\ 0 < width bbox2
                           /\ left bbox1 < left bbox2 + width bbox2
                           /\ left bbox2 < left bbox1 + width bbox1).
  { unfold xl, xr. rewrite Rmax_lt_Rmin. lra. }
  assert (Hy : yt < yb <-> 0 < height bbox1 /\ 0 < height bbox2
                           /\ top bbox1 < top bbox2 + height bbox2
                           /\ top bbox2 < top bbox1 + height bbox1).
  { unfold yt, yb. rewrite Rmax_lt_Rmin. lra. }
  rewrite <- Hx, <- Hy. clear Hx Hy.
  destruct (Rltb xr xl) eqn:Ex; [apply Rltb_true in Ex; cbn [orb]; lra|].
  destruct (Rltb yb yt) eqn:Ey; [apply Rltb_true in Ey; cbn [orb]; lra|].
  apply Rltb_false in Ex, Ey. cbn [orb]. split.
  - intros H. destruct (Rle_lt_or_eq_dec _ _ Ex) as [Hx|Hx];
      destruct (Rle_lt_or_eq_dec _ _ Ey) as [Hy|Hy]; try (split; assumption).
    + rewrite Hy in H. lra.
    + rewrite Hx in H. lra.
    + rewrite Hx in H. lra.
  - intros [Hx Hy]. apply Rmult_lt_0_compat; lra.
Qed.

(** The intersection of two boxes with sides that are not negative is at
    most the area of either. *)
Theorem bbox_intersection_bounded (bbox1 bbox2 : box R) :
  0 <= width bbox1 -> 0 <= height bbox1 ->
  0 <= width bbox2 -> 0 <= height bbox2 ->
  0 <= bbox_intersection bbox1 bbox2
  /\ bbox_intersection bbox1 bbox2 <= width bbox1 * height bbox1
  /\ bbox_intersection bbox1 bbox2 <= width bbox2 * height bbox2.
Proof.
  intros Hw1 Hh1 Hw2 Hh2. split; [apply bbox_intersection_nonneg|].
  unfold bbox_intersection; cbv zeta.
  destruct (Rmin_sub_Rmax_bounds (left bbox1) (width bbox1) (left bbox2)
              (width bbox2) Hw1 Hw2) as [Hx1 Hx2].
  destruct (Rmin_sub_Rmax_bounds (top bbox1) (height bbox1) (top bbox2)
              (height bbox2) Hh1 Hh2) as [Hy1 Hy2].
  match goal with |- context [if ?c then _ else _] => destruct c eqn:E end.
  - split; apply Rmult_le_pos; assumption.
  - apply orb_false_iff in E. destruct E as [Ex Ey].
    apply Rltb_false in Ex, Ey.
    split; apply Rmult_le_compat; lra.
Qed.

Lemma bbox_intersection_bounded_witness :
  0 <= 4 /\ 0 <= 2 /\ 0 <= 3 /\ 0 <= 5
  /\ bbox_intersection (Box 0 0 4 2) (Box 1 2 3 5) = 2
  /\ 0 <= bbox_intersection (Box 0 0 4 2) (Box 1 2 3 5) <= 4 * 2.
Proof.
  assert (E : bbox_intersection (Box 0 0 4 2) (Box 1 2 3 5) = 2)
    by (unfold bbox_intersection; cbn [top left width height]; r_decide).
  destruct (bbox_intersection_bounded (Box 0 0 4 2) (Box 1 2 3 5)
              ltac:(cbn [width]; lra) ltac:(cbn [height]; lra)
              ltac:(cbn [width]; lra) ltac:(cbn [height]; lra))
    as (H0 & H1 & _).
  cbn [width height] in H1.
  split; [lra|]. split; [lra|]. split; [lra|]. split; [lra|].
  split; [exact E|]. split; [exact H0|exact H1].
Defined.

Lemma bbox_intersection_inner_area (inner outer : box R) :
  0 <= width inner -> 0 <= height inner ->
  isFullyInsideBBox inner outer = true ->
  bbox_intersection inner outer = width inner * height inner.
Proof.
  intros Hw Hh Hin. apply isFullyInsideBBox_true in Hin.
  destruct Hin as (Ht & Hl & Hb & Hr).
  unfold bbox_intersection; cbv zeta.
  rewrite (Rmax_left (left inner)), (Rmax_left (top inner)) by lra.
  rewrite (Rmin_left (left inner + width inner)),
          (Rmin_left (top inner + height inner)) by lra.
  rewrite (proj2 (Rltb_false (left inner + width inner) (left inner))) by lra.
  rewrite (proj2 (Rltb_false (top inner + height inner) (top inner))) by lra.
  cbn [orb]. ring.
Qed.

(** A box that [isFullyInsideBBox] accepts meets the outer box by its
    whole area. *)
Theorem bbox_intersection_of_inner (inner outer : box R) :
  0 <= width inner -> 0 <= height inner ->
  isFullyInsideBBox inner outer = true ->
  bbox_intersection inner outer = width inner * height inner.
Proof. exact (bbox_intersection_inner_area inner outer). Qed.

Lemma bbox_intersection_of_inner_witness :
  0 <= 2 /\ 0 <= 3
  /\ isFullyInsideBBox (Box 1 1 2 3) (Box 0 0 10 10) = true
  /\ bbox_intersection (Box 1 1 2 3) (Box 0 0 10 10) = 2 * 3.
Proof.
  assert (Hin : isFullyInsideBBox (Box 1 1 2 3) (Box 0 0 10 10) = true)
    by (unfold isFullyInsideBBox; cbn [top left width height]; r_decide).
  split; [lra|]. split; [lra|]. split; [exact Hin|].
  exact (bbox_intersection_of_inner (Box 1 1 2 3) (Box 0 0 10 10)
           ltac:(cbn [width]; lra) ltac:(cbn [height]; lra) Hin).
Defined.

(** ** The 3/4 test *)

Lemma Rlt_div_r_iff (x y z : R) : 0 < z -> (x < y / z <-> x * z < y).
Proof.
  intros Hz. split; intros H.
  - apply Rmult_lt_reg_r with (r := / z); [now apply Rinv_0_lt_compat|].
    rewrite Rmult_assoc, Rinv_r by lra. unfold Rdiv in H. lra.
  - unfold Rdiv. apply Rmult_lt_reg_r with (r := z); [exact Hz|].
    rewrite Rmult_assoc, Rinv_l by lra. lra.
Qed.

Lemma checkBlobInside_threshold (area_ : box R) (blob : Blob) (threshold : R) :
  ((width (bbox blob) * height (bbox blob) = 0)%Z ->
   checkBlobInside area_ blob threshold = Raise ZeroDivisionError)
  /\ ((0 < width (bbox blob))%Z -> (0 < height (bbox blob))%Z ->
      exists b, checkBlobInside area_ blob threshold = Ok b
                /\ (b = true <->
                    threshold * (IZR (width (bbox blob)) * IZR (height (bbox blob)))
                    < bbox_intersection area_ (box_R (bbox blob)))).
Proof.
  unfold checkBlobInside; cbv zeta. split.
  - intros H. rewrite H. now rewrite py_div_zero.
  - intros Hw Hh. apply IZR_lt in Hw, Hh.
    assert (Hpos : 0 < IZR (width (bbox blob)) * IZR (height (bbox blob)))
      by (apply Rmult_lt_0_compat; assumption).
    rewrite mult_IZR, py_div_ok by lra. cbn [bind]. unfold Rgtb.
    destruct (Rltb threshold _) eqn:E; eexists; (split; [reflexivity|]).
    + apply Rltb_true in E. apply Rlt_div_r_iff in E; [|exact Hpos]. tauto.
    + apply Rltb_false in E. split; [discriminate|]. intros H.
      apply Rlt_div_r_iff in H; [lra|exact Hpos].
Qed.

(** [checkBlobInside] fails with [ZeroDivisionError] on a blob whose box
    has no area; on a blob whose box has positive sides it returns, and it
    says [True] exactly when the intersection exceeds the threshold times
    the area of the box. *)
Theorem checkBlobInside_cases (area_ : box R) (blob : Blob) (threshold : R) :
  ((width (bbox blob) * height (bbox blob) = 0)%Z ->
   checkBlobInside area_ blob threshold = Raise ZeroDivisionError)
  /\ ((0 < width (bbox blob))%Z -> (0 < height (bbox blob))%Z ->
      exists b, checkBlobInside area_ blob threshold = Ok b
                /\ (b = true <->
                    threshold * (IZR (width (bbox blob)) * IZR (height (bbox blob)))
                    < bbox_intersection area_ (box_R (bbox blob)))).
Proof. exact (checkBlobInside_threshold area_ blob threshold). Qed.

(** A blob whose box lies fully inside the area is counted at every
    threshold below 1, and a blob whose box does not meet the area is
    counted at no threshold from 0 on. *)
Theorem checkBlobInside_inside_outside (area_ : box R) (blob : Blob)
  (threshold : R) :
  (0 < width (bbox blob))%Z -> (0 < height (bbox blob))%Z ->
  (isFullyInsideBBox (box_R (bbox blob)) area_ = true -> threshold < 1 ->
   checkBlobInside area_ blob threshold = Ok true)
  /\ (bbox_intersection area_ (box_R (bbox blob)) = 0 -> 0 <= threshold ->
      checkBlobInside area_ blob threshold = Ok false).
Proof.
  intros Hw Hh.
  destruct (proj2 (checkBlobInside_threshold area_ blob threshold) Hw Hh)
    as (b & Hb & Hiff).
  apply IZR_lt in Hw, Hh.
  assert (Hpos : 0 < IZR (width (bbox blob)) * IZR (height (bbox blob)))
    by (apply Rmult_lt_0_compat; assumption).
  split.
  - intros Hin Ht. rewrite Hb. f_equal. apply Hiff.
    rewrite bbox_intersection_comm.
    rewrite (bbox_intersection_inner_area (box_R (bbox blob)) area_);
      cbn [box_R width height]; try lra; [|exact Hin].
    nra.
  - intros H0 Ht. rewrite Hb. f_equal. destruct b; [|reflexivity].
    assert (Hlt := proj1 Hiff eq_refl). rewrite H0 in Hlt. nra.
Qed.

Lemma checkBlobInside_inside_outside_witness :
  (0 < width (bbox blob_A1))%Z /\ (0 < height (bbox blob_A1))%Z
  /\ checkBlobInside (Box (-1) (-1) 10 10) blob_A1 (3 / 4) = Ok true
  /\ checkBlobInside (Box 5 5 10 10) blob_A1 (3 / 4) = Ok false.
Proof.
  assert (Hw : (0 < width (bbox blob_A1))%Z) by (cbn; lia).
  assert (Hh : (0 < height (bbox blob_A1))%Z) by (cbn; lia).
  split; [exact Hw|]. split; [exact Hh|]. split.
  - apply (proj1 (checkBlobInside_inside_outside (Box (-1) (-1) 10 10) blob_A1
                    (3 / 4) Hw Hh)); [|lra].
    unfold isFullyInsideBBox, box_R, blob_A1. cbn [bbox top left width height].
    r_decide.
  - apply (proj2 (checkBlobInside_inside_outside (Box 5 5 10 10) blob_A1
                    (3 / 4) Hw Hh)); [|lra].
    unfold bbox_intersection, box_R, blob_A1. cbn [bbox top left width height].
    r_decide.
Defined.

(** ** Frequencies *)

Lemma class_area_loop (class_name_ : string) (bl : list Blob) (a : R) :
  fold_left
    (fun area_ blob =>
       if String.eqb (class_name blob) class_name_ then area_ + area blob
       else area_)
    bl a
  = a + fold_right Rplus 0
          (map area (filter (fun blob => String.eqb (class_name blob) class_name_) bl)).
Proof.
  revert a; induction bl as [|blob bl IH]; intros a; simpl; [lra|].
  rewrite IH. destruct (String.eqb (class_name blob) class_name_); simpl; lra.
Qed.

Lemma class_area_filter (class_name_ : string) (bl : list Blob) :
  class_area class_name_ bl
  = fold_right Rplus 0
      (map area (filter (fun blob => String.eqb (class_name blob) class_name_) bl)).
Proof. unfold class_area. rewrite class_area_loop. lra. Qed.

Lemma mapM_py_div_ok (l : list R) (d : R) :
  d <> 0 -> mapM (fun x => py_div x d) l = Ok (map (fun x => x / d) l).
Proof.
  intros Hd; induction l as [|a l IH]; simpl; [reflexivity|].
  now rewrite py_div_ok, IH.
Qed.

Lemma mapM_map {A B C : Type} (f : B -> result C) (g : A -> B) (l : list A) :
  mapM f (map g l) = mapM (fun a => f (g a)) l.
Proof.
  induction l as [|a l IH]; simpl; [reflexivity|]. now rewrite IH.
Qed.

Lemma computeFrequencies_value (self : NewDataset) (target_classes : list string) :
  ((map_w self * map_h self <> 0)%Z ->
   exists self',
     computeFrequencies self target_classes = Ok self'
     /\ frequencies self'
        = Some (map (fun class_name_ =>
                       fold_right Rplus 0
                         (map area
                            (filter (fun blob => String.eqb (class_name blob) class_name_)
                                    (blobs self)))
                       / IZR (map_w self * map_h self))
                    target_classes)
     /\ blobs self' = blobs self /\ labels self' = labels self
     /\ radius_map self' = radius_map self)
  /\ ((map_w self * map_h self = 0)%Z -> target_classes <> [] ->
      computeFrequencies self target_classes = Raise ZeroDivisionError).
Proof.
  unfold computeFrequencies; cbv zeta. split.
  - intros HA. apply not_0_IZR in HA.
    rewrite <- (mapM_map (fun x => py_div x (IZR (map_w self * map_h self)))
                  (fun c => class_area c (blobs self))).
    rewrite mapM_py_div_ok by exact HA. cbn [bind].
    eexists. split; [reflexivity|]. cbn [set_frequencies frequencies blobs labels
      radius_map]. repeat split. f_equal. rewrite map_map.
    apply map_ext. intros c. now rewrite class_area_filter.
  - intros HA Hne. destruct target_classes as [|c rest]; [congruence|].
    cbn [mapM]. rewrite HA. now rewrite py_div_zero.
Qed.

(** [computeFrequencies] stores, for every target class in order, the
    summed area of the blobs of that class divided by the area of the map,
    and changes nothing else; on a map without area it fails with
    [ZeroDivisionError] as soon as there is a class. *)
Theorem computeFrequencies_result (self : NewDataset) (target_classes : list string) :
  ((map_w self * map_h self <> 0)%Z ->
   exists self',
     computeFrequencies self target_classes = Ok self'
     /\ frequencies self'
        = Some (map (fun class_name_ =>
                       fold_right Rplus 0
                         (map area
                            (filter (fun blob => String.eqb (class_name blob) class_name_)
                                    (blobs self)))
                       / IZR (map_w self * map_h self))
                    target_classes)
     /\ blobs self' = blobs self /\ labels self' = labels self
     /\ radius_map self' = radius_map self)
  /\ ((map_w self * map_h self = 0)%Z -> target_classes <> [] ->
      computeFrequencies self target_classes = Raise ZeroDivisionError).
Proof. exact (computeFrequencies_value self target_classes). Qed.

Lemma no_blob_of_class (area_ : box R) (class_name_ : string) (bl : list Blob) :
  filter (fun blob => String.eqb (class_name blob) class_name_) bl = [] ->
  areas_inside area_ class_name_ bl = Ok [].
Proof.
  induction bl as [|blob bl IH]; simpl; [reflexivity|].
  destruct (String.eqb (class_name blob) class_name_); [discriminate|exact IH].
Qed.

Lemma fold_right_Rplus_positive (l : list R) :
  l <> [] -> (forall x, In x l -> 0 < x) -> 0 < fold_right Rplus 0 l.
Proof. intros Hne Hpos. rewrite <- py_sum_fold_right. now apply py_sum_positive. Qed.

(** After [computeFrequencies] on a map with positive area whose blobs
    have positive areas, the test on the frequency in [calculateMetrics]
    hides no blob: the areas counted for a class are those of the loop over
    the blobs. *)
Theorem computeFrequencies_then_counted (self self' : NewDataset)
  (target_classes : list string) (area_ : box Z) (i : nat) (class_name_ : string) :
  (0 < map_w self * map_h self)%Z ->
  (forall blob, In blob (blobs self) -> 0 < area blob) ->
  computeFrequencies self target_classes = Ok self' ->
  nth_error target_classes i = Some class_name_ ->
  counted_areas self' area_ i class_name_
  = areas_inside (box_R area_) class_name_ (blobs self').
Proof.
  intros HA Hpos Hcall Hi.
  destruct (proj1 (computeFrequencies_value self target_classes))
    as (s & Hs & Hf & Hb & _); [lia|].
  rewrite Hs in Hcall. injection Hcall as <-.
  unfold counted_areas, frequency_at. rewrite Hf, Hb.
  rewrite (map_nth_error _ _ _ Hi). cbn [bind].
  apply IZR_lt in HA.
  destruct (map area (filter (fun blob => String.eqb (class_name blob) class_name_)
                             (blobs self))) as [|a l] eqn:El.
  - cbn [fold_right]. unfold Rgtb.
    rewrite (proj2 (Rltb_false 0 (0 / _))) by (unfold Rdiv; lra).
    symmetry. apply no_blob_of_class. now apply map_eq_nil in El.
  - assert (Hsum : 0 < fold_right Rplus 0 (a :: l)).
    { apply fold_right_Rplus_positive; [discriminate|].
      intros x Hx. rewrite <- El in Hx.
      apply in_map_iff in Hx. destruct Hx as (blob & <- & Hin).
      apply filter_In in Hin. now apply Hpos. }
    unfold Rgtb. rewrite (proj2 (Rltb_true 0 (_ / _))); [reflexivity|].
    apply Rmult_lt_0_compat; [exact Hsum|now apply Rinv_0_lt_compat].
Qed.

Lemma computeFrequencies_then_counted_witness :
  (0 < map_w dataset_two_classes * map_h dataset_two_classes)%Z
  /\ (forall blob, In blob (blobs dataset_two_classes) -> 0 < area blob)
  /\ exists self',
       computeFrequencies dataset_two_classes ["A"; "B"]%string = Ok self'
       /\ nth_error ["A"; "B"]%string 1 = Some "B"%string
       /\ counted_areas self' (Box 0%Z 0%Z 10%Z 10%Z) 1 "B"
          = areas_inside (box_R (Box 0%Z 0%Z 10%Z 10%Z)) "B" (blobs self').
Proof.
  assert (HA : (0 < map_w dataset_two_classes * map_h dataset_two_classes)%Z)
    by (cbn; lia).
  assert (Hpos : forall blob, In blob (blobs dataset_two_classes) -> 0 < area blob).
  { intros blob Hin. cbn [dataset_two_classes blobs] in Hin.
    destruct Hin as [<-|[<-|[<-|[]]]]; cbn [area blob_A1 blob_B1 blob_B2]; lra. }
  split; [exact HA|]. split; [exact Hpos|].
  destruct (proj1 (computeFrequencies_value dataset_two_classes
                     ["A"; "B"]%string))
    as (self' & Hs & _); [cbn; lia|].
  exists self'. split; [exact Hs|]. split; [reflexivity|].
  exact (computeFrequencies_then_counted dataset_two_classes self'
           ["A"; "B"]%string (Box 0%Z 0%Z 10%Z 10%Z) 1 "B" HA Hpos Hs eq_refl).
Defined.

(** ** Coverage *)

Lemma mapM_ext_ok {A B : Type} (f : A -> result B) (g : A -> B) (l : list A) :
  (forall a, f a = Ok (g a)) -> mapM f l = Ok (map g l).
Proof.
  intros H; induction l as [|a l IH]; simpl; [reflexivity|].
  now rewrite H, IH.
Qed.

Lemma length_py_slice {A : Type} (l : list A) (start stop : Z) :
  (0 <= stop - start)%Z ->
  (length (py_slice l start stop) <= Z.to_nat (stop - start))%nat.
Proof.
  intros H. unfold py_slice; cbv zeta. rewrite length_firstn.
  apply Nat.le_trans with (m := Z.to_nat (slice_index (Z.of_nat (length l)) stop
                                         - slice_index (Z.of_nat (length l)) start));
    [apply Nat.le_min_l|].
  unfold slice_index.
  destruct (stop <? 0)%Z eqn:E1; destruct (start <? 0)%Z eqn:E2;
    try apply Z.ltb_lt in E1; try apply Z.ltb_lt in E2;
    try apply Z.ltb_ge in E1; try apply Z.ltb_ge in E2; lia.
Qed.

Lemma count_equal_loop (i : Z) (a : ndarray Z) (m n : nat) :
  (forall row, In row a -> (length row <= m)%nat) ->
  (fold_left (fun n row => (n + length (filter (Z.eqb i) row))%nat) a n
   <= n + length a * m)%nat.
Proof.
  revert n; induction a as [|row a IH]; intros n H; simpl; [lia|].
  assert (Hrow : (length (filter (Z.eqb i) row) <= m)%nat).
  { apply Nat.le_trans with (m := length row); [apply filter_length_le|].
    apply H. now left. }
  specialize (IH (n + length (filter (Z.eqb i) row))%nat
                 (fun r Hr => H r (or_intror Hr))).
  lia.
Qed.

Lemma count_equal_le (i : Z) (a : ndarray Z) (m : nat) :
  (forall row, In row a -> (length row <= m)%nat) ->
  (count_equal i a <= length a * m)%nat.
Proof. intros H. unfold count_equal. now apply (count_equal_loop i a m 0). Qed.

(** [computeExactCoverage] fails with [TypeError] when the labels were not
    built and with [ZeroDivisionError] on an area of size 0 when there is a
    class; on an area with positive sides it returns one coverage per
    class, each between 0 and 1. *)
Theorem computeExactCoverage_range (self : NewDataset) (area_ : box Z)
  (target_classes : list string) :
  (labels self = None ->
   computeExactCoverage self area_ target_classes = Raise TypeError)
  /\ (labels self <> None -> (width area_ * height area_ = 0)%Z ->
      target_classes <> [] ->
      computeExactCoverage self area_ target_classes = Raise ZeroDivisionError)
  /\ (labels self <> None -> (0 < width area_)%Z -> (0 < height area_)%Z ->
      exists coverage,
        computeExactCoverage self area_ target_classes = Ok coverage
        /\ length coverage = length target_classes
        /\ forall x, In x coverage -> 0 <= x <= 1).
Proof.
  unfold computeExactCoverage; cbv zeta. split; [now intros ->|]. split.
  - intros Hl HA Hne. destruct (labels self) as [lbl|]; [|congruence].
    destruct target_classes as [|c rest]; [congruence|].
    rewrite HA. cbn [length]. rewrite Nat2Z.inj_succ.
    unfold range. rewrite Z2Nat.inj_succ by lia. cbn [seq map mapM].
    now rewrite py_div_zero.
  - intros Hl Hw Hh. destruct (labels self) as [lbl|]; [|congruence].
    set (window := map (fun row => py_slice row (left area_) (left area_ + width area_))
                       (py_slice lbl (top area_) (top area_ + height area_))).
    assert (HA : 0 < IZR (width area_ * height area_)).
    { apply IZR_lt. lia. }
    assert (Hcount : forall i, (count_equal i window
                                <= Z.to_nat (height area_) * Z.to_nat (width area_))%nat).
    { intros i.
      apply Nat.le_trans with (m := (length window * Z.to_nat (width area_))%nat).
      - apply count_equal_le. intros row Hrow. unfold window in Hrow.
        apply in_map_iff in Hrow. destruct Hrow as (r & <- & _).
        replace (width area_) with (left area_ + width area_ - left area_)%Z at 2 by lia.
        apply length_py_slice. lia.
      - apply Nat.mul_le_mono_r. unfold window. rewrite length_map.
        replace (height area_) with (top area_ + height area_ - top area_)%Z at 2 by lia.
        apply length_py_slice. lia. }
    assert (Hdiv : forall i, 0 <= INR (count_equal i window)
                                  / IZR (width area_ * height area_) <= 1).
    { intros i. split.
      - apply Rmult_le_pos; [apply pos_INR|]. left. now apply Rinv_0_lt_compat.
      - apply Rmult_le_reg_r with (r := IZR (width area_ * height area_));
          [exact HA|].
        unfold Rdiv. rewrite Rmult_assoc, Rinv_l, Rmult_1_r, Rmult_1_l by lra.
        rewrite INR_IZR_INZ. apply IZR_le.
        specialize (Hcount i). apply Nat2Z.inj_le in Hcount.
        rewrite Nat2Z.inj_mul, !Z2Nat.id in Hcount by lia. lia. }
    rewrite (mapM_ext_ok _ (fun i : Z => INR (count_equal (i + 1) window)
                                          / IZR (width area_ * height area_))).
    + eexists. split; [reflexivity|]. split.
      * rewrite length_map, length_range. lia.
      * intros x Hx. apply in_map_iff in Hx. destruct Hx as (i & <- & _).
        apply Hdiv.
    + intros i. apply py_div_ok. lra.
Qed.

(** ** Scores *)

Lemma mapM_bind_map {A B C : Type} (f : A -> result B) (g : A -> result C)
  (h : B -> C) (l : list A) (bs : list B) :
  (forall a b, In a l -> f a = Ok b -> g a = Ok (h b)) ->
  mapM f l = Ok bs -> mapM g l = Ok (map h bs).
Proof.
  revert bs; induction l as [|a l IH]; simpl; intros bs H Hf.
  - now injection Hf as <-.
  - destruct (f a) as [b| |] eqn:E; try discriminate. cbn [bind] in Hf.
    destruct (mapM f l) as [bs'| |]; try discriminate. cbn [bind] in Hf.
    injection Hf as <-.
    rewrite (H a b (or_introl eq_refl) E). cbn [bind].
    rewrite (IH bs' (fun a' b' Ha => H a' b' (or_intror Ha)) eq_refl).
    reflexivity.
Qed.

Lemma mapM_Forall {A B : Type} (f : A -> result B) (P : B -> Prop)
  (l : list A) (bs : list B) :
  (forall a b, In a l -> f a = Ok b -> P b) ->
  mapM f l = Ok bs -> Forall P bs.
Proof.
  revert bs; induction l as [|a l IH]; simpl; intros bs H Hf.
  - injection Hf as <-. constructor.
  - destruct (f a) as [b| |] eqn:E; try discriminate. cbn [bind] in Hf.
    destruct (mapM f l) as [bs'| |]; try discriminate. cbn [bind] in Hf.
    injection Hf as <-. constructor.
    + now apply (H a b (or_introl eq_refl)).
    + apply (IH bs'); [|reflexivity]. intros a' b' Ha. apply H. now right.
Qed.

Lemma combine_projections {A B C : Type} (l : list (A * B * C)) :
  combine (combine (map (fun t => fst (fst t)) l) (map (fun t => snd (fst t)) l))
          (map snd l) = l.
Proof.
  induction l as [|[[a b] c] l IH]; simpl; [reflexivity|]. now rewrite IH.
Qed.

Lemma class_distances_nonneg (an : list nat) (ac ap : list R) (ln_ : list nat)
  (lc lp : list R) (i k : nat) (s1 s2 s3 : R) :
  class_distances an ac ap ln_ lc lp i k = Ok (s1, s2, s3) ->
  0 <= s1 /\ 0 <= s2 /\ 0 <= s3.
Proof.
  unfold class_distances. intros H.
  destruct (item an i); try discriminate; cbn [bind] in H.
  destruct (item ac i); try discriminate; cbn [bind] in H.
  destruct (item lc i); try discriminate; cbn [bind] in H.
  destruct (item ap i); try discriminate; cbn [bind] in H.
  destruct (item lp i); try discriminate; cbn [bind] in H.
  injection H as <- <- <-. repeat split; apply Rabs_pos.
Qed.

(** Where [rangeScore] returns the three lists of distances,
    [calculateScore] returns their sums, class by class; no distance is
    negative. *)
Theorem calculateScore_sum (area_number : list nat) (area_coverage area_PSCV : list R)
  (landscape_number : list nat) (landscape_coverage landscape_PSCV : list R)
  (s1 s2 s3 : list R) :
  rangeScore area_number area_coverage area_PSCV
    landscape_number landscape_coverage landscape_PSCV = Ok (s1, s2, s3) ->
  calculateScore area_number area_coverage area_PSCV
    landscape_number landscape_coverage landscape_PSCV
  = Ok (map (fun t => fst (fst t) + snd (fst t) + snd t) (combine (combine s1 s2) s3))
  /\ length s1 = length area_number
  /\ length s2 = length area_number
  /\ length s3 = length area_number
  /\ Forall (fun x => 0 <= x) s1
  /\ Forall (fun x => 0 <= x) s2
  /\ Forall (fun x => 0 <= x) s3.
Proof.
  unfold rangeScore, calculateScore. intros H.
  destruct (mapM _ (seq 0 (length area_number))) as [ts| |] eqn:E;
    try discriminate. cbn [bind] in H. injection H as <- <- <-.
  rewrite combine_projections.
  assert (Hnn : Forall (fun t => 0 <= fst (fst t) /\ 0 <= snd (fst t) /\ 0 <= snd t) ts).
  { eapply mapM_Forall; [|exact E]. intros i t _ Hi. cbv beta in Hi.
    destruct (item landscape_number i) as [k| |]; try discriminate.
    cbn [bind] in Hi. destruct (0 <? k)%nat.
    - destruct t as [[a b] c]. now apply class_distances_nonneg in Hi.
    - injection Hi as <-. cbn. lra. }
  split.
  - eapply mapM_bind_map; [|exact E]. intros i t _ Hi. cbv beta in Hi |- *.
    destruct (item landscape_number i) as [k| |]; try discriminate.
    cbn [bind] in Hi |- *. destruct (0 <? k)%nat.
    + rewrite Hi. now destruct t as [[a b] c].
    + injection Hi as <-. cbn [fst snd]. f_equal. lra.
  - apply mapM_length in E. rewrite length_seq in E.
    rewrite !length_map. repeat split; try exact E.
    + rewrite Forall_map. eapply Forall_impl; [|exact Hnn].
      now intros t (H1 & H2 & H3).
    + rewrite Forall_map. eapply Forall_impl; [|exact Hnn].
      now intros t (H1 & H2 & H3).
    + rewrite Forall_map. eapply Forall_impl; [|exact Hnn].
      now intros t (H1 & H2 & H3).
Qed.

Lemma rangeScore_example :
  rangeScore [1%nat] [1 / 2] [0] [2%nat] [1 / 4] [10] = Ok ([35], [25], [10]).
Proof.
  unfold rangeScore, class_distances, item.
  cbn [length seq mapM nth_error bind Nat.ltb Nat.leb map fst snd INR].
  replace (Rabs (1 / (1 + 1) * 100 - 15)) with 35
    by (rewrite Rabs_right; lra).
  replace (Rabs ((1 / 2 - 1 / 4) * 100)) with 25
    by (rewrite Rabs_right; lra).
  replace (Rabs (0 - 10)) with 10
    by (rewrite Rabs_left; lra).
  reflexivity.
Qed.

Lemma calculateScore_sum_witness :
  rangeScore [1%nat] [1 / 2] [0] [2%nat] [1 / 4] [10] = Ok ([35], [25], [10])
  /\ calculateScore [1%nat] [1 / 2] [0] [2%nat] [1 / 4] [10] = Ok [35 + 25 + 10].
Proof.
  split; [exact rangeScore_example|].
  exact (proj1 (calculateScore_sum _ _ _ _ _ _ _ _ _ rangeScore_example)).
Defined.

Lemma mapM_seq_map {A B : Type} (f : nat -> result B) (g : A -> B) (l : list A)
  (k : nat) :
  (forall i a, nth_error l i = Some a -> f (k + i)%nat = Ok (g a)) ->
  mapM f (seq k (length l)) = Ok (map g l).
Proof.
  revert k; induction l as [|a l IH]; intros k H; simpl; [reflexivity|].
  rewrite <- (Nat.add_0_r k) at 1. rewrite (H 0%nat a eq_refl). cbn [bind].
  rewrite (IH (S k)); [reflexivity|].
  intros i b Hi. replace (S k + i)%nat with (k + S i)%nat by lia. now apply H.
Qed.

Lemma item_nth_error {A : Type} (l : list A) (i : nat) (a : A) :
  nth_error l i = Some a -> item l i = Ok a.
Proof. unfold item. now intros ->. Qed.

(** The score of the metrics of the whole map against themselves is 85
    for every class that has entities, and 0 for the others: the count of
    an area is compared with 15 % of the count of the map. *)
Theorem calculateScore_of_landscape (number : list nat) (coverage PSCV : list R) :
  length coverage = length number -> length PSCV = length number ->
  calculateScore number coverage PSCV number coverage PSCV
  = Ok (map (fun k => if (0 <? k)%nat then 85 else 0) number).
Proof.
  intros Hc Hp. unfold calculateScore. apply (mapM_seq_map _ _ number 0).
  intros i k Hi. cbn [Nat.add].
  rewrite (item_nth_error _ _ _ Hi). cbn [bind].
  destruct (0 <? k)%nat eqn:Ek; [|reflexivity].
  apply Nat.ltb_lt in Ek.
  assert (Hlt : (i < length number)%nat) by (apply nth_error_Some; congruence).
  destruct (item_total coverage i) as [c Hci]; [lia|].
  destruct (item_total PSCV i) as [p Hpi]; [lia|].
  unfold class_distances.
  rewrite (item_nth_error _ _ _ Hi), Hci, Hpi. cbn [bind]. f_equal.
  assert (Hk : INR k <> 0) by (apply not_0_INR; lia).
  replace (INR k / INR k * 100 - 15) with 85 by (field; exact Hk).
  replace ((c - c) * 100) with 0 by ring.
  replace (p - p) with 0 by ring.
  rewrite Rabs_R0, Rabs_right by lra. ring.
Qed.

Lemma calculateScore_of_landscape_witness :
  length [1 / 5; 0] = length [3%nat; 0%nat]
  /\ length [10; 0] = length [3%nat; 0%nat]
  /\ calculateScore [3%nat; 0%nat] [1 / 5; 0] [10; 0] [3%nat; 0%nat] [1 / 5; 0] [10; 0]
     = Ok [85; 0].
Proof.
  split; [reflexivity|]. split; [reflexivity|].
  exact (calculateScore_of_landscape [3%nat; 0%nat] [1 / 5; 0] [10; 0]
           eq_refl eq_refl).
Defined.

(** ** Normalization factors *)

Lemma nth_error_seq_0 (k i : nat) : (i < k)%nat -> nth_error (seq 0 k) i = Some i.
Proof.
  intros H. rewrite nth_error_nth' with (d := 0%nat) by now rewrite length_seq.
  now rewrite seq_nth.
Qed.

Lemma np_min_axis0_le (rows : list (list R)) (v row : list R) (i : nat) :
  np_min_axis0 rows = Ok v -> In row rows -> (i < length (hd [] rows))%nat ->
  nth i v 0 <= nth i row 0.
Proof.
  destruct rows as [|r rows]; [discriminate|]. cbn [np_min_axis0 hd].
  intros H Hin Hi.
  destruct (mapM_nth_error _ _ _ i i H (nth_error_seq_0 _ _ Hi)) as (m & Hm & Hmin).
  rewrite (nth_error_nth _ _ _ Hm).
  apply (np_min_le _ _ _ Hmin).
  apply (in_map (fun row0 => nth i row0 0)) in Hin. exact Hin.
Qed.

Lemma np_max_axis0_ge (rows : list (list R)) (v row : list R) (i : nat) :
  np_max_axis0 rows = Ok v -> In row rows -> (i < length (hd [] rows))%nat ->
  nth i row 0 <= nth i v 0.
Proof.
  destruct rows as [|r rows]; [discriminate|]. cbn [np_max_axis0 hd].
  intros H Hin Hi.
  destruct (mapM_nth_error _ _ _ i i H (nth_error_seq_0 _ _ Hi)) as (m & Hm & Hmax).
  rewrite (nth_error_nth _ _ _ Hm).
  apply (np_max_ge _ _ _ Hmax).
  apply (in_map (fun row0 => nth i row0 0)) in Hin. exact Hin.
Qed.

(** The normalization factors of [findAreas] bracket every distance they
    were computed from: for each class, the minimum is at most, and the
    maximum at least, the distance of every sampled area. *)
Theorem normalization_bounds_bracket (sn sc sP : list (list R)) (b : Bounds) :
  normalization_bounds sn sc sP = Ok b ->
  (forall row i, In row sn -> (i < length (hd [] sn))%nat ->
                 nth i (sn_min b) 0 <= nth i row 0 <= nth i (sn_max b) 0)
  /\ (forall row i, In row sc -> (i < length (hd [] sc))%nat ->
                    nth i (sc_min b) 0 <= nth i row 0 <= nth i (sc_max b) 0)
  /\ (forall row i, In row sP -> (i < length (hd [] sP))%nat ->
                    nth i (sP_min b) 0 <= nth i row 0 <= nth i (sP_max b) 0).
Proof.
  unfold normalization_bounds. intros H.
  destruct (np_min_axis0 sn) as [v1| |] eqn:E1; try discriminate; cbn [bind] in H.
  destruct (np_max_axis0 sn) as [v2| |] eqn:E2; try discriminate; cbn [bind] in H.
  destruct (np_min_axis0 sc) as [v3| |] eqn:E3; try discriminate; cbn [bind] in H.
  destruct (np_max_axis0 sc) as [v4| |] eqn:E4; try discriminate; cbn [bind] in H.
  destruct (np_min_axis0 sP) as [v5| |] eqn:E5; try discriminate; cbn [bind] in H.
  destruct (np_max_axis0 sP) as [v6| |] eqn:E6; try discriminate; cbn [bind] in H.
  injection H as <-. cbn [sn_min sn_max sc_min sc_max sP_min sP_max].
  repeat split;
    first [eapply np_min_axis0_le; eassumption
          |eapply np_max_axis0_ge; eassumption].
Qed.

Lemma normalization_bounds_bracket_witness :
  normalization_bounds [[1]; [3]] [[2]; [2]] [[5]; [0]]
  = Ok {| sn_min := [1]; sn_max := [3]; sc_min := [2]; sc_max := [2];
          sP_min := [0]; sP_max := [5] |}
  /\ 1 <= 3 <= 3 /\ 0 <= 5 <= 5.
Proof.
  assert (E : normalization_bounds [[1]; [3]] [[2]; [2]] [[5]; [0]]
              = Ok {| sn_min := [1]; sn_max := [3]; sc_min := [2]; sc_max := [2];
                      sP_min := [0]; sP_max := [5] |}).
  { unfold normalization_bounds, np_min_axis0, np_max_axis0.
    cbn [length seq mapM map nth np_min np_max fold_left bind].
    r_decide. }
  split; [exact E|].
  destruct (normalization_bounds_bracket _ _ _ _ E) as (Hn & _ & HP).
  split.
  - exact (Hn [3] 0%nat (or_intror (or_introl eq_refl)) (Nat.lt_0_succ 0)).
  - exact (HP [5] 0%nat (or_introl eq_refl) (Nat.lt_0_succ 0)).
Defined.

Lemma item_nth {A : Type} (l : list A) (i : nat) (a d : A) :
  item l i = Ok a -> nth i l d = a.
Proof.
  unfold item. destruct (nth_error l i) eqn:E; [|discriminate].
  intros [= <-]. now apply nth_error_nth.
Qed.

Lemma item_ok {A : Type} (l : list A) (i : nat) (d : A) :
  (i < length l)%nat -> item l i = Ok (nth i l d).
Proof.
  intros H. unfold item. destruct (nth_error l i) as [a|] eqn:E.
  - now rewrite (nth_error_nth _ _ d E).
  - apply nth_error_None in E. lia.
Qed.

Lemma unit_interval_div (x lo hi : R) :
  lo <= x <= hi -> lo < hi -> 0 <= (x - lo) / (hi - lo) <= 1.
Proof.
  intros [H1 H2] Hne. assert (Hpos : 0 < hi - lo) by lra. split.
  - apply Rmult_le_pos; [lra|]. left. now apply Rinv_0_lt_compat.
  - apply Rmult_le_reg_r with (r := hi - lo); [exact Hpos|].
    unfold Rdiv. rewrite Rmult_assoc, Rinv_l by lra. lra.
Qed.

Lemma mapM_pointwise {A B : Type} (f : A -> result B) (P : A -> B -> Prop)
  (l : list A) :
  (forall a, In a l -> exists b, f a = Ok b /\ P a b) ->
  exists bs,
    mapM f l = Ok bs /\ length bs = length l
    /\ forall k a, nth_error l k = Some a ->
                   exists b, nth_error bs k = Some b /\ P a b.
Proof.
  induction l as [|x l IH]; intros H.
  - exists []. split; [reflexivity|]. split; [reflexivity|].
    intros k a Hk. destruct k; discriminate.
  - destruct (H x (or_introl eq_refl)) as (b & Hb & Pb).
    destruct IH as (bs & Hbs & Hlen & Hnth); [intros a Ha; apply H; now right|].
    exists (b :: bs). cbn [mapM]. rewrite Hb, bind_Ok, Hbs, bind_Ok.
    split; [reflexivity|]. split; [cbn [length]; now rewrite Hlen|].
    intros [|k] a Hk; cbn [nth_error] in *.
    + injection Hk as <-. now exists b.
    + now apply Hnth.
Qed.

(** Where [rangeScore] returns and the factors have one entry per class,
    [calculateNormalizedScore] returns one score per class.  The score of
    a class whose three distances lie between factors that differ is a
    number between 0 and 1.  The score of a class with entities whose
    PSCV distance equals both of its factors, as they are when every
    sampled area gave the same distance, is nan. *)
Theorem calculateNormalizedScore_unit (b : Bounds)
  (area_number : list nat) (area_coverage area_PSCV : list R)
  (landscape_number : list nat) (landscape_coverage landscape_PSCV : list R)
  (s1 s2 s3 : list R) :
  rangeScore area_number area_coverage area_PSCV
    landscape_number landscape_coverage landscape_PSCV = Ok (s1, s2, s3) ->
  bounds_of_length b (length area_number) ->
  exists scores : list npfloat,
    calculateNormalizedScore b area_number area_coverage area_PSCV
      landscape_number landscape_coverage landscape_PSCV = Ok scores
    /\ length scores = length area_number
    /\ forall i, (i < length area_number)%nat ->
         (nth i (sn_min b) 0 <= nth i s1 0 <= nth i (sn_max b) 0 ->
          nth i (sc_min b) 0 <= nth i s2 0 <= nth i (sc_max b) 0 ->
          nth i (sP_min b) 0 <= nth i s3 0 <= nth i (sP_max b) 0 ->
          nth i (sn_min b) 0 < nth i (sn_max b) 0 ->
          nth i (sc_min b) 0 < nth i (sc_max b) 0 ->
          nth i (sP_min b) 0 < nth i (sP_max b) 0 ->
          exists x, nth i scores NaN = Finite x /\ 0 <= x <= 1)
         /\ ((0 < nth i landscape_number 0)%nat ->
             nth i (sP_min b) 0 = nth i s3 0 ->
             nth i (sP_max b) 0 = nth i s3 0 ->
             nth i scores (Finite 0) = NaN).
Proof.
  unfold rangeScore. intros Hrange (L1 & L2 & L3 & L4 & L5 & L6).
  destruct (mapM _ (seq 0 (length area_number))) as [ts| |] eqn:E;
    try discriminate. cbn [bind] in Hrange. injection Hrange as <- <- <-.
  set (P := fun (i : nat) (x : npfloat) =>
              (nth i (sn_min b) 0 <= nth i (map (fun t => fst (fst t)) ts) 0
                 <= nth i (sn_max b) 0 ->
               nth i (sc_min b) 0 <= nth i (map (fun t => snd (fst t)) ts) 0
                 <= nth i (sc_max b) 0 ->
               nth i (sP_min b) 0 <= nth i (map snd ts) 0 <= nth i (sP_max b) 0 ->
               nth i (sn_min b) 0 < nth i (sn_max b) 0 ->
               nth i (sc_min b) 0 < nth i (sc_max b) 0 ->
               nth i (sP_min b) 0 < nth i (sP_max b) 0 ->
               exists r, x = Finite r /\ 0 <= r <= 1)
              /\ ((0 < nth i landscape_number 0)%nat ->
                  nth i (sP_min b) 0 = nth i (map snd ts) 0 ->
                  nth i (sP_max b) 0 = nth i (map snd ts) 0 ->
                  x = NaN)).
  destruct (mapM_pointwise
              (fun i =>
                 ln <- item landscape_number i ;;
                 if (0 <? ln)%nat then
                   '(s1, s2, s3) <- class_distances area_number area_coverage
                                      area_PSCV landscape_number landscape_coverage
                                      landscape_PSCV i ln ;;
                   sn_lo <- item (sn_min b) i ;;
                   sn_hi <- item (sn_max b) i ;;
                   let sn := np_fdiv (s1 - sn_lo) (sn_hi - sn_lo) in
                   sc_lo <- item (sc_min b) i ;;
                   sc_hi <- item (sc_max b) i ;;
                   let sc := np_fdiv (s2 - sc_lo) (sc_hi - sc_lo) in
                   sP_lo <- item (sP_min b) i ;;
                   sP_hi <- item (sP_max b) i ;;
                   let sP := np_fdiv (s3 - sP_lo) (sP_hi - sP_lo) in
                   Ok (np_div_by (np_add (np_add sn sc) sP) 3)
                 else Ok (Finite 0))
              P (seq 0 (length area_number)))
    as (scores & Hs & Hlen & Hnth).
  - intros i Hi. apply in_seq in Hi. cbn [Nat.add] in Hi. destruct Hi as [_ Hi].
    destruct (mapM_nth_error _ _ _ i i E (nth_error_seq_0 _ _ Hi))
      as (t & Ht & Hti). cbv beta in Hti.
    assert (Hlt : (i < length ts)%nat) by (apply nth_error_Some; congruence).
    unfold P. rewrite !(nth_map_in _ _ _ _ t) by exact Hlt.
    rewrite (nth_error_nth _ _ _ Ht).
    destruct (item landscape_number i) as [k| |] eqn:Ek; try discriminate.
    rewrite (item_nth _ _ _ 0%nat Ek). cbn [bind] in Hti |- *.
    destruct (0 <? k)%nat eqn:Epos.
    + rewrite Hti. cbn [bind]. destruct t as [[a c] p]. cbn [fst snd].
      rewrite (item_ok (sn_min b) i 0), (item_ok (sn_max b) i 0),
              (item_ok (sc_min b) i 0), (item_ok (sc_max b) i 0),
              (item_ok (sP_min b) i 0), (item_ok (sP_max b) i 0) by lia.
      cbn [bind]. eexists. split; [reflexivity|]. split.
      * intros Hn Hc Hp Dn Dc Dp.
        rewrite !np_fdiv_number by lra. cbn [np_add np_div_by].
        eexists. split; [reflexivity|].
        pose proof (unit_interval_div _ _ _ Hn Dn).
        pose proof (unit_interval_div _ _ _ Hc Dc).
        pose proof (unit_interval_div _ _ _ Hp Dp). lra.
      * intros _ Hlo Hhi.
        rewrite (np_fdiv_nan (p - _) _) by lra.
        now rewrite np_add_nan_r.
    + eexists. split; [reflexivity|]. split.
      * intros _ _ _ _ _ _. exists 0. split; [reflexivity|lra].
      * intros Hk. apply Nat.ltb_ge in Epos. lia.
  - unfold calculateNormalizedScore. exists scores.
    split; [exact Hs|]. rewrite length_seq in Hlen. split; [exact Hlen|].
    intros i Hi. destruct (Hnth i i (nth_error_seq_0 _ _ Hi)) as (x & Hx & HP1 & HP2).
    split.
    + intros Hn Hc Hp Dn Dc Dp. rewrite (nth_error_nth _ _ NaN Hx).
      now apply HP1.
    + intros Hk Hlo Hhi. rewrite (nth_error_nth _ _ (Finite 0) Hx).
      now apply HP2.
Qed.

Lemma calculateNormalizedScore_unit_witness :
  rangeScore [1%nat] [1 / 2] [0] [2%nat] [1 / 4] [10] = Ok ([35], [25], [10])
  /\ exists scores : list npfloat,
       calculateNormalizedScore
         {| sn_min := [0]; sn_max := [70]; sc_min := [0]; sc_max := [50];
            sP_min := [0]; sP_max := [20] |}
         [1%nat] [1 / 2] [0] [2%nat] [1 / 4] [10] = Ok scores
       /\ exists x, nth 0 scores NaN = Finite x /\ 0 <= x <= 1.
Proof.
  split; [exact rangeScore_example|].
  destruct (calculateNormalizedScore_unit
              {| sn_min := [0]; sn_max := [70]; sc_min := [0]; sc_max := [50];
                 sP_min := [0]; sP_max := [20] |}
              _ _ _ _ _ _ _ _ _ rangeScore_example)
    as (scores & Hs & _ & Hall).
  - repeat split.
  - exists scores. split; [exact Hs|].
    apply (proj1 (Hall 0%nat (Nat.lt_0_succ 0)));
      cbn [nth sn_min sn_max sc_min sc_max sP_min sP_max]; lra.
Defined.

(** ** The random areas of the search *)

Lemma randint_inv (rnd : Random) (n n' : nat) (a b v : Z) :
  randint rnd n a b = Ok (v, n') ->
  (a <= b)%Z /\ v = randint_draw rnd n a b /\ n' = S n.
Proof.
  unfold randint. destruct (b <? a)%Z eqn:E; [discriminate|].
  apply Z.ltb_ge in E. intros [= <- <-]. auto.
Qed.

Lemma draw_area_fair (self : NewDataset) (rnd : Random)
  (area_w area_h : Z) (n n' : nat) (a : box Z) :
  fair_source rnd ->
  draw_area self rnd area_w area_h n = Ok (a, n') ->
  n' = S (S (S n))
  /\ (0 <= top a /\ 0 <= left a
      /\ left a + width a < map_w self /\ top a + height a < map_h self)%Z
  /\ isFullyInsideBBox (box_R a) (box_R (map_box self)) = true.
Proof.
  intros Hfair. unfold draw_area, uniform. intros H.
  destruct (py_div _ _) as [q| |]; try discriminate. cbn [bind] in H.
  destruct (randint rnd (S n) 0 _) as [[px n1]| |] eqn:E1; try discriminate.
  cbn [bind] in H.
  destruct (randint rnd n1 0 _) as [[py n2]| |] eqn:E2; try discriminate.
  cbn [bind] in H. injection H as <- <-.
  apply randint_inv in E1. destruct E1 as (Hx & -> & ->).
  apply randint_inv in E2. destruct E2 as (Hy & -> & ->).
  pose proof (Hfair (S n) _ _ Hx) as Bx. pose proof (Hfair (S (S n)) _ _ Hy) as By.
  cbn [top left width height].
  split; [reflexivity|]. split; [lia|].
  apply isFullyInsideBBox_grown; cbn [box_R map_box top left width height];
    rewrite <- ?plus_IZR; first [apply IZR_le|apply IZR_lt]; lia.
Qed.

(** With a random source that keeps its bounds, every area that
    [draw_area] returns lies strictly inside the map, three draws later;
    when the drawn width leaves no room in the map, the call fails with
    [ValueError]. *)
Theorem draw_area_inside_map (self : NewDataset) (rnd : Random)
  (area_w area_h : Z) (n : nat) :
  fair_source rnd ->
  (forall a n',
     draw_area self rnd area_w area_h n = Ok (a, n') ->
     n' = S (S (S n))
     /\ (0 <= top a /\ 0 <= left a
         /\ left a + width a < map_w self /\ top a + height a < map_h self)%Z
     /\ isFullyInsideBBox (box_R a) (box_R (map_box self)) = true)
  /\ (forall q,
        py_div (IZR area_w) (uniform_draw rnd n (4 / 10) (25 / 10)) = Ok q ->
        (map_w self <= py_int q)%Z ->
        draw_area self rnd area_w area_h n = Raise ValueError).
Proof.
  intros Hfair. split.
  - intros a n'. now apply draw_area_fair.
  - intros q Hq Hroom. unfold draw_area, uniform. rewrite Hq. cbn [bind].
    unfold randint.
    now rewrite (proj2 (Z.ltb_lt (map_w self - py_int q - 1) 0)) by lia.
Qed.

Lemma rnd_unit_low_fair : fair_source rnd_unit_low.
Proof. intros n a b H. cbn. lia. Qed.

Lemma draw_area_inside_map_witness :
  fair_source rnd_unit_low
  /\ draw_area dataset_blank_100 rnd_unit_low 38 38 0 = Ok (area_top_left, 3%nat)
  /\ isFullyInsideBBox (box_R area_top_left) (box_R (map_box dataset_blank_100))
     = true.
Proof.
  pose proof (blank_draw rnd_unit_low (fun _ _ _ => eq_refl) 0) as Hd.
  split; [exact rnd_unit_low_fair|]. split; [exact Hd|].
  exact (proj2 (proj2 (proj1 (draw_area_inside_map dataset_blank_100 rnd_unit_low
                                38 38 0 rnd_unit_low_fair) _ _ Hd))).
Defined.

(** ** The search without a target class *)

Lemma finite_bind {A B : Type} (c : result A) (k : A -> result B) :
  finite c -> (forall a, c = Ok a -> finite (k a)) -> finite (bind c k).
Proof.
  unfold finite. intros Hc Hk. destruct c as [a|e|]; cbn [bind];
    [now apply Hk|discriminate|congruence].
Qed.

Lemma finite_mapM {A B : Type} (f : A -> result B) (l : list A) :
  (forall a, finite (f a)) -> finite (mapM f l).
Proof.
  intros Hf. induction l as [|a l IH]; cbn [mapM]; [discriminate|].
  apply finite_bind; [apply Hf|]. intros b _.
  apply finite_bind; [exact IH|]. intros bs _. discriminate.
Qed.

Lemma finite_foldM {A St : Type} (f : St -> A -> result St) (l : list A) (s : St) :
  (forall s a, finite (f s a)) -> finite (foldM f l s).
Proof.
  intros Hf. revert s; induction l as [|a l IH]; intros s; cbn [foldM];
    [discriminate|].
  apply finite_bind; [apply Hf|]. intros s' _. apply IH.
Qed.

Lemma finite_py_div (x y : R) : finite (py_div x y).
Proof. unfold finite, py_div. destruct (Req_b y 0); discriminate. Qed.

Lemma finite_randint (rnd : Random) (n : nat) (a b : Z) : finite (randint rnd n a b).
Proof. unfold finite, randint. destruct (b <? a)%Z; discriminate. Qed.

Lemma finite_draw_area (self : NewDataset) (rnd : Random) (area_w area_h : Z)
  (n : nat) : finite (draw_area self rnd area_w area_h n).
Proof.
  unfold draw_area, uniform.
  apply finite_bind; [apply finite_py_div|]. intros q _.
  apply finite_bind; [apply finite_randint|]. intros [px n1] _.
  apply finite_bind; [apply finite_randint|]. intros [py n2] _. discriminate.
Qed.

Lemma calculateMetrics_no_class (self : NewDataset) (area_ : box Z) :
  calculateMetrics self area_ []
  = match labels self with
    | None => Raise TypeError
    | Some _ => Ok ([], [], [])
    end.
Proof.
  unfold calculateMetrics, computeExactCoverage. cbn [enumerate length seq combine mapM bind].
  destruct (labels self); reflexivity.
Qed.

Lemma finite_np_min_axis0 (rows : list (list R)) : finite (np_min_axis0 rows).
Proof.
  unfold np_min_axis0. destruct rows as [|r rows]; [discriminate|].
  apply finite_mapM. intros i. discriminate.
Qed.

Lemma finite_np_max_axis0 (rows : list (list R)) : finite (np_max_axis0 rows).
Proof.
  unfold np_max_axis0. destruct rows as [|r rows]; [discriminate|].
  apply finite_mapM. intros i. discriminate.
Qed.

Lemma finite_normalization_bounds (sn sc sP : list (list R)) :
  finite (normalization_bounds sn sc sP).
Proof.
  unfold normalization_bounds.
  repeat (apply finite_bind;
          [first [apply finite_np_min_axis0|apply finite_np_max_axis0]|intros ? _]).
  discriminate.
Qed.

Lemma finite_normalization_trial_no_class (self : NewDataset) (rnd : Random)
  (landscape : metrics) (area_w area_h : Z)
  (st : list (list R) * list (list R) * list (list R) * nat) (i : Z) :
  finite (normalization_trial self rnd [] landscape area_w area_h st i).
Proof.
  unfold normalization_trial. destruct st as [[[sn sc] sP] n].
  destruct landscape as [[ln_ lc] lp].
  apply finite_bind; [apply finite_draw_area|]. intros [a n1] _.
  rewrite calculateMetrics_no_class. destruct (labels self); [|discriminate].
  cbn [bind]. discriminate.
Qed.

Lemma search_trial_no_class (self : NewDataset) (rnd : Random)
  (landscape : metrics) (b : Bounds) (area_w area_h : Z)
  (st : list candidate * nat) (i : Z) :
  raises (search_trial self rnd [] landscape b area_w area_h st i).
Proof.
  unfold search_trial. destruct landscape as [[ln_ lc] lp].
  pose proof (finite_draw_area self rnd area_w area_h (snd st)) as Hd.
  destruct (draw_area self rnd area_w area_h (snd st)) as [[a n1]|e|];
    [|now exists e|now elim Hd].
  cbn [bind]. rewrite calculateMetrics_no_class.
  destruct (labels self); [|now exists TypeError].
  cbn [bind calculateNormalizedScore length seq mapM mean_score].
  now exists ZeroDivisionError.
Qed.

(** Without a target class [findAreas] never returns: where nothing fails
    before, the mean of the empty list of scores is a division of 0 by 0,
    [ZeroDivisionError]. *)
Theorem findAreas_no_class (self : NewDataset) (rnd : Random) (n : nat) :
  exists e, findAreas self rnd [] n = Raise e.
Proof.
  assert (Hc : raises (scored_candidates self rnd [] n)).
  { unfold scored_candidates; cbv zeta. rewrite calculateMetrics_no_class.
    destruct (labels self); [|now exists TypeError]. cbn [bind].
    match goal with
    | |- raises (bind (foldM ?f ?l ?s) _) =>
        pose proof (finite_foldM f l s
                      (finite_normalization_trial_no_class self rnd _ _ _)) as H1;
        destruct (foldM f l s) as [[[[sn sc] sP] n1]|e|];
          [|now exists e|now elim H1]
    end.
    cbn [bind].
    pose proof (finite_normalization_bounds sn sc sP) as H2.
    destruct (normalization_bounds sn sc sP) as [b|e|];
      [|now exists e|now elim H2].
    cbn [bind].
    destruct (range 5000) as [|i l] eqn:Er.
    - apply (f_equal (@length Z)) in Er. rewrite length_range in Er. discriminate.
    - rewrite foldM_cons.
      destruct (search_trial_no_class self rnd ([], [], []) b
                  (py_int (sqrt (15 / 100) * IZR (map_w self)))
                  (py_int (sqrt (15 / 100) * IZR (map_h self))) ([], n1) i)
        as [e He].
      rewrite He. now exists e. }
  destruct Hc as [e He]. exists e. unfold findAreas. now rewrite He.
Qed.

(** ** Setting up the areas *)

(** In the mode "UNIFORM" the two areas have the margin [delta] of the
    tiles as their left side and are 15% of the height of the map high,
    while their tops are 15% of the height less two margins apart: with a
    positive margin the validation and the test area share a strip
    [0.3 * delta] high; without a margin they only touch. *)
Theorem setupAreas_uniform_overlap (self : NewDataset) (tile_size : R)
  (rnd : Random) (target_classes : option (list string)) (n : nat) :
  let delta := IZR (py_int ((tile_size - crop_size) / 2)) in
  exists self',
    setupAreas self tile_size rnd "UNIFORM" target_classes n = Ok (self', n)
    /\ (0 <= delta -> delta * 2 <= IZR (map_w self) ->
        delta * 2 <= IZR (map_h self) ->
        bbox_intersection (val_area self') (test_area self')
        = 3 / 10 * delta * (IZR (map_w self) - delta * 2))
    /\ (delta <= 0 -> 0 <= IZR (map_h self) ->
        bbox_intersection (val_area self') (test_area self') = 0).
Proof.
  intros delta. eexists. split; [reflexivity|].
  cbn [set_areas val_area test_area]. fold delta.
  unfold bbox_intersection; cbn [top left width height]. split.
  - intros Hd Hw Hh. r_decide.
  - intros Hd Hh.
    set (W := IZR (map_w self) - delta * 2). set (H := IZR (map_h self)) in *.
    rewrite (Rmax_right (delta + (H - delta * 2) * (7 / 10))) by lra.
    rewrite (Rmin_left (delta + (H - delta * 2) * (7 / 10) + H * (15 / 100))) by lra.
    rewrite Rmax_left, Rmin_left by lra.
    destruct (Rltb (delta + W) delta) eqn:E1; [reflexivity|].
    destruct (Rltb _ _) eqn:E2 in |- *; [reflexivity|].
    apply Rltb_false in E2. cbn [orb].
    apply Rmult_eq_0_compat_l. lra.
Qed.

Lemma foldM_progress {A St : Type} (Inv : nat -> St -> Prop)
  (f : St -> A -> result St) :
  (forall k s a, Inv k s -> exists s', f s a = Ok s' /\ Inv (S k) s') ->
  forall (l : list A) (k : nat) (s : St),
    Inv k s -> exists s', foldM f l s = Ok s' /\ Inv (k + length l)%nat s'.
Proof.
  intros Hstep l; induction l as [|a l IH]; intros k s Hinv.
  - exists s. now rewrite Nat.add_0_r.
  - destruct (Hstep k s a Hinv) as (s1 & E1 & H1).
    destruct (IH (S k) s1 H1) as (s' & E' & H').
    exists s'. rewrite foldM_cons, E1, bind_Ok. split; [exact E'|].
    cbn [length]. now rewrite Nat.add_succ_r.
Qed.

Lemma randint_ok (rnd : Random) (n : nat) (a b : Z) :
  (a <= b)%Z -> randint rnd n a b = Ok (randint_draw rnd n a b, S n).
Proof. intros H. unfold randint. now rewrite (proj2 (Z.ltb_ge b a)). Qed.

Lemma randint_empty (rnd : Random) (n : nat) (a b : Z) :
  (b < a)%Z -> randint rnd n a b = Raise ValueError.
Proof. intros H. unfold randint. now rewrite (proj2 (Z.ltb_lt b a)). Qed.

(** The side of an area: 15% of the surface of a map with one pixel at
    least leaves a pixel free; a map without a pixel leaves no place. *)
Lemma area_side_room (w : Z) :
  ((1 <= w)%Z -> (0 <= w - py_int (sqrt (15 / 100) * IZR w) - 1)%Z)
  /\ ((w <= 0)%Z -> (w - py_int (sqrt (15 / 100) * IZR w) - 1 < 0)%Z).
Proof.
  pose proof sqrt_15_100_bounds as [Hlo Hhi]. split; intros Hw.
  - assert (H1 : 1 <= IZR w) by now apply IZR_le.
    rewrite py_int_nonneg by nra.
    assert (H : (Zfloor (sqrt (15 / 100) * IZR w) < w)%Z).
    { apply lt_IZR. pose proof (Zfloor_bound (sqrt (15 / 100) * IZR w)). nra. }
    lia.
  - assert (H1 : IZR w <= 0) by now apply IZR_le.
    destruct (Z.eq_dec w 0) as [->|Hn].
    + rewrite Rmult_0_r. change 0 with (IZR 0). rewrite py_int_IZR. lia.
    + assert (H2 : IZR w <= -1) by (apply IZR_le; lia).
      rewrite py_int_neg by nra.
      assert (H : (w <= Zceil (sqrt (15 / 100) * IZR w))%Z).
      { apply le_IZR. pose proof (Zceil_bound (sqrt (15 / 100) * IZR w)). nra. }
      lia.
Qed.

Lemma random_areas_trial_ok (self : NewDataset) (rnd : Random)
  (area_w area_h : Z) (v t : box R) (n : nat) (j : Z) :
  (0 <= map_w self - area_w - 1)%Z -> (0 <= map_h self - area_h - 1)%Z ->
  exists v' t',
    random_areas_trial self rnd area_w area_h (v, t, n) j = Ok (v', t', (n + 4)%nat)
    /\ ((v' = v /\ t' = t)
        \/ (bbox_intersection v' t' < 1
            /\ width v' = IZR area_w /\ height v' = IZR area_h
            /\ width t' = IZR area_w /\ height t' = IZR area_h)).
Proof.
  intros Hw Hh. unfold random_areas_trial.
  rewrite (randint_ok rnd n) by assumption. rewrite bind_Ok.
  rewrite (randint_ok rnd (S n)) by assumption. rewrite bind_Ok.
  rewrite (randint_ok rnd (S (S n))) by assumption. rewrite bind_Ok.
  rewrite (randint_ok rnd (S (S (S n)))) by assumption. rewrite bind_Ok.
  cbv zeta. replace (S (S (S (S n)))) with (n + 4)%nat by lia.
  match goal with
  | |- context [Rltb ?a 1] => destruct (Rltb a 1) eqn:E
  end.
  - eexists _, _. split; [reflexivity|]. right.
    apply Rltb_true in E. now split.
  - exists v, t. split; [reflexivity|]. now left.
Qed.

(** In the mode "RANDOM", on a map with one pixel at least, every one of
    the 1000 turns draws four coordinates and the call returns; the two
    areas it leaves meet by less than 1, and they are either two areas of
    15% of the map or, when no turn drew such a pair, the two empty areas
    [0, 0, 0, 0].  On a map without a pixel the first draw has an empty
    range, [ValueError]. *)
Theorem setupAreas_random_result (self : NewDataset) (tile_size : R)
  (rnd : Random) (target_classes : option (list string)) (n : nat) :
  let area_w := py_int (sqrt (15 / 100) * IZR (map_w self)) in
  let area_h := py_int (sqrt (15 / 100) * IZR (map_h self)) in
  ((1 <= map_w self)%Z -> (1 <= map_h self)%Z ->
   exists self',
     setupAreas self tile_size rnd "RANDOM" target_classes n
     = Ok (self', (n + 4000)%nat)
     /\ bbox_intersection (val_area self') (test_area self') < 1
     /\ ((val_area self' = Box 0 0 0 0 /\ test_area self' = Box 0 0 0 0)
         \/ (width (val_area self') = IZR area_w
             /\ height (val_area self') = IZR area_h
             /\ width (test_area self') = IZR area_w
             /\ height (test_area self') = IZR area_h)))
  /\ ((map_w self <= 0)%Z \/ (map_h self <= 0)%Z ->
      setupAreas self tile_size rnd "RANDOM" target_classes n = Raise ValueError).
Proof.
  intros area_w area_h. split.
  - intros Hw Hh.
    pose proof (proj1 (area_side_room (map_w self)) Hw) as Hrw.
    pose proof (proj1 (area_side_room (map_h self)) Hh) as Hrh.
    fold area_w in Hrw. fold area_h in Hrh.
    set (Inv := fun (k : nat) (st : box R * box R * nat) =>
                  snd st = (n + 4 * k)%nat
                  /\ bbox_intersection (fst (fst st)) (snd (fst st)) < 1
                  /\ ((fst (fst st) = Box 0 0 0 0 /\ snd (fst st) = Box 0 0 0 0)
                      \/ (width (fst (fst st)) = IZR area_w
                          /\ height (fst (fst st)) = IZR area_h
                          /\ width (snd (fst st)) = IZR area_w
                          /\ height (snd (fst st)) = IZR area_h))).
    destruct (foldM_progress Inv (random_areas_trial self rnd area_w area_h))
      with (l := range 1000) (k := 0%nat) (s := (Box 0 0 0 0, Box 0 0 0 0, n))
      as ([[v t] m] & E & Hm & Hlt & Hshape).
    + intros k [[v t] m] j (Hm & Hlt & Hshape). cbn [fst snd] in Hm, Hlt, Hshape.
      destruct (random_areas_trial_ok self rnd area_w area_h v t m j Hrw Hrh)
        as (v' & t' & E' & Hcase).
      eexists. split; [exact E'|]. unfold Inv; cbn [fst snd].
      split; [lia|].
      destruct Hcase as [[-> ->]|(Hlt' & Hsz)]; [now split|].
      split; [exact Hlt'|now right].
    + unfold Inv; cbn [fst snd]. split; [lia|]. split; [|now left].
      unfold bbox_intersection; cbn [top left width height]. r_decide.
    + cbn [fst snd] in Hm, Hlt, Hshape. rewrite length_range in Hm.
      exists (set_areas self v t). split.
      * unfold setupAreas. cbv zeta.
        change (String.eqb "RANDOM" "UNIFORM") with false.
        change (String.eqb "RANDOM" "RANDOM") with true. cbv iota.
        fold area_w area_h. rewrite E, bind_Ok.
        subst m. reflexivity.
      * now cbn [set_areas val_area test_area].
  - intros Hsmall. unfold setupAreas. cbv zeta.
    change (String.eqb "RANDOM" "UNIFORM") with false.
    change (String.eqb "RANDOM" "RANDOM") with true. cbv iota.
    fold area_w area_h.
    destruct (range 1000) as [|j l] eqn:Er.
    { apply (f_equal (@length Z)) in Er. rewrite length_range in Er. discriminate. }
    rewrite foldM_cons. unfold random_areas_trial.
    destruct (Z_lt_le_dec (map_w self - area_w - 1) 0) as [Hw|Hw].
    + now rewrite randint_empty by lia.
    + rewrite randint_ok, bind_Ok by lia.
      destruct Hsmall as [Hs|Hs].
      * pose proof (proj2 (area_side_room (map_w self)) Hs) as Hr.
        fold area_w in Hr. lia.
      * pose proof (proj2 (area_side_room (map_h self)) Hs) as Hr.
        fold area_h in Hr. now rewrite randint_empty by lia.
Qed.

(** ** Cleaning the validation tiles *)

Lemma validation_flag_loop (bbox1 : box R) (tiles : list (R * R)) (flag : bool) :
  fold_left
    (fun flag tile =>
       if Rgtb (bbox_intersection bbox1 (padded_box tile)) 10 then false else flag)
    tiles flag
  = flag && forallb (fun tile =>
                       negb (Rgtb (bbox_intersection bbox1 (padded_box tile)) 10))
                    tiles.
Proof.
  revert flag; induction tiles as [|t tiles IH]; intros flag; cbn [fold_left forallb].
  - now rewrite andb_true_r.
  - rewrite IH. destruct (Rgtb _ 10); cbn [negb andb]; [now rewrite andb_false_r|].
    reflexivity.
Qed.

Lemma cleaningValidationTiles_loop (training_tiles tiles acc : list (R * R)) :
  fold_left
    (fun cleaned_tiles vtile =>
       let bbox1 := padded_box vtile in
       let flag :=
         fold_left
           (fun flag tile =>
              let bbox2 := padded_box tile in
              let area_ := bbox_intersection bbox1 bbox2 in
              if Rgtb area_ 10 then false else flag)
           training_tiles true in
       if flag then cleaned_tiles ++ [vtile] else cleaned_tiles)
    tiles acc
  = acc ++ filter (fun vtile =>
                     forallb (fun tile =>
                                negb (Rgtb (bbox_intersection (padded_box vtile)
                                                              (padded_box tile)) 10))
                             training_tiles)
                  tiles.
Proof.
  revert acc; induction tiles as [|v l IH]; intros acc; cbn [fold_left filter].
  - now rewrite app_nil_r.
  - cbv zeta. rewrite validation_flag_loop. cbn [andb].
    destruct (forallb _ training_tiles).
    + rewrite IH. now rewrite <- app_assoc.
    + apply IH.
Qed.

Lemma cleaningValidationTiles_filter (training_tiles validation_tiles : list (R * R)) :
  cleaningValidationTiles training_tiles validation_tiles
  = filter (fun vtile =>
              forallb (fun tile =>
                         negb (Rgtb (bbox_intersection (padded_box vtile)
                                                       (padded_box tile)) 10))
                      training_tiles)
           validation_tiles.
Proof. unfold cleaningValidationTiles. now rewrite cleaningValidationTiles_loop. Qed.

(** The padded boxes of two tiles overlap by the product of what is left
    of the side, 523, after the distance of the centres on each axis. *)
Lemma padded_box_intersection (t1 t2 : R * R) :
  Rabs (fst t1 - fst t2) <= 523 -> Rabs (snd t1 - snd t2) <= 523 ->
  bbox_intersection (padded_box t1) (padded_box t2)
  = (523 - Rabs (fst t1 - fst t2)) * (523 - Rabs (snd t1 - snd t2)).
Proof.
  destruct t1 as [x1 y1], t2 as [x2 y2]; cbn [fst snd]. intros Hx Hy.
  unfold bbox_intersection, padded_box, crop_size; cbn [top left width height fst snd].
  revert Hx Hy. unfold Rabs.
  destruct (Rcase_abs (x1 - x2)), (Rcase_abs (y1 - y2)); intros Hx Hy;
    r_decide; lra.
Qed.

Lemma padded_box_apart (t1 t2 : R * R) :
  523 <= Rabs (fst t1 - fst t2) \/ 523 <= Rabs (snd t1 - snd t2) ->
  bbox_intersection (padded_box t1) (padded_box t2) = 0.
Proof.
  destruct t1 as [x1 y1], t2 as [x2 y2]; cbn [fst snd].
  unfold bbox_intersection, padded_box, crop_size; cbn [top left width height fst snd].
  unfold Rabs.
  destruct (Rcase_abs (x1 - x2)), (Rcase_abs (y1 - y2)); intros [H|H];
    unfold Rmax, Rmin;
    repeat match goal with
           | |- context [Rle_dec ?a ?b] => destruct (Rle_dec a b)
           end;
    repeat match goal with
           | |- context [Rltb ?a ?b] =>
               let E := fresh "E" in
               destruct (Rltb a b) eqn:E;
               [apply Rltb_true in E|apply Rltb_false in E]
           end; cbn [orb]; try reflexivity; nra.
Qed.

(** [cleaningValidationTiles] keeps, in their order, the validation tiles
    whose padded box meets the padded box of every training tile by 10 at
    most.  So a tile that is 523 away or more from every training tile on
    one axis is kept, a tile that is also a training tile is dropped, and
    without training tiles every tile is kept. *)
Theorem cleaningValidationTiles_kept (training_tiles validation_tiles : list (R * R)) :
  (forall vtile,
     In vtile (cleaningValidationTiles training_tiles validation_tiles) <->
     In vtile validation_tiles
     /\ forall tile, In tile training_tiles ->
          bbox_intersection (padded_box vtile) (padded_box tile) <= 10)
  /\ (forall vtile,
        In vtile validation_tiles ->
        (forall tile, In tile training_tiles ->
           523 <= Rabs (fst vtile - fst tile) \/ 523 <= Rabs (snd vtile - snd tile)) ->
        In vtile (cleaningValidationTiles training_tiles validation_tiles))
  /\ (forall vtile,
        In vtile training_tiles ->
        ~ In vtile (cleaningValidationTiles training_tiles validation_tiles))
  /\ cleaningValidationTiles [] validation_tiles = validation_tiles.
Proof.
  assert (Hiff : forall vtile,
     In vtile (cleaningValidationTiles training_tiles validation_tiles) <->
     In vtile validation_tiles
     /\ forall tile, In tile training_tiles ->
          bbox_intersection (padded_box vtile) (padded_box tile) <= 10).
  { intros vtile. rewrite cleaningValidationTiles_filter, filter_In, forallb_forall.
    split; intros [Hin H]; (split; [exact Hin|]); intros tile Ht; specialize (H tile Ht).
    - apply negb_true_iff in H. unfold Rgtb in H. now apply Rltb_false in H.
    - apply negb_true_iff. unfold Rgtb. now apply Rltb_false. }
  split; [exact Hiff|]. split; [|split].
  - intros vtile Hin Hfar. apply Hiff. split; [exact Hin|].
    intros tile Ht. rewrite padded_box_apart by auto. lra.
  - intros vtile Ht Hin. apply Hiff in Hin. destruct Hin as [_ H].
    specialize (H vtile Ht). rewrite padded_box_intersection in H.
    + rewrite !Rminus_diag, Rabs_R0 in H. lra.
    + rewrite Rminus_diag, Rabs_R0. lra.
    + rewrite Rminus_diag, Rabs_R0. lra.
  - clear Hiff. rewrite cleaningValidationTiles_filter. cbn [forallb].
    induction validation_tiles as [|v l IH]; cbn [filter]; [reflexivity|].
    now rewrite IH.
Qed.

(** ** Poisson disk sampling *)

Lemma nearest_distance_loop (px py : Z) (r : R) (l : list (Z * Z)) (d0 : R) :
  r <= fold_left
         (fun dmin sample =>
            let d := distance sample px py in
            if Rltb d dmin then d else dmin)
         l d0
  <-> r <= d0 /\ Forall (fun s => r <= distance s px py) l.
Proof.
  revert d0; induction l as [|s l IH]; intros d0; cbn [fold_left].
  - split; [now split|now intros [H _]].
  - cbv zeta. rewrite IH. rewrite Forall_cons_iff.
    destruct (Rltb (distance s px py) d0) eqn:E;
      [apply Rltb_true in E|apply Rltb_false in E]; split.
    + intros [H1 H2]. repeat split; try assumption; lra.
    + intros [H1 [H2 H3]]. now split.
    + intros [H1 H2]. repeat split; try assumption; lra.
    + intros [H1 [H2 H3]]. now split.
Qed.

Lemma nearest_distance_ge (px py : Z) (r : R) (l : list (Z * Z)) :
  r <= nearest_distance px py l
  <-> r <= 100000000 /\ Forall (fun s => r <= distance s px py) l.
Proof. apply nearest_distance_loop. Qed.

Lemma pairwise_apart_snoc (r : R) (l : list (Z * Z)) (px py : Z) :
  pairwise_apart r l -> Forall (fun s => r <= distance s px py) l ->
  pairwise_apart r (l ++ [(px, py)]).
Proof.
  induction l as [|p l IH]; cbn [app pairwise_apart]; intros Hpw Hall.
  - now split.
  - destruct Hpw as [Hp Hl]. apply Forall_cons_iff in Hall as [Hd Hall].
    split; [|now apply IH].
    apply Forall_app. split; [exact Hp|].
    constructor; [|constructor].
    now rewrite (distance_sym (px, py) p).
Qed.

Lemma distance_shift (p : Z * Z) (x y dx dy : Z) :
  distance ((fst p + dx)%Z, (snd p + dy)%Z) (x + dx) (y + dy) = distance p x y.
Proof. unfold distance; cbn [fst snd]. do 2 f_equal. ring. Qed.

Lemma pairwise_apart_shift (r : R) (dx dy : Z) (l : list (Z * Z)) :
  pairwise_apart r l ->
  pairwise_apart r (map (fun p => ((fst p + dx)%Z, (snd p + dy)%Z)) l).
Proof.
  induction l as [|p l IH]; cbn [map pairwise_apart]; [trivial|].
  intros [Hp Hl]. split; [|now apply IH].
  apply Forall_map. revert Hp. apply Forall_impl. intros q Hq.
  cbn [fst snd]. now rewrite distance_shift.
Qed.

Lemma np_index_inside (len : nat) (i : Z) :
  (0 <= i < Z.of_nat len)%Z -> np_index len i = Ok (Z.to_nat i).
Proof.
  intros H. unfold np_index.
  now rewrite (proj2 (Z.leb_le 0 i)), (proj2 (Z.ltb_lt i (Z.of_nat len))) by lia.
Qed.

Lemma np_get_inside {A : Type} (a : ndarray A) (h w : Z) (r c : Z) :
  length a = Z.to_nat h -> Forall (fun row => length row = Z.to_nat w) a ->
  (0 <= r < h)%Z -> (0 <= c < w)%Z ->
  exists x, np_get a r c = Ok x.
Proof.
  intros Hlen Hrows Hr Hc. unfold np_get.
  rewrite np_index_inside by lia. rewrite bind_Ok.
  destruct (nth_error a (Z.to_nat r)) as [row|] eqn:E.
  - assert (Hrow : length row = Z.to_nat w).
    { rewrite Forall_forall in Hrows. apply Hrows. eapply nth_error_In; eassumption. }
    rewrite np_index_inside by lia. rewrite bind_Ok.
    destruct (nth_error row (Z.to_nat c)) as [x|] eqn:E2; [now exists x|].
    apply nth_error_None in E2. lia.
  - apply nth_error_None in E. lia.
Qed.

Lemma sample_trial_step (rnd : Random) (blob : Blob) (r : R)
  (before : list (Z * Z)) (n k : nat)
  (st : list (Z * Z) * list (Z * Z) * nat) (i : Z) :
  fair_source rnd ->
  (2 <= width (bbox blob))%Z -> (2 <= height (bbox blob))%Z -> mask_fits blob ->
  sampled rnd blob r before n k st ->
  exists st', sample_trial rnd blob r st i = Ok st'
              /\ sampled rnd blob r before n (S k) st'.
Proof.
  intros Hfair Hw Hh [Hlen Hrows].
  destruct st as [[cur smp] m]. intros (Hm & Hs & Hk & Hpw & Hin & Hbig).
  unfold sample_trial. cbv zeta.
  rewrite randint_ok, bind_Ok by lia.
  rewrite randint_ok, bind_Ok by lia.
  pose proof (Hfair m 1%Z (width (bbox blob) - 1)%Z ltac:(lia)) as Hpx.
  pose proof (Hfair (S m) 1%Z (height (bbox blob) - 1)%Z ltac:(lia)) as Hpy.
  set (px := randint_draw rnd m 1 (width (bbox blob) - 1)) in *.
  set (py := randint_draw rnd (S m) 1 (height (bbox blob) - 1)) in *.
  destruct (np_get_inside (mask blob) (height (bbox blob)) (width (bbox blob))
              py px Hlen Hrows ltac:(lia) ltac:(lia)) as [x Hx].
  rewrite Hx, bind_Ok.
  assert (Hkeep : sampled rnd blob r before n (S k) (cur, smp, S (S m))).
  { unfold sampled. repeat split; try assumption; try lia. }
  destruct (x =? 1)%Z eqn:Ex; [|now eexists].
  apply Z.eqb_eq in Ex. subst x.
  destruct (Rgeb (nearest_distance px py cur) r) eqn:Eg; [|now eexists].
  apply Rgeb_true in Eg.
  apply nearest_distance_ge in Eg as [Hr Hall].
  eexists. split; [reflexivity|]. unfold sampled.
  split; [lia|]. split.
  { rewrite Hs, map_app, app_assoc. reflexivity. }
  split; [rewrite length_app; cbn [length]; lia|].
  split; [now apply pairwise_apart_snoc|].
  split.
  { apply Forall_app. split; [exact Hin|]. constructor; [|constructor].
    cbn [fst snd]. split; [exact Hx|]. lia. }
  intros Hbig'. lra.
Qed.

(** On a blob at least 2 pixels wide and high whose mask has the size of
    its box, [sampleBlob] returns after 1000 turns of two draws each.  It
    appends at most 1000 points to [samples]; each one lies on a pixel of
    the mask that holds 1, never on the first row or the first column of
    the box; the points appended by the call lie [r] apart or more from
    one another, and above a radius of 100000000 not one is appended. *)
Theorem sampleBlob_poisson_disk (rnd : Random) (blob : Blob)
  (samples : list (Z * Z)) (r : R) (centroid_ : bool) (n : nat) :
  fair_source rnd ->
  (2 <= width (bbox blob))%Z -> (2 <= height (bbox blob))%Z -> mask_fits blob ->
  exists new,
    sampleBlob rnd blob samples r centroid_ n
    = Ok ((if centroid_ then samples ++ [centroid blob] else samples) ++ new,
          (n + 2000)%nat)
    /\ (length new <= 1000)%nat
    /\ pairwise_apart r new
    /\ Forall (fun p =>
                 np_get (mask blob) (snd p - top (bbox blob))
                        (fst p - left (bbox blob)) = Ok 1%Z
                 /\ (left (bbox blob) < fst p < left (bbox blob) + width (bbox blob))%Z
                 /\ (top (bbox blob) < snd p < top (bbox blob) + height (bbox blob))%Z)
              new
    /\ (100000000 < r -> new = []).
Proof.
  intros Hfair Hw Hh Hfits. unfold sampleBlob. cbv zeta.
  set (before := if centroid_ then samples ++ [centroid blob] else samples).
  destruct (foldM_progress (sampled rnd blob r before n) (sample_trial rnd blob r))
    with (l := range 1000) (k := 0%nat) (s := (@nil (Z * Z), before, n))
    as ([[cur smp] m] & E & Hm & Hs & Hk & Hpw & Hin & Hbig).
  - intros k st i. now apply sample_trial_step.
  - unfold sampled. cbn [map length pairwise_apart].
    rewrite app_nil_r. repeat split; try lia. constructor.
  - rewrite length_range in Hm, Hk. cbn [Nat.add] in Hk.
    rewrite E, bind_Ok. subst smp m.
    eexists. split; [reflexivity|].
    split; [now rewrite length_map|].
    split; [now apply pairwise_apart_shift|].
    split.
    + apply Forall_map. revert Hin. apply Forall_impl.
      intros p (Hp & Hx & Hy). cbn [fst snd].
      replace (snd p + top (bbox blob) - top (bbox blob))%Z with (snd p) by lia.
      replace (fst p + left (bbox blob) - left (bbox blob))%Z with (fst p) by lia.
      split; [exact Hp|]. lia.
    + intros Hr. now rewrite (Hbig Hr).
Qed.

Lemma blob_full_fits : mask_fits blob_full.
Proof. split; [reflexivity|]. repeat constructor. Qed.

Lemma sampleBlob_poisson_disk_witness :
  fair_source rnd_unit_low /\ mask_fits blob_full
  /\ exists new,
       sampleBlob rnd_unit_low blob_full [] 1 false 0 = Ok ([] ++ new, 2000%nat)
       /\ (length new <= 1000)%nat
       /\ pairwise_apart 1 new.
Proof.
  split; [exact rnd_unit_low_fair|]. split; [exact blob_full_fits|].
  destruct (sampleBlob_poisson_disk rnd_unit_low blob_full [] 1 false 0
              rnd_unit_low_fair ltac:(cbn; lia) ltac:(cbn; lia) blob_full_fits)
    as (new & E & Hlen & Hpw & _).
  exists new. now repeat split.
Defined.

Lemma foldM_simulation {A St : Type} (f : St -> A -> result St) (g : St -> St) :
  (forall s a, f (g s) a = (s' <- f s a ;; Ok (g s'))) ->
  forall (l : list A) (s : St),
    foldM f l (g s) = (s' <- foldM f l s ;; Ok (g s')).
Proof.
  intros Hstep l; induction l as [|a l IH]; intros s; cbn [foldM]; [reflexivity|].
  rewrite Hstep. destruct (f s a) as [s'| |]; cbn [bind]; auto.
Qed.

(** The turns of [sampleBlob] read [current_samples] only: the points
    that [samples] held before the call play no part in them. *)
Lemma sampleBlob_prefix (rnd : Random) (blob : Blob) (samples : list (Z * Z))
  (r : R) (n : nat) :
  sampleBlob rnd blob samples r false n
  = ('(new, n') <- sampleBlob rnd blob [] r false n ;; Ok (samples ++ new, n')).
Proof.
  unfold sampleBlob. cbv zeta.
  pose (g := fun st : list (Z * Z) * list (Z * Z) * nat =>
               (fst (fst st), samples ++ snd (fst st), snd st)).
  replace (@nil (Z * Z), samples, n) with (g ([], [], n))
    by (unfold g; cbn [fst snd]; now rewrite app_nil_r).
  rewrite (foldM_simulation (sample_trial rnd blob r) g).
  - destruct (foldM (sample_trial rnd blob r) (range 1000) ([], [], n))
      as [[[cur smp] m]| |]; reflexivity.
  - intros [[cur smp] m] i. unfold sample_trial, g; cbn [fst snd]. cbv zeta.
    destruct (randint rnd m 1 (width (bbox blob) - 1)) as [[px n1]| |];
      cbn [bind]; auto.
    destruct (randint rnd n1 1 (height (bbox blob) - 1)) as [[py n2]| |];
      cbn [bind]; auto.
    destruct (np_get (mask blob) py px) as [x| |]; cbn [bind]; auto.
    destruct (x =? 1)%Z; cbn [bind fst snd]; auto.
    destruct (Rgeb (nearest_distance px py cur) r); cbn [bind fst snd]; auto.
    now rewrite app_assoc.
Qed.

Lemma poisson_disk_loop (rnd : Random) (area_ : box R) (radius : R)
  (blobs_ : list Blob) (samples : list (Z * Z)) (n : nat) :
  foldM
    (fun (st : list (Z * Z) * nat) blob =>
       if Rgtb (bbox_intersection area_ (box_R (bbox blob))) 100
       then sampleBlob rnd blob (fst st) radius false (snd st)
       else Ok st)
    blobs_ (samples, n)
  = ('(new, n') <- sampleAreaPoissonDisk rnd area_ blobs_ radius n ;;
     Ok (samples ++ new, n')).
Proof.
  unfold sampleAreaPoissonDisk.
  pose (g := fun st : list (Z * Z) * nat => (samples ++ fst st, snd st)).
  replace (samples, n) with (g ([], n))
    by (unfold g; cbn [fst snd]; now rewrite app_nil_r).
  rewrite foldM_simulation.
  - destruct (foldM _ blobs_ ([], n)) as [[new n']| |]; reflexivity.
  - intros [s m] blob. unfold g; cbn [fst snd].
    destruct (Rgtb _ 100); [|reflexivity].
    rewrite sampleBlob_prefix. rewrite (sampleBlob_prefix rnd blob s).
    destruct (sampleBlob rnd blob [] radius false m) as [[new n']| |];
      cbn [bind fst snd]; auto.
    now rewrite app_assoc.
Qed.

(** [sampleAreaPoissonDisk] samples the blobs one after the other and
    joins what it finds: the points taken from the later blobs are those
    of a fresh call on these blobs, started where the draws of the earlier
    ones stopped.  Points of different blobs are never compared. *)
Theorem sampleAreaPoissonDisk_blob_by_blob (rnd : Random) (area_ : box R)
  (radius : R) (blobs1 blobs2 : list Blob) (n : nat) :
  sampleAreaPoissonDisk rnd area_ (blobs1 ++ blobs2) radius n
  = ('(samples1, n1) <- sampleAreaPoissonDisk rnd area_ blobs1 radius n ;;
     '(samples2, n2) <- sampleAreaPoissonDisk rnd area_ blobs2 radius n1 ;;
     Ok (samples1 ++ samples2, n2)).
Proof.
  unfold sampleAreaPoissonDisk at 1. rewrite foldM_app.
  fold (sampleAreaPoissonDisk rnd area_ blobs1 radius n).
  destruct (sampleAreaPoissonDisk rnd area_ blobs1 radius n) as [[s1 n1]| |];
    cbn [bind]; auto.
  apply poisson_disk_loop.
Qed.

(** A blob that meets the area by 100 or less is passed over, without a
    draw; a blob that meets it by more and whose box is less than 2
    pixels wide or high stops the sampling with [ValueError], as no
    coordinate can be drawn inside it. *)
Theorem sampleAreaPoissonDisk_first_blob (rnd : Random) (area_ : box R)
  (radius : R) (blob : Blob) (blobs_ : list Blob) (n : nat) :
  (bbox_intersection area_ (box_R (bbox blob)) <= 100 ->
   sampleAreaPoissonDisk rnd area_ (blob :: blobs_) radius n
   = sampleAreaPoissonDisk rnd area_ blobs_ radius n)
  /\ (100 < bbox_intersection area_ (box_R (bbox blob)) ->
      (width (bbox blob) <= 1)%Z \/ (height (bbox blob) <= 1)%Z ->
      sampleAreaPoissonDisk rnd area_ (blob :: blobs_) radius n = Raise ValueError).
Proof.
  split.
  - intros H. unfold sampleAreaPoissonDisk. rewrite foldM_cons.
    unfold Rgtb. now rewrite (proj2 (Rltb_false _ _) H), bind_Ok.
  - intros H Hthin. unfold sampleAreaPoissonDisk. rewrite foldM_cons.
    unfold Rgtb. rewrite (proj2 (Rltb_true _ _) H). cbn [fst snd].
    unfold sampleBlob. cbv zeta.
    destruct (range 1000) as [|j l] eqn:Er.
    { apply (f_equal (@length Z)) in Er. rewrite length_range in Er. discriminate. }
    rewrite foldM_cons. unfold sample_trial. cbv zeta.
    destruct (Z_lt_le_dec (width (bbox blob) - 1) 1) as [Hw|Hw].
    + now rewrite randint_empty by lia.
    + rewrite randint_ok, bind_Ok by lia.
      now rewrite randint_empty by lia.
Qed.

(** ** The radius of a class and its frequency *)

Lemma fold_left_Rmax_fixed (l : list R) (x : R) :
  (forall y, In y l -> y <= x) -> fold_left Rmax l x = x.
Proof.
  induction l as [|a l IH]; intros H; cbn [fold_left]; [reflexivity|].
  rewrite Rmax_left by (apply H; now left). apply IH. intros y Hy. apply H. now right.
Qed.

Lemma fold_left_Rmin_In (l : list R) (x : R) : In (fold_left Rmin l x) (x :: l).
Proof.
  revert x; induction l as [|a l IH]; intros x; cbn [fold_left]; [now left|].
  destruct (IH (Rmin x a)) as [H|H]; [|right; now right].
  rewrite <- H. unfold Rmin. destruct (Rle_dec x a); [now left|right; now left].
Qed.

Lemma py_sum_exceeds (l : list R) (y : R) :
  (2 <= length l)%nat -> (forall x, In x l -> 0 < x) -> In y l -> y < py_sum l.
Proof.
  intros Hlen Hpos Hy. rewrite py_sum_fold_right.
  induction l as [|a l IH]; [destruct Hy|].
  cbn [fold_right]. destruct l as [|b l].
  - cbn [length] in Hlen. lia.
  - assert (Hrest : 0 < fold_right Rplus 0 (b :: l)).
    { apply fold_right_Rplus_positive; [discriminate|].
      intros x Hx. apply Hpos. now right. }
    destruct Hy as [<-|Hy]; [lra|].
    assert (Ha : 0 < a) by (apply Hpos; now left).
    destruct l as [|c l].
    + destruct Hy as [<-|[]]. cbn [fold_right]. lra.
    + assert (y < fold_right Rplus 0 (b :: c :: l)).
      { apply IH; [cbn [length]; lia| |exact Hy].
        intros x Hx. apply Hpos. now right. }
      lra.
Qed.

(** With two classes or more, all of positive frequency, the division of
    [compute_radius_map] is not by zero: the background, whose raw value
    is the sum of the frequencies, gets [radius_max]; a class of the least
    frequency gets [radius_min]; and of two classes the more frequent one
    never gets the smaller radius. *)
Theorem radius_values_by_frequency (freqs : list R) (radius_min radius_max : R) :
  (2 <= length freqs)%nat -> (forall f, In f freqs -> 0 < f) ->
  radius_min <= radius_max ->
  exists radius : list R,
    radius_values freqs radius_min radius_max = Ok radius
    /\ length radius = S (length freqs)
    /\ nth 0 radius 0 = radius_max
    /\ (exists i, (i < length freqs)%nat
                  /\ (forall f, In f freqs -> nth i freqs 0 <= f)
                  /\ nth (S i) radius 0 = radius_min)
    /\ (forall i j, (i < length freqs)%nat -> (j < length freqs)%nat ->
                    nth i freqs 0 <= nth j freqs 0 ->
                    nth (S i) radius 0 <= nth (S j) radius 0).
Proof.
  intros Hlen Hpos Hr.
  set (total := py_sum freqs).
  assert (Hlt : forall y, In y freqs -> y < total)
    by (intros y Hy; now apply py_sum_exceeds).
  set (f_min := fold_left Rmin freqs total).
  assert (Hmax : fold_left Rmax freqs total = total).
  { apply fold_left_Rmax_fixed. intros y Hy. left. now apply Hlt. }
  destruct (fold_left_Rmin_le freqs total) as [Hmin1 Hmin2]. fold f_min in Hmin1, Hmin2.
  assert (Hne : f_min < total).
  { destruct freqs as [|a l]; [cbn [length] in Hlen; lia|].
    pose proof (Hmin2 a (or_introl eq_refl)). pose proof (Hlt a (or_introl eq_refl)).
    lra. }
  assert (Hmin_in : In f_min freqs).
  { destruct (fold_left_Rmin_In freqs total) as [H|H]; [|exact H].
    fold f_min in H. lra. }
  set (g := fun raw => (raw - f_min) / (total - f_min) * (radius_max - radius_min)
                       + radius_min).
  exists (map g (total :: freqs)).
  assert (Hg : forall a b, a <= b -> g a <= g b).
  { intros a b Hab. unfold g.
    apply Rplus_le_compat_r. apply Rmult_le_compat_r; [lra|].
    unfold Rdiv. apply Rmult_le_compat_r; [|lra].
    left. apply Rinv_0_lt_compat. lra. }
  split.
  { unfold radius_values. fold total. cbn [np_min np_max bind].
    rewrite Hmax. fold f_min. rewrite mapM_np_div_ok by lra. cbn [bind].
    rewrite !map_map. reflexivity. }
  split; [cbn [map length]; now rewrite length_map|].
  split.
  { cbn [map nth]. unfold g. field. lra. }
  split.
  - destruct (In_nth freqs f_min 0 Hmin_in) as (i & Hi & Hnth).
    exists i. split; [exact Hi|]. split.
    + intros f Hf. rewrite Hnth. now apply Hmin2.
    + cbn [map nth]. rewrite (nth_map_in g freqs i 0 0) by exact Hi.
      rewrite Hnth. unfold g. field. lra.
  - intros i j Hi Hj Hij. cbn [map nth].
    rewrite (nth_map_in g freqs i 0 0), (nth_map_in g freqs j 0 0) by assumption.
    now apply Hg.
Qed.

Lemma radius_values_by_frequency_witness :
  exists radius : list R,
    radius_values [1 / 10; 3 / 10] 10 50 = Ok radius
    /\ nth 0 radius 0 = 50.
Proof.
  destruct (radius_values_by_frequency [1 / 10; 3 / 10] 10 50) as (radius & E & _ & H0 & _).
  - cbn [length]. lia.
  - intros f [<-|[<-|[]]]; lra.
  - lra.
  - exists radius. now split.
Defined.

(** ** The sub-areas of the importance sampling *)

Lemma foldM_ext_in {A St : Type} (f g : St -> A -> result St) (l : list A) (s : St) :
  (forall s a, In a l -> f s a = g s a) -> foldM f l s = foldM g l s.
Proof.
  revert s; induction l as [|a l IH]; intros s H; cbn [foldM]; [reflexivity|].
  rewrite (H s a (or_introl eq_refl)).
  destruct (g s a) as [s'| |]; cbn [bind]; auto.
  apply IH. intros s0 a0 Hin. apply H. now right.
Qed.

Lemma In_range (n x : Z) : In x (range n) -> (0 <= x < n)%Z.
Proof.
  unfold range. rewrite in_map_iff. intros (k & <- & Hk).
  apply in_seq in Hk. lia.
Qed.

(** Where a sub-area would pass the end of the area, its corner is set
    from the width and the height of the area alone.  On an area of 1024
    pixels or less each way this is so for every sub-area, and the samples
    do not depend on where the area lies. *)
Theorem sampleAreaImportanceSampling_small_area (self : NewDataset) (rnd : Random)
  (area1 area2 : box Z) (n : nat) :
  width area1 = width area2 -> height area1 = height area2 ->
  (width area1 <= 1024)%Z -> (height area1 <= 1024)%Z ->
  sampleAreaImportanceSampling self rnd area1 n
  = sampleAreaImportanceSampling self rnd area2 n.
Proof.
  intros Hw Hh Hw1 Hh1. unfold sampleAreaImportanceSampling. cbv zeta.
  destruct (sample_rare_blobs self rnd ([], n)) as [st| |]; cbn [bind]; auto.
  unfold sample_sub_areas. cbv zeta. rewrite <- Hw, <- Hh.
  apply foldM_ext_in. intros s row Hrow. apply In_range in Hrow.
  apply foldM_ext_in. intros s' col Hcol. apply In_range in Hcol.
  rewrite !(proj2 (Z.ltb_lt _ _)) by lia. reflexivity.
Qed.

Lemma sampleAreaImportanceSampling_small_area_witness :
  sampleAreaImportanceSampling dataset_radius_3x3 rnd_corner (Box 0 0 3 3)%Z 0
  = sampleAreaImportanceSampling dataset_radius_3x3 rnd_corner (Box 500 700 3 3)%Z 0.
Proof.
  apply sampleAreaImportanceSampling_small_area; cbn [width height];
    first [reflexivity | lia].
Defined.

Lemma try_sample_length (self : NewDataset) (px py : Z)
  (samples samples' : list (Z * Z)) :
  try_sample self px py samples = Ok samples' ->
  (length samples <= length samples' <= S (length samples))%nat.
Proof.
  intros H. destruct (try_sample_cases self px py samples samples' H) as [->|[-> _]].
  - lia.
  - rewrite length_app. cbn [length]. lia.
Qed.

Lemma blob_trial_budget (self : NewDataset) (rnd : Random) (blob : Blob)
  (st st' : list (Z * Z) * nat) (i : Z) :
  blob_trial self rnd blob st i = Ok st' ->
  snd st' = (snd st + 2)%nat
  /\ (length (fst st) <= length (fst st') <= S (length (fst st)))%nat.
Proof.
  unfold blob_trial. cbv zeta. intros H.
  destruct (randint rnd (snd st) _ _) as [[px n1]| |] eqn:E1; try discriminate.
  cbn [bind] in H. apply randint_counter in E1.
  destruct (randint rnd n1 _ _) as [[py n2]| |] eqn:E2; try discriminate.
  cbn [bind] in H. apply randint_counter in E2.
  destruct (np_get (mask blob) py px) as [m| |]; try discriminate.
  cbn [bind] in H.
  destruct (m =? 1)%Z.
  - destruct (try_sample self _ _ (fst st)) as [samples'| |] eqn:E; try discriminate.
    cbn [bind] in H. injection H as <-. cbn [fst snd].
    apply try_sample_length in E. lia.
  - injection H as <-. cbn [fst snd]. lia.
Qed.

Lemma subarea_trial_budget (self : NewDataset) (rnd : Random) (area_ : box Z)
  (st st' : list (Z * Z) * nat) (i : Z) :
  subarea_trial self rnd area_ st i = Ok st' ->
  snd st' = (snd st + 2)%nat
  /\ (length (fst st) <= length (fst st') <= S (length (fst st)))%nat.
Proof.
  unfold subarea_trial. cbv zeta. intros H.
  destruct (randint rnd (snd st) _ _) as [[px n1]| |] eqn:E1; try discriminate.
  cbn [bind] in H. apply randint_counter in E1.
  destruct (randint rnd n1 _ _) as [[py n2]| |] eqn:E2; try discriminate.
  cbn [bind] in H. apply randint_counter in E2.
  destruct (try_sample self _ _ (fst st)) as [samples'| |] eqn:E; try discriminate.
  cbn [bind] in H. injection H as <-. cbn [fst snd].
  apply try_sample_length in E. lia.
Qed.

Lemma thirty_trials_budget {A : Type}
  (trial : list (Z * Z) * nat -> A -> result (list (Z * Z) * nat)) (l : list A)
  (samples : list (Z * Z)) (n k : nat) (st st' : list (Z * Z) * nat) :
  (forall s a s', trial s a = Ok s' ->
     snd s' = (snd s + 2)%nat
     /\ (length (fst s) <= length (fst s') <= S (length (fst s)))%nat) ->
  length l = 30%nat ->
  within_budget samples n k st ->
  foldM trial l st = Ok st' ->
  within_budget samples n (S k) st'.
Proof.
  intros Hstep Hlen [Hn Hs] H.
  assert (Hinv : snd st' = (snd st + 2 * (0 + length l))%nat
                 /\ (length (fst st) <= length (fst st')
                     <= length (fst st) + (0 + length l))%nat).
  { apply (foldM_counting
             (fun j s => snd s = (snd st + 2 * j)%nat
                         /\ (length (fst st) <= length (fst s)
                             <= length (fst st) + j)%nat)
             trial) with (s := st); [| |exact H].
    - intros j s a s' [H1 H2] Hs'. apply Hstep in Hs'. lia.
    - lia. }
  rewrite Hlen in Hinv. unfold within_budget. lia.
Qed.

Lemma foldM_runs {A : Type}
  (run : list (Z * Z) * nat -> A -> result (list (Z * Z) * nat))
  (samples : list (Z * Z)) (n : nat) :
  (forall k s a s', within_budget samples n k s -> run s a = Ok s' ->
                    within_budget samples n (S k) s') ->
  forall (l : list A) (k : nat) (st st' : list (Z * Z) * nat),
    within_budget samples n k st -> foldM run l st = Ok st' ->
    within_budget samples n (k + length l) st'.
Proof. intros Hrun l k st st'. now apply foldM_counting. Qed.

(** A run of [sampleAreaImportanceSampling] that returns has made 30 turns
    of two draws for every blob of a listed class and for every sub-area,
    and holds at most 30 samples for each of them. *)
Theorem sampleAreaImportanceSampling_budget (self : NewDataset) (rnd : Random)
  (area_ : box Z) (n n' : nat) (samples : list (Z * Z)) :
  sampleAreaImportanceSampling self rnd area_ n = Ok (samples, n') ->
  let tile_cols := Z.to_nat (1 + py_int (IZR (width area_) / 256)) in
  let tile_rows := Z.to_nat (1 + py_int (IZR (height area_) / 256)) in
  let runs := (length (rare_entities self) + tile_rows * tile_cols)%nat in
  n' = (n + 60 * runs)%nat /\ (length samples <= 30 * runs)%nat.
Proof.
  intros H tile_cols tile_rows runs.
  unfold sampleAreaImportanceSampling in H. cbv zeta in H.
  destruct (sample_rare_blobs self rnd ([], n)) as [st1| |] eqn:E1; try discriminate.
  cbn [bind] in H. rewrite sample_rare_blobs_entities in E1.
  assert (H0 : within_budget [] n 0 ([], n)).
  { unfold within_budget; cbn [fst snd length]. lia. }
  assert (H1 : within_budget [] n (0 + length (rare_entities self)) st1).
  { refine (foldM_runs _ [] n _ _ _ _ _ H0 E1).
    intros k s blob s' Hs Hrun. unfold importanceSamplingBlob in Hrun.
    refine (thirty_trials_budget _ (range 30) [] n k s s' _ _ Hs Hrun).
    - intros s0 a s0'. apply blob_trial_budget.
    - now rewrite length_range. }
  cbn [Nat.add] in H1.
  unfold sample_sub_areas in H. cbv zeta in H.
  assert (Hsub : forall k s col s',
             within_budget [] n k s ->
             (let top_ := (top area_ + 0 * 256)%Z in
              importanceSamplingSubArea self rnd col (fst s) (snd s)) = Ok s' ->
             within_budget [] n (S k) s').
  { intros k s sub s' Hs Hrun. cbv zeta in Hrun.
    unfold importanceSamplingSubArea in Hrun.
    refine (thirty_trials_budget _ (range 30) [] n k s s' _ _ Hs Hrun).
    - intros s0 a s0'. apply subarea_trial_budget.
    - now rewrite length_range. }
  assert (H2 : within_budget [] n
                 (length (rare_entities self) + tile_rows * tile_cols) (samples, n')).
  { set (Inv := fun (j : nat) (s : list (Z * Z) * nat) =>
                  within_budget [] n (length (rare_entities self) + j * tile_cols) s).
    assert (Hrows : Inv (0 + length (range (1 + py_int (IZR (height area_) / 256))))%nat
                        (samples, n')).
    { apply (foldM_counting Inv _) with (s := st1) (3 := H).
      - intros j s row s' Hs Hrow. unfold Inv in *.
        replace (length (rare_entities self) + S j * tile_cols)%nat
          with ((length (rare_entities self) + j * tile_cols)
                + length (range (1 + py_int (IZR (width area_) / 256))))%nat
          by (rewrite length_range; fold tile_cols; lia).
        refine (foldM_runs _ [] n _ _ _ _ _ Hs Hrow).
        intros k s0 col s0' Hs0 Hrun. cbv zeta in Hrun.
        apply (Hsub k s0 _ s0' Hs0 Hrun).
      - unfold Inv. now rewrite Nat.mul_0_l, Nat.add_0_r. }
    unfold Inv in Hrows. rewrite length_range in Hrows. exact Hrows. }
  destruct H2 as [Hn Hs]. cbn [fst snd length] in Hn, Hs. fold runs in Hn, Hs.
  split; [exact Hn|lia].
Qed.

Lemma sampleAreaImportanceSampling_budget_witness :
  sampleAreaImportanceSampling dataset_radius_3x3 rnd_corner (Box 0 0 0 0)%Z 0
  = Ok ([(-2, -2); (-3, -3)]%Z, 60%nat)
  /\ 60%nat = (0 + 60 * (length (rare_entities dataset_radius_3x3)
                         + Z.to_nat (1 + py_int (IZR 0 / 256))
                           * Z.to_nat (1 + py_int (IZR 0 / 256))))%nat.
Proof.
  split; [exact corner_run|].
  exact (proj1 (sampleAreaImportanceSampling_budget dataset_radius_3x3 rnd_corner
                  (Box 0 0 0 0)%Z 0 60 _ corner_run)).
Defined.

(** ** The areas of the search lie inside the map *)

Lemma normalization_trial_draws (self : NewDataset) (rnd : Random)
  (target_classes : list string) (landscape : metrics) (area_w area_h : Z)
  (st st' : list (list R) * list (list R) * list (list R) * nat) (i : Z) :
  fair_source rnd ->
  normalization_trial self rnd target_classes landscape area_w area_h st i = Ok st' ->
  snd st' = S (S (S (snd st))).
Proof.
  intros Hfair. unfold normalization_trial.
  destruct st as [[[sn sc] sP] n]. destruct landscape as [[ln_ lc] lp]. intros H.
  destruct (draw_area self rnd area_w area_h n) as [[a n1]| |] eqn:E;
    try discriminate. cbn [bind] in H.
  destruct (draw_area_fair _ _ _ _ _ _ _ Hfair E) as [-> _].
  destruct (calculateMetrics self a target_classes) as [[[an ac] ap]| |];
    try discriminate. cbn [bind] in H.
  destruct (rangeScore an ac ap ln_ lc lp) as [[[s1 s2] s3]| |]; try discriminate.
  cbn [bind] in H. now injection H as <-.
Qed.

Lemma search_trial_inside (self : NewDataset) (rnd : Random)
  (target_classes : list string) (landscape : metrics) (b : Bounds)
  (area_w area_h : Z) (st st' : list candidate * nat) (i : Z) :
  fair_source rnd ->
  search_trial self rnd target_classes landscape b area_w area_h st i = Ok st' ->
  snd st' = S (S (S (snd st)))
  /\ exists c, fst st' = fst st ++ [c]
               /\ isFullyInsideBBox (box_R (candidate_area c)) (box_R (map_box self))
                  = true.
Proof.
  intros Hfair. unfold search_trial. destruct landscape as [[ln_ lc] lp]. intros H.
  destruct (draw_area self rnd area_w area_h (snd st)) as [[a n1]| |] eqn:E;
    try discriminate. cbn [bind] in H.
  destruct (draw_area_fair _ _ _ _ _ _ _ Hfair E) as (-> & _ & Hin).
  destruct (calculateMetrics self a target_classes) as [[[an ac] ap]| |];
    try discriminate. cbn [bind] in H.
  destruct (calculateNormalizedScore b an ac ap ln_ lc lp) as [scores| |];
    try discriminate. cbn [bind] in H.
  destruct (mean_score scores) as [agg| |]; try discriminate. cbn [bind] in H.
  injection H as <-. cbn [fst snd]. split; [reflexivity|].
  eexists. split; [reflexivity|]. exact Hin.
Qed.

Lemma scored_candidates_inside (self : NewDataset) (rnd : Random)
  (target_classes : list string) (n n' : nat) (landscape : metrics)
  (area_info : list candidate) :
  fair_source rnd ->
  scored_candidates self rnd target_classes n = Ok (landscape, area_info, n') ->
  n' = (n + 3 * (500 + 5000))%nat
  /\ forall c, In c area_info ->
       isFullyInsideBBox (box_R (candidate_area c)) (box_R (map_box self)) = true.
Proof.
  intros Hfair. unfold scored_candidates. cbv zeta. intros H.
  destruct (calculateMetrics self _ target_classes) as [ls| |];
    try discriminate. cbn [bind] in H.
  destruct (foldM (normalization_trial _ _ _ _ _ _) _ _)
    as [[[[sn sc] sP] n1]| |] eqn:E1; try discriminate. cbn [bind] in H.
  destruct (normalization_bounds sn sc sP) as [b| |]; try discriminate.
  cbn [bind] in H.
  destruct (foldM (search_trial _ _ _ _ _ _ _) _ _) as [[info n2]| |] eqn:E2;
    try discriminate. cbn [bind] in H. injection H as <- <- <-.
  assert (H1 : snd (sn, sc, sP, n1) = (n + 3 * (0 + length (range 500)))%nat).
  { apply (foldM_counting
             (fun k (st : list (list R) * list (list R) * list (list R) * nat) =>
                snd st = (n + 3 * k)%nat) _)
      with (s := ([], [], [], n)) (3 := E1).
    - intros k s a s' Hs Hstep.
      apply (normalization_trial_draws _ _ _ _ _ _ _ _ _ Hfair) in Hstep. lia.
    - cbn [snd]. lia. }
  rewrite length_range in H1. cbn [snd] in H1.
  assert (H2 : snd (info, n2) = (n1 + 3 * (0 + length (range 5000)))%nat
               /\ forall c, In c (fst (info, n2)) ->
                    isFullyInsideBBox (box_R (candidate_area c))
                                      (box_R (map_box self)) = true).
  { apply (foldM_counting
             (fun k (st : list candidate * nat) =>
                snd st = (n1 + 3 * k)%nat
                /\ forall c, In c (fst st) ->
                     isFullyInsideBBox (box_R (candidate_area c))
                                       (box_R (map_box self)) = true) _)
      with (s := ([], n1)) (3 := E2).
    - intros k s a s' [Hs Hall] Hstep.
      destruct (search_trial_inside _ _ _ _ _ _ _ _ _ _ Hfair Hstep)
        as (Hn & c & Hc & Hin).
      split; [lia|]. rewrite Hc. intros c' Hc'. apply in_app_or in Hc'.
      destruct Hc' as [Hc'|[<-|[]]]; auto.
    - cbn [fst snd]. split; [lia|]. intros c []. }
  rewrite length_range in H2. cbn [fst snd] in H2. destruct H2 as [H2 Hall].
  split; [|exact Hall]. lia.
Qed.

(** With a random source that keeps its bounds, a search that returns has
    made 16500 draws, three for each of the 500 and the 5000 areas, and
    both areas it returns lie strictly inside the map. *)
Theorem findAreas_inside_map (self : NewDataset) (rnd : Random)
  (target_classes : list string) (n n' : nat) (val_area_ test_area_ : box Z) :
  fair_source rnd ->
  findAreas self rnd target_classes n = Ok (val_area_, test_area_, n') ->
  n' = (n + 3 * (500 + 5000))%nat
  /\ isFullyInsideBBox (box_R val_area_) (box_R (map_box self)) = true
  /\ isFullyInsideBBox (box_R test_area_) (box_R (map_box self)) = true.
Proof.
  intros Hfair H. unfold findAreas in H.
  destruct (scored_candidates self rnd target_classes n)
    as [[[landscape info] n1]| |] eqn:Ec; try discriminate. cbn [bind] in H.
  destruct (scored_candidates_inside _ _ _ _ _ _ _ Hfair Ec) as [Hn Hall].
  destruct (select_areas self target_classes landscape info) as [[v t]| |] eqn:Es;
    try discriminate. cbn [bind] in H. injection H as <- <- <-.
  split; [exact Hn|].
  unfold select_areas in Es. destruct landscape as [[ln_ lc] lp].
  destruct (sort_by_score info) as [sorted| |] eqn:Esort; try discriminate.
  cbn [bind] in Es.
  assert (Hsorted : forall c, In c sorted ->
            isFullyInsideBBox (box_R (candidate_area c)) (box_R (map_box self)) = true).
  { intros c Hc. apply Hall. destruct (sort_by_score_inv _ _ Esort) as [-> _].
    apply (Permutation_in c (stable_sort_perm info) Hc). }
  destruct sorted as [|best rest]; [discriminate|].
  cbn [bind] in Es.
  destruct (calculateMetrics self (candidate_area best) target_classes)
    as [[[an ac] ap]| |]; try discriminate. cbn [bind] in Es.
  destruct (calculateScore an ac ap ln_ lc lp) as [scores| |]; try discriminate.
  cbn [bind] in Es.
  destruct (first_disjoint (candidate_area best) (best :: rest)) as [t'|] eqn:Ef;
    try discriminate. injection Es as <- <-.
  split; [apply Hsorted; now left|].
  destruct (first_disjoint_inv _ _ _ Ef) as (i & c & Hi & -> & _).
  apply Hsorted. eapply nth_error_In; eassumption.
Qed.

Lemma rnd_two_corners_fair : fair_source rnd_two_corners.
Proof.
  intros n a b H. unfold rnd_two_corners; cbn [randint_draw].
  destruct (n <? 1503)%nat; lia.
Qed.

Lemma findAreas_two_corners :
  findAreas dataset_blank_100 rnd_two_corners ["A"%string] 0
  = Ok (area_top_left, area_bottom_right, (3 * 5000 + (3 * 500 + 0))%nat).
Proof.
  destruct (blank_scored_candidates rnd_two_corners (fun _ _ _ => eq_refl) 0%nat)
    as [cov0 Hcand].
  change 5000%nat with (S 4999) in Hcand at 1. rewrite corners_info in Hcand.
  rewrite (findAreas_value _ _ _ _ _ _ _ _ _ Hcand (equal_scores_sorted _ _ _ _ _)).
  rewrite (first_disjoint_some _ _ 1%nat (area_bottom_right, [Finite 0], Finite 0)).
  - reflexivity.
  - exact (nth_error_map_seq (fun _ => (area_bottom_right, [Finite 0], Finite 0))
             4999 0 (Nat.lt_0_succ 4998)).
  - change (overlap area_top_left area_bottom_right < 10).
    rewrite overlap_corners_38. lra.
  - intros j c' Hj Hc'. assert (j = 0%nat) by lia. subst j.
    cbn [nth_error] in Hc'. injection Hc' as <-.
    change (10 <= overlap area_top_left area_top_left).
    rewrite overlap_same_38. lra.
Qed.

Lemma findAreas_inside_map_witness :
  fair_source rnd_two_corners
  /\ findAreas dataset_blank_100 rnd_two_corners ["A"%string] 0
     = Ok (area_top_left, area_bottom_right, (3 * 5000 + (3 * 500 + 0))%nat)
  /\ isFullyInsideBBox (box_R area_bottom_right) (box_R (map_box dataset_blank_100))
     = true.
Proof.
  split; [exact rnd_two_corners_fair|]. split; [exact findAreas_two_corners|].
  exact (proj2 (proj2 (findAreas_inside_map dataset_blank_100 rnd_two_corners _ _ _ _ _
                         rnd_two_corners_fair findAreas_two_corners))).
Defined.

(** ** The uniform grid covers its area *)

Lemma In_range_intro (n x : Z) : (0 <= x < n)%Z -> In x (range n).
Proof.
  intros H. unfold range. apply in_map_iff. exists (Z.to_nat x).
  split; [lia|]. apply in_seq. lia.
Qed.

Lemma grid_axis_covers (lo W step x : R) :
  0 < step -> 0 <= W -> lo <= x <= lo + W ->
  let cols := (1 + py_int (W / step))%Z in
  let margin := py_int ((W - IZR cols * step) / 2) in
  exists col : Z,
    (0 <= col < cols)%Z
    /\ lo + IZR margin + IZR col * step <= x
       <= lo + IZR margin + IZR col * step + step.
Proof.
  intros Hstep HW Hx cols margin.
  assert (Hq : 0 <= W / step).
  { apply Rmult_le_pos; [lra|]. left. now apply Rinv_0_lt_compat. }
  assert (Hcols : W < IZR cols * step /\ (1 <= cols)%Z).
  { unfold cols. rewrite py_int_nonneg by exact Hq.
    pose proof (Zfloor_bound (W / step)) as [_ Hb].
    pose proof (Zfloor_nonneg _ Hq). split; [|lia].
    rewrite plus_IZR.
    apply Rmult_lt_compat_r with (r := step) in Hb; [|exact Hstep].
    unfold Rdiv in Hb. rewrite Rmult_assoc, Rinv_l, Rmult_1_r in Hb by lra. lra. }
  destruct Hcols as [Hcols Hone].
  assert (Hm : (W - IZR cols * step) / 2 <= IZR margin <= 0).
  { unfold margin. rewrite py_int_neg by lra.
    pose proof (Zceil_bound ((W - IZR cols * step) / 2)) as [Hc1 Hc2].
    split; [lra|].
    assert (Hlt : IZR (Zceil ((W - IZR cols * step) / 2)) < 1) by lra.
    apply lt_IZR in Hlt. apply IZR_le. lia. }
  set (g := lo + IZR margin) in *.
  assert (Hg : g <= x <= g + IZR cols * step) by (unfold g; lra).
  set (k := Zfloor ((x - g) / step)).
  assert (Hk : IZR k * step <= x - g < (IZR k + 1) * step).
  { pose proof (Zfloor_bound ((x - g) / step)) as [Hk1 Hk2]. fold k in Hk1, Hk2.
    split.
    - apply Rmult_le_compat_r with (r := step) in Hk1; [|lra].
      unfold Rdiv in Hk1. rewrite Rmult_assoc, Rinv_l, Rmult_1_r in Hk1 by lra. lra.
    - apply Rmult_lt_compat_r with (r := step) in Hk2; [|exact Hstep].
      unfold Rdiv in Hk2. rewrite Rmult_assoc, Rinv_l, Rmult_1_r in Hk2 by lra. lra. }
  assert (Hk0 : (0 <= k)%Z).
  { unfold k. apply Zfloor_nonneg. apply Rmult_le_pos; [lra|].
    left. now apply Rinv_0_lt_compat. }
  destruct (Z_lt_le_dec k cols) as [Hlt|Hge].
  - exists k. split; [lia|]. lra.
  - exists (cols - 1)%Z. split; [lia|]. rewrite minus_IZR.
    assert (Hkc : IZR cols <= IZR k) by now apply IZR_le.
    assert (IZR cols * step <= IZR k * step)
      by (apply Rmult_le_compat_r; lra).
    lra.
Qed.

(** For a step above zero, every point of the area lies in the square of
    side [step] that begins at the corner of the crop of one of the tiles
    of [sampleAreaUniformly]: the grid leaves no part of the area out. *)
Theorem sampleAreaUniformly_covers (area_ : box R) (tile_size step : R) :
  0 < step -> 0 <= width area_ -> 0 <= height area_ ->
  let offset := IZR (py_int ((tile_size - crop_size) / 2)) in
  exists samples : list (R * R),
    sampleAreaUniformly area_ tile_size step = Ok samples
    /\ forall x y : R,
         left area_ <= x <= left area_ + width area_ ->
         top area_ <= y <= top area_ + height area_ ->
         exists tile,
           In tile samples
           /\ fst tile - tile_size / 2 + offset <= x
              <= fst tile - tile_size / 2 + offset + step
           /\ snd tile - tile_size / 2 + offset <= y
              <= snd tile - tile_size / 2 + offset + step.
Proof.
  intros Hstep HW HH offset. unfold sampleAreaUniformly. cbv zeta.
  rewrite !py_div_ok by lra. cbn [bind]. eexists. split; [reflexivity|].
  intros x y Hx Hy.
  destruct (grid_axis_covers (left area_) (width area_) step x Hstep HW Hx)
    as (col & Hcol & Hcx).
  destruct (grid_axis_covers (top area_) (height area_) step y Hstep HH Hy)
    as (row & Hrow & Hry).
  eexists. split.
  - apply in_flat_map. exists row. split; [now apply In_range_intro|].
    apply in_map_iff. exists col. split; [reflexivity|now apply In_range_intro].
  - cbn [fst snd]. fold offset. split; lra.
Qed.

Lemma sampleAreaUniformly_covers_witness :
  exists samples : list (R * R),
    sampleAreaUniformly (Box 0 0 100 20) 1024 256 = Ok samples
    /\ exists tile,
         In tile samples
         /\ fst tile - 1024 / 2 + IZR (py_int ((1024 - crop_size) / 2)) <= 100
            <= fst tile - 1024 / 2 + IZR (py_int ((1024 - crop_size) / 2)) + 256.
Proof.
  destruct (sampleAreaUniformly_covers (Box 0 0 100 20) 1024 256)
    as (samples & E & Hcover); cbn [width height]; try lra.
  exists samples. split; [exact E|].
  destruct (Hcover 100 20) as (tile & Hin & Hx & _); cbn [left top width height];
    try lra.
  exists tile. now split.
Defined.

(** ** The labels of the colours *)

Lemma color_eqb_eq (p c : color) : color_eqb p c = true <-> p = c.
Proof.
  destruct p as [[p0 p1] p2], c as [[c0 c1] c2]. unfold color_eqb; cbn [fst snd].
  rewrite !andb_true_iff, !Z.eqb_eq. split.
  - now intros [[-> ->] ->].
  - intros [= -> -> ->]. auto.
Qed.

Lemma combine_map_self {A B : Type} (f : A -> B) (l : list A) :
  combine l (map f l) = map (fun x => (x, f x)) l.
Proof. induction l as [|a l IH]; cbn [map combine]; [reflexivity|]. now rewrite IH. Qed.

Lemma paint_label_pointwise (imglbl : ndarray color) (class_colors : color) (i : nat)
  (f0 : color -> Z) :
  paint_label imglbl class_colors i (map (map f0) imglbl)
  = map (map (fun p => if color_eqb p class_colors then (Z.of_nat i + 1)%Z else f0 p))
        imglbl.
Proof.
  unfold paint_label. rewrite combine_map_self, map_map. apply map_ext.
  intros row. cbn [fst snd]. now rewrite combine_map_self, map_map.
Qed.

Lemma convert_loop (imglbl : ndarray color) (labels_colors : string -> option color)
  (target_classes : list string) :
  forall (colors : list color) (k : nat) (f0 : color -> Z),
    map labels_colors target_classes = map Some colors ->
    fold_left
      (fun (st : ndarray Z * bool) (entry : nat * string) =>
         let '(lbl, ok) := st in
         if ok then
           match labels_colors (snd entry) with
           | Some class_colors => (paint_label imglbl class_colors (fst entry) lbl, true)
           | None => (lbl, false)
           end
         else st)
      (combine (seq k (length target_classes)) target_classes)
      (map (map f0) imglbl, true)
    = (map (map (fun p => last_match (combine (seq k (length colors)) colors) p (f0 p)))
           imglbl, true).
Proof.
  induction target_classes as [|cl cls IH]; intros colors k f0 H.
  - destruct colors; [|discriminate]. reflexivity.
  - destruct colors as [|c cs]; [discriminate|].
    cbn [map] in H. injection H as Hc Hcs.
    cbn [length seq combine fold_left snd fst]. rewrite Hc.
    rewrite paint_label_pointwise. rewrite (IH cs (S k) _ Hcs). reflexivity.
Qed.

Lemma last_match_cases (p : color) (colors : list color) :
  forall (k : nat) (l0 : Z),
    let l := last_match (combine (seq k (length colors)) colors) p l0 in
    ((forall c, In c colors -> p <> c) /\ l = l0)
    \/ exists i c,
         nth_error colors i = Some c /\ p = c
         /\ l = (Z.of_nat (k + i) + 1)%Z
         /\ forall j c', (i < j)%nat -> nth_error colors j = Some c' -> p <> c'.
Proof.
  induction colors as [|c cs IH]; intros k l0; cbv zeta.
  - left. split; [intros c []|reflexivity].
  - cbn [length seq combine]. unfold last_match. cbn [fold_left fst snd].
    fold (last_match (combine (seq (S k) (length cs)) cs) p
            (if color_eqb p c then (Z.of_nat k + 1)%Z else l0)).
    destruct (IH (S k) (if color_eqb p c then (Z.of_nat k + 1)%Z else l0))
      as [[Hnone Hl]|(i & c' & Hi & Hp & Hl & Hlater)].
    + destruct (color_eqb p c) eqn:E.
      * right. exists 0%nat, c. apply color_eqb_eq in E.
        split; [reflexivity|]. split; [exact E|].
        split; [rewrite Hl, Nat.add_0_r; reflexivity|].
        intros [|j] c'' Hj Hc''; [lia|]. cbn [nth_error] in Hc''.
        apply Hnone. eapply nth_error_In; eassumption.
      * left. split; [|exact Hl]. intros c0 [<-|Hin]; [|now apply Hnone].
        intros Heq. apply color_eqb_eq in Heq. congruence.
    + right. exists (S i), c'. split; [exact Hi|]. split; [exact Hp|].
      split; [rewrite Hl; f_equal; lia|].
      intros [|j] c'' Hj Hc''; [lia|]. cbn [nth_error] in Hc''.
      apply (Hlater j c''); [lia|exact Hc''].
Qed.

Lemma pixel_at_map {A B : Type} (g : A -> B) (a : ndarray A) (r c : nat) :
  pixel_at (map (map g) a) r c = option_map g (pixel_at a r c).
Proof.
  unfold pixel_at. rewrite nth_error_map.
  destruct (nth_error a r) as [row|]; cbn [option_map]; [|reflexivity].
  apply nth_error_map.
Qed.

(** When every target class has a colour, [convert_colors_to_labels]
    gives every pixel of the label image a label between 0 and the number
    of classes: 0 where the colour of the pixel is that of no class, and
    otherwise the number, counted from 1, of the last class of the list
    that has this colour. *)
Theorem convert_colors_to_labels_last_class (self : NewDataset)
  (imglbl : ndarray color) (target_classes : list string)
  (labels_colors : string -> option color) (colors : list color) :
  map labels_colors target_classes = map Some colors ->
  exists lbl : ndarray Z,
    convert_colors_to_labels self imglbl target_classes labels_colors
    = (set_labels self lbl, true)
    /\ forall (r c : nat) (p : color),
         pixel_at imglbl r c = Some p ->
         exists l : Z,
           pixel_at lbl r c = Some l
           /\ (0 <= l <= Z.of_nat (length target_classes))%Z
           /\ (l = 0%Z <-> forall col, In col colors -> p <> col)
           /\ forall i : nat,
                l = (Z.of_nat i + 1)%Z ->
                nth_error colors i = Some p
                /\ forall j col, (i < j)%nat -> nth_error colors j = Some col ->
                                 p <> col.
Proof.
  intros Hcolors. unfold convert_colors_to_labels, enumerate. cbv zeta.
  rewrite (convert_loop imglbl labels_colors target_classes colors 0 _ Hcolors).
  eexists. split; [reflexivity|].
  intros r c p Hp. rewrite pixel_at_map, Hp. cbn [option_map].
  eexists. split; [reflexivity|].
  assert (Hlen : length colors = length target_classes).
  { apply (f_equal (@length (option color))) in Hcolors.
    now rewrite !length_map in Hcolors. }
  destruct (last_match_cases p colors 0 0%Z)
    as [[Hnone ->]|(i & col & Hi & -> & -> & Hlater)]; cbn [Nat.add].
  - split; [lia|]. split; [tauto|]. intros i Hi. lia.
  - assert (Hlt : (i < length colors)%nat) by (apply nth_error_Some; congruence).
    split; [lia|]. split.
    + split; [lia|]. intros Hnone. exfalso.
      apply (Hnone col); [eapply nth_error_In; eassumption|reflexivity].
    + intros i' Hi'. assert (i' = i) by lia. subst i'. split; [exact Hi|exact Hlater].
Qed.

Lemma convert_colors_to_labels_last_class_witness :
  exists lbl : ndarray Z,
    convert_colors_to_labels dataset_val_100x20 [[(1, 2, 3); (0, 0, 0)]]%Z
      ["A"; "B"]%string (fun _ => Some (1, 2, 3)%Z)
    = (set_labels dataset_val_100x20 lbl, true)
    /\ exists l : Z, pixel_at lbl 0 0 = Some l /\ (0 <= l <= 2)%Z.
Proof.
  destruct (convert_colors_to_labels_last_class dataset_val_100x20
              [[(1, 2, 3); (0, 0, 0)]]%Z ["A"; "B"]%string
              (fun _ => Some (1, 2, 3)%Z) [(1, 2, 3); (1, 2, 3)]%Z eq_refl)
    as (lbl & E & Hpix).
  exists lbl. split; [exact E|].
  destruct (Hpix 0%nat 0%nat (1, 2, 3)%Z eq_refl) as (l & Hl & Hb & _).
  exists l. now split.
Defined.

Lemma convert_loop_stopped (imglbl : ndarray color)
  (labels_colors : string -> option color) (entries : list (nat * string))
  (lbl : ndarray Z) :
  fold_left
    (fun (st : ndarray Z * bool) (entry : nat * string) =>
       let '(lbl, ok) := st in
       if ok then
         match labels_colors (snd entry) with
         | Some class_colors => (paint_label imglbl class_colors (fst entry) lbl, true)
         | None => (lbl, false)
         end
       else st)
    entries (lbl, false)
  = (lbl, false).
Proof. induction entries as [|e es IH]; cbn [fold_left]; [reflexivity|exact IH]. Qed.

Lemma convert_loop_key_error (imglbl : ndarray color)
  (labels_colors : string -> option color) (entries : list (nat * string)) :
  (exists e, In e entries /\ labels_colors (snd e) = None) ->
  forall lbl : ndarray Z,
    length lbl = length imglbl ->
    exists lbl',
      fold_left
        (fun (st : ndarray Z * bool) (entry : nat * string) =>
           let '(lbl, ok) := st in
           if ok then
             match labels_colors (snd entry) with
             | Some class_colors =>
                 (paint_label imglbl class_colors (fst entry) lbl, true)
             | None => (lbl, false)
             end
           else st)
        entries (lbl, true)
      = (lbl', false)
      /\ length lbl' = length imglbl.
Proof.
  induction entries as [|e es IH]; intros (e0 & Hin & Hnone) lbl Hlen.
  - destruct Hin.
  - cbn [fold_left]. destruct (labels_colors (snd e)) as [col|] eqn:E.
    + apply IH.
      * destruct Hin as [<-|Hin]; [congruence|]. now exists e0.
      * unfold paint_label. rewrite length_map, length_combine. lia.
    + exists lbl. split; [apply convert_loop_stopped|exact Hlen].
Qed.

(** A target class without a colour stops [convert_colors_to_labels] with
    [KeyError], after the labels of the object were replaced: they are an
    array of the height of the image, painted for the classes before. *)
Theorem convert_colors_to_labels_key_error (self : NewDataset)
  (imglbl : ndarray color) (target_classes : list string)
  (labels_colors : string -> option color) (class_name_ : string) :
  In class_name_ target_classes -> labels_colors class_name_ = None ->
  exists lbl : ndarray Z,
    convert_colors_to_labels self imglbl target_classes labels_colors
    = (set_labels self lbl, false)
    /\ length lbl = length imglbl.
Proof.
  intros Hin Hnone. unfold convert_colors_to_labels. cbv zeta.
  destruct (In_nth_error _ _ Hin) as [i Hi].
  destruct (convert_loop_key_error imglbl labels_colors (enumerate target_classes))
    with (lbl := map (map (fun _ : color => 0%Z)) imglbl) as (lbl' & E & Hlen).
  - exists (i, class_name_). split; [|exact Hnone].
    eapply nth_error_In. apply nth_error_enumerate. exact Hi.
  - now rewrite length_map.
  - exists lbl'. split; [|exact Hlen].
    match goal with
    | |- (let '(_, _) := ?F in _) = _ =>
        replace F with (lbl', false) by (symmetry; exact E)
    end.
    reflexivity.
Qed.

Lemma convert_colors_to_labels_key_error_witness :
  exists lbl : ndarray Z,
    convert_colors_to_labels dataset_val_100x20 [[(1, 2, 3); (0, 0, 0)]]%Z
      ["A"]%string (fun _ => None)
    = (set_labels dataset_val_100x20 lbl, false)
    /\ length lbl = 1%nat.
Proof.
  exact (convert_colors_to_labels_key_error dataset_val_100x20
           [[(1, 2, 3); (0, 0, 0)]]%Z ["A"]%string (fun _ => None) "A"%string
           (or_introl eq_refl) eq_refl).
Defined.
